(** * AGV Fleet Commander: a shallow embedding of the fleet engine

    The development follows the Python sources of the repository:
    - [domain/entities.py]   : Position, AGV, Task, Route, FleetMetrics;
    - [adapters/data_adapter.py] : the in-memory part of [CSVDataAdapter]
      and the tick simulator [SimulationDataUpdater];
    - [adapters/openai_adapter.py] : the route and analytics adapters with
      their local fallbacks;
    - [domain/services.py]   : [FleetOrchestrationService] and
      [AGVControlService];
    - [main.py]              : the wiring done by [startup_event].

    Modelling conventions.
    - Python [float] values are idealised as real numbers ([R]); [v ** 0.5]
      is [sqrt v] and [v ** 2] is [v ^ 2].  Where a result hinges on the
      rounding of binary64 arithmetic, as the comparison of [can_reach]
      does, the operation is given a second time on binary64 values
      (section [Binary64]).
    - [datetime] values are abstract time stamps ([nat]); the clock reading
      [datetime.now()] is an input [now] of every operation.
    - A Python exception is a value [Raise e] of the type [result].
    - The answer of the hosted language model and the values produced by the
      [random] module are inputs (oracles) of the operations that use them.
    - The two dictionaries of [CSVDataAdapter] are only ever written under
      the key [agv.agv_id] (resp. [task.task_id]) of the stored object, so
      each is represented by the list of its values in insertion order.
      Entities handed out by the repository are references to the stored
      objects: an attribute assignment on such an entity is an update of
      the store. *)

From Stdlib Require Import Reals Lra Lia List String Bool ZArith.
From Stdlib Require Floats.
Import ListNotations.

Open Scope string_scope.
Open Scope list_scope.
Open Scope R_scope.

(** ** Python-level helpers *)

Inductive exn : Type :=
| AttributeError   (* attribute access on an object that lacks it *)
| TypeError        (* wrong call signature or operand type *)
| AdvisorError.    (* any exception raised while talking to the model *)

Inductive result (A : Type) : Type :=
| Ok (a : A)
| Raise (e : exn).

Arguments Ok {A} a.
Arguments Raise {A} e.

Definition Rltb (a b : R) : bool := if Rlt_dec a b then true else false.
Definition Rgtb (a b : R) : bool := if Rgt_dec a b then true else false.
Definition Rgeb (a b : R) : bool := if Rge_dec a b then true else false.

Definition datetime : Type := nat.

(** Truth value of an [Optional[str]]: [None] and the empty string are
    false. *)
Definition str_truthy (o : option string) : bool :=
  match o with
  | Some s => negb (String.eqb s "")
  | None => false
  end.

Definition is_None {A : Type} (o : option A) : bool :=
  match o with
  | Some _ => false
  | None => true
  end.

(** ** domain/entities.py *)

Inductive AGVStatus : Type :=
| IDLE | MOVING | TRANSPORTING | CHARGING | MAINTENANCE.

Inductive TaskPriority : Type :=
| LOW | MEDIUM | HIGH | URGENT.

Definition AGVStatus_eqb (s1 s2 : AGVStatus) : bool :=
  match s1, s2 with
  | IDLE, IDLE | MOVING, MOVING | TRANSPORTING, TRANSPORTING
  | CHARGING, CHARGING | MAINTENANCE, MAINTENANCE => true
  | _, _ => false
  end.

Record Position : Type := mkPosition {
  x : R;
  y : R;
  zone : string
}.

(** [Position(px, py)]: the zone takes its default value. *)
Definition Position_init (px py : R) : Position :=
  mkPosition px py "".

Definition distance_to (self other : Position) : R :=
  sqrt ((x self - x other) ^ 2 + (y self - y other) ^ 2).

Record AGV : Type := mkAGV {
  agv_id : string;
  name : string;
  position : Position;
  battery_level : R;
  status : AGVStatus;
  current_task_id : option string;
  max_speed : R;
  load_capacity : R;
  last_update : datetime
}.

Definition is_available (self : AGV) : bool :=
  AGVStatus_eqb (status self) IDLE
  && Rgtb (battery_level self) 20
  && is_None (current_task_id self).

Definition needs_charging (self : AGV) : bool :=
  Rltb (battery_level self) 30.

Definition can_reach (self : AGV) (destination : Position) : bool :=
  let distance := distance_to (position self) destination in
  let battery_needed := (distance / 100) * 1 in
  Rgeb (battery_level self) (battery_needed + 10).

Record Task : Type := mkTask {
  task_id : string;
  description : string;
  origin : Position;
  destination : Position;
  priority : TaskPriority;
  container_id : option string;
  assigned_agv_id : option string;
  created_at : datetime;
  started_at : option datetime;
  completed_at : option datetime;
  estimated_duration : R
}.

Definition is_completed (self : Task) : bool :=
  negb (is_None (completed_at self)).

Definition is_in_progress (self : Task) : bool :=
  negb (is_None (started_at self))
  && is_None (completed_at self)
  && negb (is_None (assigned_agv_id self)).

Record Route : Type := mkRoute {
  route_id : string;
  route_agv_id : string;
  route_task_id : string;
  waypoints : list Position;
  total_distance : R;
  estimated_time : R;
  fuel_consumption : R;
  route_created_at : datetime
}.

(** The [__init__] that [@dataclass] generates for [Route], called with
    keyword arguments.  An argument is [Some v] when the call site passes it
    and [None] when the call site leaves it out.  Only [created_at] has a
    default ([None], replaced by the clock in [__post_init__]); leaving out
    any other field raises [TypeError]. *)
Definition Route_init
    (a_route_id a_agv_id a_task_id : option string)
    (a_waypoints : option (list Position))
    (a_total_distance a_estimated_time a_fuel_consumption : option R)
    (a_created_at : option datetime) (now : datetime) : result Route :=
  match a_route_id, a_agv_id, a_task_id, a_waypoints,
        a_total_distance, a_estimated_time, a_fuel_consumption with
  | Some rid, Some aid, Some tid, Some wps, Some dist, Some time, Some fuel =>
      Ok (mkRoute rid aid tid wps dist time fuel
            (match a_created_at with Some c => c | None => now end))
  | _, _, _, _, _, _, _ => Raise TypeError
  end.

Record FleetMetrics : Type := mkFleetMetrics {
  total_agvs : Z;
  active_agvs : Z;
  idle_agvs : Z;
  charging_agvs : Z;
  pending_tasks : Z;
  completed_tasks : Z;
  average_battery : R;
  fleet_efficiency : R;   (* 0-100 *)
  timestamp : datetime
}.

Definition calculate_efficiency (self : FleetMetrics) : R :=
  if Z.eqb (total_agvs self) 0 then 0
  else
    let active_ratio := IZR (active_agvs self) / IZR (total_agvs self) in
    let battery_ratio := average_battery self / 100 in
    (active_ratio * 0.7 + battery_ratio * 0.3) * 100.

(** Attribute assignments on entities. *)

Definition set_position (agv : AGV) (p : Position) : AGV :=
  mkAGV (agv_id agv) (name agv) p (battery_level agv) (status agv)
        (current_task_id agv) (max_speed agv) (load_capacity agv)
        (last_update agv).

Definition set_battery_level (agv : AGV) (b : R) : AGV :=
  mkAGV (agv_id agv) (name agv) (position agv) b (status agv)
        (current_task_id agv) (max_speed agv) (load_capacity agv)
        (last_update agv).

Definition set_status (agv : AGV) (s : AGVStatus) : AGV :=
  mkAGV (agv_id agv) (name agv) (position agv) (battery_level agv) s
        (current_task_id agv) (max_speed agv) (load_capacity agv)
        (last_update agv).

Definition set_current_task_id (agv : AGV) (t : option string) : AGV :=
  mkAGV (agv_id agv) (name agv) (position agv) (battery_level agv)
        (status agv) t (max_speed agv) (load_capacity agv) (last_update agv).

Definition set_last_update (agv : AGV) (t : datetime) : AGV :=
  mkAGV (agv_id agv) (name agv) (position agv) (battery_level agv)
        (status agv) (current_task_id agv) (max_speed agv)
        (load_capacity agv) t.

Definition set_assigned_agv_id (task : Task) (a : option string) : Task :=
  mkTask (task_id task) (description task) (origin task) (destination task)
         (priority task) (container_id task) a (created_at task)
         (started_at task) (completed_at task) (estimated_duration task).

Definition set_started_at (task : Task) (t : option datetime) : Task :=
  mkTask (task_id task) (description task) (origin task) (destination task)
         (priority task) (container_id task) (assigned_agv_id task)
         (created_at task) t (completed_at task) (estimated_duration task).

Definition set_completed_at (task : Task) (t : option datetime) : Task :=
  mkTask (task_id task) (description task) (origin task) (destination task)
         (priority task) (container_id task) (assigned_agv_id task)
         (created_at task) (started_at task) t (estimated_duration task).

(** Equality of two tasks, as the [__eq__] that [@dataclass] generates
    (field by field). *)
Definition Position_eq_dec (p q : Position) : {p = q} + {p <> q}.
Proof.
  decide equality; auto using string_dec, Req_dec_T.
Defined.

Definition Task_eq_dec (t u : Task) : {t = u} + {t <> u}.
Proof.
  decide equality;
    repeat (decide equality;
            auto using string_dec, Req_dec_T, Position_eq_dec,
              Nat.eq_dec).
  all: auto using string_dec, Req_dec_T, Position_eq_dec, Nat.eq_dec.
Defined.

(** ** adapters/data_adapter.py: the repository *)

Record CSVDataAdapter : Type := mkCSVDataAdapter {
  _agvs : list AGV;
  _tasks : list Task
}.

(** [self._agvs[agv.agv_id] = agv]: an existing key keeps its place, a new
    key goes last. *)
Fixpoint store_agv (d : list AGV) (agv : AGV) : list AGV :=
  match d with
  | [] => [agv]
  | a :: d' =>
      if String.eqb (agv_id a) (agv_id agv) then agv :: d'
      else a :: store_agv d' agv
  end.

Fixpoint store_task (d : list Task) (task : Task) : list Task :=
  match d with
  | [] => [task]
  | t :: d' =>
      if String.eqb (task_id t) (task_id task) then task :: d'
      else t :: store_task d' task
  end.

Definition get_all_agvs (self : CSVDataAdapter) : list AGV :=
  _agvs self.

Definition get_agv_by_id (self : CSVDataAdapter) (id : string)
  : option AGV :=
  find (fun a => String.eqb (agv_id a) id) (_agvs self).

Definition get_available_agvs (self : CSVDataAdapter) : list AGV :=
  filter is_available (_agvs self).

(** In-memory effect of [update_agv].  The boolean it returns is the
    outcome of writing the CSV file; callers that look at it take it as an
    input. *)
Definition update_agv (self : CSVDataAdapter) (agv : AGV) (now : datetime)
  : CSVDataAdapter :=
  mkCSVDataAdapter (store_agv (_agvs self) (set_last_update agv now))
                   (_tasks self).

Definition get_all_tasks (self : CSVDataAdapter) : list Task :=
  _tasks self.

Definition get_task_by_id (self : CSVDataAdapter) (id : string)
  : option Task :=
  find (fun t => String.eqb (task_id t) id) (_tasks self).

Definition get_pending_tasks (self : CSVDataAdapter) : list Task :=
  filter (fun task => negb (is_completed task)
                      && negb (str_truthy (assigned_agv_id task)))
         (_tasks self).

Definition update_task (self : CSVDataAdapter) (task : Task)
  : CSVDataAdapter :=
  mkCSVDataAdapter (_agvs self) (store_task (_tasks self) task).

(** An attribute assignment on an entity obtained from the repository
    changes the stored object itself. *)
Definition mutate_agv (self : CSVDataAdapter) (agv : AGV) : CSVDataAdapter :=
  mkCSVDataAdapter (store_agv (_agvs self) agv) (_tasks self).

Definition mutate_task (self : CSVDataAdapter) (task : Task)
  : CSVDataAdapter :=
  mkCSVDataAdapter (_agvs self) (store_task (_tasks self) task).

(** ** The [random] module *)

Record Random : Type := mkRandom {
  draws : nat -> R;   (* the successive values of [random.random()] *)
  cursor : nat
}.

Definition random (g : Random) : R * Random :=
  (draws g (cursor g), mkRandom (draws g) (S (cursor g))).

Definition uniform (a b : R) (g : Random) : R * Random :=
  let '(u, g') := random g in (a + (b - a) * u, g').

(** [random.random()] returns a value of the interval [0, 1). *)
Definition unit_draws (g : Random) : Prop :=
  forall n : nat, 0 <= draws g n < 1.

(** The battery invariant of the data model. *)
Definition battery_in_range (agv : AGV) : Prop :=
  0 <= battery_level agv <= 100.

(** ** adapters/data_adapter.py: the simulator

    Each loop runs over the list that [get_all_agvs] returned when the loop
    started; the entity is changed and then written back with
    [update_agv]. *)

Definition movement_step (now : datetime) (agv : AGV)
    (st : CSVDataAdapter * Random) : CSVDataAdapter * Random :=
  let '(repo, g) := st in
  if AGVStatus_eqb (status agv) MOVING
     || AGVStatus_eqb (status agv) TRANSPORTING
  then
    match current_task_id agv with
    | Some tid =>
        if negb (String.eqb tid "") then
          match get_task_by_id repo tid with
          | Some task =>
              let dx := x (destination task) - x (position agv) in
              let dy := y (destination task) - y (position agv) in
              let distance := sqrt (dx ^ 2 + dy ^ 2) in
              if Rgtb distance 5 then
                let move_distance := Rmin 10 distance in
                let factor := move_distance / distance in
                let agv1 :=
                  set_position agv
                    (mkPosition (x (position agv) + dx * factor)
                                (y (position agv) + dy * factor)
                                (zone (position agv))) in
                let '(u, g1) := uniform 0.1 0.3 g in
                let agv2 :=
                  set_battery_level agv1
                    (Rmax 0 (battery_level agv1 - u)) in
                (update_agv repo agv2 now, g1)
              else
                let agv1 :=
                  set_position agv
                    (Position_init (x (destination task))
                                   (y (destination task))) in
                let agv2 := set_status agv1 IDLE in
                let agv3 := set_current_task_id agv2 None in
                let task1 := set_completed_at task (Some now) in
                (update_agv (update_task repo task1) agv3 now, g)
          | None => (update_agv repo agv now, g)
          end
        else (update_agv repo agv now, g)
    | None => (update_agv repo agv now, g)
    end
  else (repo, g).

Definition simulate_agv_movement (now : datetime)
    (st : CSVDataAdapter * Random) : CSVDataAdapter * Random :=
  fold_left (fun s agv => movement_step now agv s)
            (get_all_agvs (fst st)) st.

Definition battery_step (now : datetime) (agv : AGV)
    (st : CSVDataAdapter * Random) : CSVDataAdapter * Random :=
  let '(repo, g) := st in
  if AGVStatus_eqb (status agv) CHARGING then
    let '(u, g1) := uniform 2 5 g in
    let agv1 := set_battery_level agv (Rmin 100 (battery_level agv + u)) in
    let agv2 :=
      if Rgeb (battery_level agv1) 90 then set_status agv1 IDLE else agv1 in
    (update_agv repo agv2 now, g1)
  else if AGVStatus_eqb (status agv) IDLE then
    let '(u, g1) := uniform 0.01 0.05 g in
    let agv1 := set_battery_level agv (Rmax 0 (battery_level agv - u)) in
    if Rltb (battery_level agv1) 20 then
      let '(r, g2) := random g1 in
      let agv2 :=
        if Rltb r 0.3 then set_status agv1 CHARGING else agv1 in
      (update_agv repo agv2 now, g2)
    else (update_agv repo agv1 now, g1)
  else (repo, g).

Definition simulate_battery_changes (now : datetime)
    (st : CSVDataAdapter * Random) : CSVDataAdapter * Random :=
  fold_left (fun s agv => battery_step now agv s)
            (get_all_agvs (fst st)) st.

(** ** Python dictionaries with string keys, in insertion order *)

Fixpoint dict_set {V : Type} (d : list (string * V)) (k : string) (v : V)
  : list (string * V) :=
  match d with
  | [] => [(k, v)]
  | (k', v') :: d' =>
      if String.eqb k' k then (k', v) :: d'
      else (k', v') :: dict_set d' k v
  end.

Definition dict_get {V : Type} (d : list (string * V)) (k : string)
  : option V :=
  option_map snd (find (fun kv => String.eqb (fst kv) k) d).

(** The values that occur in the data handed to the insight generator:
    numbers, strings, time stamps, [None], and dictionaries of those. *)
Inductive pyatom : Type :=
| PyNum (r : R)
| PyStr (s : string)
| PyTime (t : datetime)
| PyNone.

Inductive pyval : Type :=
| PyAtom (a : pyatom)
| PyDict (d : list (string * pyatom)).

Definition pydict : Type := list (string * pyval).

Definition py_truthy (v : pyval) : bool :=
  match v with
  | PyAtom (PyNum r) => if Req_dec_T r 0 then false else true
  | PyAtom (PyStr s) => negb (String.eqb s "")
  | PyAtom (PyTime _) => true
  | PyAtom PyNone => false
  | PyDict d => match d with [] => false | _ :: _ => true end
  end.

(** [v < c] for a float constant [c]: only a number compares with a
    number. *)
Definition py_lt (v : pyatom) (c : R) : result bool :=
  match v with
  | PyNum r => Ok (Rltb r c)
  | _ => Raise TypeError
  end.

(** [d.get(k, default)] *)
Definition dict_get_default {V : Type} (d : list (string * V)) (k : string)
    (default : V) : V :=
  match dict_get d k with
  | Some v => v
  | None => default
  end.

(** [datetime.strftime('%H%M%S')], reading the time stamp as seconds. *)
Definition two_digits (n : nat) : string :=
  String (Ascii.ascii_of_nat (48 + n / 10))
         (String (Ascii.ascii_of_nat (48 + n mod 10)) "").

Definition strftime_HMS (t : datetime) : string :=
  (two_digits ((t / 3600) mod 24) ++ two_digits ((t / 60) mod 60)
   ++ two_digits (t mod 60))%string.

(** ** domain/ports.py *)

(** What [json.loads] may hand back for an assignment recommendation. *)
Inductive AssignmentReply : Type :=
| ReplyDict (items : list (string * string))  (* a JSON object of strings *)
| ReplyNotDict.                               (* any other JSON value *)

Record Insight : Type := mkInsight {
  category : string;
  title : string;
  impact : string;
  recommendation : string;
  metrics : list (string * pyatom);
  insight_priority : Z
}.

Record RouteOptimizerPort : Type := mkRouteOptimizerPort {
  optimize_route : AGV -> Task -> datetime -> result Route
}.

Record AIAnalyticsPort : Type := mkAIAnalyticsPort {
  recommend_task_assignment :
    list AGV -> list Task -> result AssignmentReply;
  generate_fleet_insights : pydict -> result (list Insight)
}.

(** ** adapters/openai_adapter.py

    What the body of each [try] block yields up to and including
    [json.loads] depends on the remote model only; it is a field of the
    adapter. *)

Record OpenAIRouteOptimizer : Type := mkOpenAIRouteOptimizer {
  (* waypoints, estimated_time, total_distance of the parsed answer *)
  route_completion : AGV -> Task -> result (list Position * R * R)
}.

Definition _create_fallback_route (agv : AGV) (task : Task)
    (now : datetime) : result Route :=
  let waypoints := [position agv; origin task; destination task] in
  let total_distance :=
    distance_to (position agv) (origin task)
    + distance_to (origin task) (destination task) in
  let estimated_time := total_distance / 1000 / 20 * 60 in
  Route_init
    (Some ("FALLBACK_" ++ agv_id agv ++ "_" ++ task_id task ++ "_"
           ++ strftime_HMS now)%string)
    (Some (agv_id agv))
    (Some (task_id task))
    (Some waypoints)
    (Some total_distance)
    (Some estimated_time)
    None                       (* fuel_consumption is not passed *)
    (Some now)
    now.

Definition OpenAIRouteOptimizer_optimize_route (self : OpenAIRouteOptimizer)
    (agv : AGV) (task : Task) (now : datetime) : result Route :=
  let attempt :=
    match route_completion self agv task with
    | Ok (wps, time, dist) =>
        Route_init
          (Some ("ROUTE_" ++ agv_id agv ++ "_" ++ task_id task ++ "_"
                 ++ strftime_HMS now)%string)
          (Some (agv_id agv))
          (Some (task_id task))
          (Some (map (fun wp => Position_init (x wp) (y wp)) wps))
          (Some dist)
          (Some time)
          None                 (* fuel_consumption is not passed *)
          (Some now)
          now
    | Raise e => Raise e
    end in
  match attempt with
  | Ok route => Ok route
  | Raise _ => _create_fallback_route agv task now
  end.

Record OpenAIAnalytics : Type := mkOpenAIAnalytics {
  assignment_completion : list AGV -> list Task -> result AssignmentReply;
  insights_completion : pydict -> result (list Insight)
}.

(** [min(l, key=key)] for a non-empty list [best :: l]: the first element
    whose key is smallest. *)
Fixpoint min_by {A : Type} (key : A -> R) (best : A) (l : list A) : A :=
  match l with
  | [] => best
  | a :: l' => min_by key (if Rltb (key a) (key best) then a else best) l'
  end.

(** [l.remove(t)]: the first element equal to [t] goes. *)
Fixpoint list_remove (t : Task) (l : list Task) : list Task :=
  match l with
  | [] => []
  | u :: l' => if Task_eq_dec u t then l' else u :: list_remove t l'
  end.

(** The [except] branch of [recommend_task_assignment]: the state of the
    loop is the pair of [assignments] and [available_tasks]. *)
Fixpoint fallback_assignment_loop (agvs : list AGV)
    (st : list (string * string) * list Task)
  : list (string * string) * list Task :=
  match agvs with
  | [] => st
  | agv :: rest =>
      let '(assignments, available_tasks) := st in
      match available_tasks with
      | first :: others =>
          if Rgtb (battery_level agv) 30 then
            let closest_task :=
              min_by (fun t => distance_to (position agv) (origin t))
                     first others in
            fallback_assignment_loop rest
              (dict_set assignments (agv_id agv) (task_id closest_task),
               list_remove closest_task available_tasks)
          else fallback_assignment_loop rest st
      | [] => fallback_assignment_loop rest st
      end
  end.

Definition fallback_assignment (agvs : list AGV) (tasks : list Task)
  : list (string * string) :=
  fst (fallback_assignment_loop agvs ([], tasks)).

(** The tasks still unassigned once the AGVs of [served] had their turn. *)
Definition remaining_pool (served : list AGV) (tasks : list Task)
  : list Task :=
  snd (fallback_assignment_loop served ([], tasks)).

Definition OpenAIAnalytics_recommend_task_assignment
    (self : OpenAIAnalytics) (agvs : list AGV) (tasks : list Task)
  : result AssignmentReply :=
  match assignment_completion self agvs tasks with
  | Ok reply => Ok reply
  | Raise _ => Ok (ReplyDict (fallback_assignment agvs tasks))
  end.

(** The two dictionaries that the [except] branch of
    [generate_fleet_insights] can append.  The description of an insight, a
    rendering of the number, is left out. *)
Definition efficiency_insight (efficiency : pyatom) : Insight :=
  mkInsight "EFFICIENCY"
            "Eficiencia de flota por debajo del objetivo"
            "MEDIUM"
            "Revisar asignación de tareas y optimizar rutas"
            [("current_efficiency", efficiency)]
            2.

Definition battery_insight (avg_battery : pyatom) : Insight :=
  mkInsight "ALERT"
            "Nivel promedio de batería bajo"
            "HIGH"
            "Implementar ciclos de carga más frecuentes"
            [("average_battery", avg_battery)]
            1.

(** The [except] branch of [generate_fleet_insights]. *)
Definition insights_fallback (fleet_data : pydict)
  : result (list Insight) :=
  match dict_get fleet_data "metrics" with
  | Some m =>
      if py_truthy m then
        match m with
        | PyDict metrics =>
            let efficiency :=
              dict_get_default metrics "fleet_efficiency" (PyNum 0) in
            match py_lt efficiency 0.7 with
            | Raise e => Raise e
            | Ok low_efficiency =>
                let insights1 :=
                  if low_efficiency then [efficiency_insight efficiency]
                  else [] in
                let avg_battery :=
                  dict_get_default metrics "average_battery" (PyNum 0) in
                match py_lt avg_battery 50 with
                | Raise e => Raise e
                | Ok low_battery =>
                    Ok (insights1 ++
                        if low_battery then [battery_insight avg_battery]
                        else [])
                end
            end
        | PyAtom _ => Raise AttributeError
        end
      else Ok []
  | None => Ok []
  end.

Definition OpenAIAnalytics_generate_fleet_insights (self : OpenAIAnalytics)
    (fleet_data : pydict) : result (list Insight) :=
  match insights_completion self fleet_data with
  | Ok insights => Ok insights
  | Raise _ => insights_fallback fleet_data
  end.

Definition OpenAIRouteOptimizer_port (self : OpenAIRouteOptimizer)
  : RouteOptimizerPort :=
  mkRouteOptimizerPort (OpenAIRouteOptimizer_optimize_route self).

Definition OpenAIAnalytics_port (self : OpenAIAnalytics) : AIAnalyticsPort :=
  mkAIAnalyticsPort (OpenAIAnalytics_recommend_task_assignment self)
                    (OpenAIAnalytics_generate_fleet_insights self).

(** ** domain/services.py

    The repositories are the [CSVDataAdapter] passed along as state.  The
    notification service only appends to its own log and catches every
    exception, so it is left out. *)

Record FleetOrchestrationService : Type := mkFleetOrchestrationService {
  route_optimizer : option RouteOptimizerPort;
  ai_analytics : option AIAnalyticsPort
}.

(** [metrics.__dict__] *)
Definition FleetMetrics_dict (m : FleetMetrics) : list (string * pyatom) :=
  [("total_agvs", PyNum (IZR (total_agvs m)));
   ("active_agvs", PyNum (IZR (active_agvs m)));
   ("idle_agvs", PyNum (IZR (idle_agvs m)));
   ("charging_agvs", PyNum (IZR (charging_agvs m)));
   ("pending_tasks", PyNum (IZR (pending_tasks m)));
   ("completed_tasks", PyNum (IZR (completed_tasks m)));
   ("average_battery", PyNum (average_battery m));
   ("fleet_efficiency", PyNum (fleet_efficiency m));
   ("timestamp", PyTime (timestamp m))].

(** [datetime.isoformat()] renders a time stamp as a string.  The time
    stamps of this development count seconds and carry no date, so only
    the time of day is written out. *)
Definition isoformat (t : datetime) : string :=
  ("T" ++ two_digits ((t / 3600) mod 24) ++ ":"
   ++ two_digits ((t / 60) mod 60) ++ ":" ++ two_digits (t mod 60))%string.

(** The dictionary that [generate_ai_insights] hands to the analytics
    port. *)
Definition insights_request (m : FleetMetrics) (agvs_count pending : Z)
    (now : datetime) : pydict :=
  [("metrics", PyDict (FleetMetrics_dict m));
   ("agvs_count", PyAtom (PyNum (IZR agvs_count)));
   ("pending_tasks", PyAtom (PyNum (IZR pending)));
   ("timestamp", PyAtom (PyStr (isoformat now)))].

Record Assignment : Type := mkAssignment {
  asg_agv_id : string;
  asg_task_id : string;
  asg_route : Route;
  asg_estimated_time : R
}.

Inductive AssignmentMessage : Type :=
| NothingToAssign          (* "No hay AGVs disponibles o tareas pendientes" *)
| Assigned (n : nat).      (* "Se asignaron {n} tareas exitosamente" *)

Record AssignmentReport : Type := mkAssignmentReport {
  assignments : list Assignment;
  total_assigned : option nat;
  message : AssignmentMessage
}.

(** The loop over [recommendations.items()].  An exception leaves the loop
    with the entities as changed so far. *)
Fixpoint assign_loop (self : FleetOrchestrationService) (now : datetime)
    (items : list (string * string)) (acc : list Assignment)
    (repo : CSVDataAdapter) : result (list Assignment) * CSVDataAdapter :=
  match items with
  | [] => (Ok acc, repo)
  | (aid, tid) :: rest =>
      match get_agv_by_id repo aid, get_task_by_id repo tid with
      | Some agv, Some task =>
          if can_reach agv (destination task) then
            let task1 :=
              set_started_at (set_assigned_agv_id task (Some aid))
                             (Some now) in
            let agv1 :=
              set_status (set_current_task_id agv (Some tid)) MOVING in
            let repo1 := mutate_task (mutate_agv repo agv1) task1 in
            match route_optimizer self with
            | None => (Raise AttributeError, repo1)
            | Some optimizer =>
                match optimize_route optimizer agv1 task1 now with
                | Raise e => (Raise e, repo1)
                | Ok route =>
                    let repo2 :=
                      update_agv (update_task repo1 task1) agv1 now in
                    assign_loop self now rest
                      (acc ++ [mkAssignment aid tid route
                                            (estimated_time route)])
                      repo2
                end
            end
          else assign_loop self now rest acc repo
      | _, _ => assign_loop self now rest acc repo
      end
  end.

Definition assign_optimal_tasks (self : FleetOrchestrationService)
    (repo : CSVDataAdapter) (now : datetime)
  : result AssignmentReport * CSVDataAdapter :=
  let available_agvs := get_available_agvs repo in
  let pending := get_pending_tasks repo in
  match available_agvs, pending with
  | _ :: _, _ :: _ =>
      match ai_analytics self with
      | None => (Raise AttributeError, repo)
      | Some analytics =>
          match recommend_task_assignment analytics available_agvs pending
          with
          | Raise e => (Raise e, repo)
          | Ok ReplyNotDict => (Raise AttributeError, repo)
          | Ok (ReplyDict items) =>
              match assign_loop self now items [] repo with
              | (Ok asg, repo') =>
                  (Ok (mkAssignmentReport asg (Some (List.length asg))
                         (Assigned (List.length asg))),
                   repo')
              | (Raise e, repo') => (Raise e, repo')
              end
          end
      end
  | _, _ => (Ok (mkAssignmentReport [] None NothingToAssign), repo)
  end.

(** [AGVControlService.send_agv_to_position]; [persisted] is the boolean
    that [update_agv] returns. *)
Inductive ControlOutcome : Type :=
| AGVNotFound
| AGVNotAvailable
| AGVCannotReach
| AGVNotUpdated
| AGVSent (estimated_minutes : R).

Definition send_agv_to_position (repo : CSVDataAdapter) (id : string)
    (target : Position) (now : datetime) (persisted : bool)
  : ControlOutcome * CSVDataAdapter :=
  match get_agv_by_id repo id with
  | None => (AGVNotFound, repo)
  | Some agv =>
      if negb (is_available agv) then (AGVNotAvailable, repo)
      else if negb (can_reach agv target) then (AGVCannotReach, repo)
      else
        let agv1 := set_last_update (set_status agv MOVING) now in
        let repo1 := update_agv repo agv1 now in
        if persisted then
          (AGVSent (distance_to target (position agv1) / 1000 / 20 * 60),
           repo1)
        else (AGVNotUpdated, repo1)
  end.

(** [main.py], [startup_event]: the services are built from the adapters
    only when an API key is configured. *)
Definition startup_event (api_key : string)
    (router : OpenAIRouteOptimizer) (analytics : OpenAIAnalytics)
  : FleetOrchestrationService :=
  if negb (String.eqb api_key "") then
    mkFleetOrchestrationService (Some (OpenAIRouteOptimizer_port router))
                                (Some (OpenAIAnalytics_port analytics))
  else mkFleetOrchestrationService None None.

(** One round of [run_simulation]. *)
Definition simulation_round (now : datetime)
    (st : CSVDataAdapter * Random) : CSVDataAdapter * Random :=
  simulate_battery_changes now (simulate_agv_movement now st).

(** The rounds that [run_simulation] performs at the clock readings
    [nows]. *)
Definition run_simulation (nows : list datetime)
    (st : CSVDataAdapter * Random) : CSVDataAdapter * Random :=
  fold_left (fun s now => simulation_round now s) nows st.

(** What [send_agv_to_position] leaves untouched on an AGV, and what makes
    the movement tick pass it by. *)
Definition parked_at (p : Position) (b : R) (agv : AGV) : Prop :=
  status agv = MOVING /\ current_task_id agv = None
  /\ position agv = p /\ battery_level agv = b.

(** The AGV as the arrival branch of the movement tick leaves it, before
    [update_agv] stamps it. *)
Definition arrived (agv : AGV) (task : Task) : AGV :=
  set_current_task_id
    (set_status
       (set_position agv
          (Position_init (x (destination task)) (y (destination task))))
       IDLE)
    None.

(** ** Scenarios

    Concrete inputs on which the operations are run below. *)

(** A route optimizer that honours the signature of the port.  It stands
    for the environment of [FleetOrchestrationService]; it is not code of
    the repository. *)
Definition direct_route_optimizer : RouteOptimizerPort :=
  mkRouteOptimizerPort
    (fun agv task now =>
       let dist :=
         distance_to (position agv) (origin task)
         + distance_to (origin task) (destination task) in
       Ok (mkRoute "DIRECT" (agv_id agv) (task_id task)
             [position agv; origin task; destination task]
             dist (dist / 1000 / 20 * 60) (dist / 100 * 1) now)).

(** The analytics adapter in front of a remote model that answers the
    assignment request with the given JSON object. *)
Definition replying_analytics (items : list (string * string))
  : OpenAIAnalytics :=
  mkOpenAIAnalytics (fun _ _ => Ok (ReplyDict items))
                    (fun _ => Raise AdvisorError).

(** Adapters whose remote model cannot be reached. *)
Definition offline_router : OpenAIRouteOptimizer :=
  mkOpenAIRouteOptimizer (fun _ _ => Raise AdvisorError).

Definition offline_analytics : OpenAIAnalytics :=
  mkOpenAIAnalytics (fun _ _ => Raise AdvisorError)
                    (fun _ => Raise AdvisorError).

Definition depot : Position := Position_init 0 0.
Definition quay : Position := Position_init 100 0.

Definition agv_a : AGV :=
  mkAGV "AGV-A" "Alfa" depot 100 IDLE None 20 2000 0%nat.

Definition agv_b : AGV :=
  mkAGV "AGV-B" "Beta" depot 80 IDLE None 20 2000 0%nat.

Definition task_1 : Task :=
  mkTask "TSK-1" "Mover contenedor" depot quay MEDIUM None None 0%nat
         None None 5.3.

Definition yard : CSVDataAdapter :=
  mkCSVDataAdapter [agv_a; agv_b] [task_1].

(** A yard in which one AGV is two units short of its destination. *)
Definition agv_m : AGV :=
  mkAGV "AGV-M" "Mike" (Position_init 98 0) 60 MOVING (Some "TSK-2")
        20 2000 0%nat.

Definition task_2 : Task :=
  mkTask "TSK-2" "Llevar contenedor al muelle" depot quay HIGH None
         (Some "AGV-M") 0%nat (Some 1%nat) None 5.3.

Definition yard_under_way : CSVDataAdapter :=
  mkCSVDataAdapter [agv_a; agv_m] [task_1; task_2].

(** A random source that always delivers one half. *)
Definition steady_random : Random :=
  mkRandom (fun _ => 0.5) 0%nat.

(** The pairs of an assignment report. *)
Definition assigned_pairs (report : AssignmentReport)
  : list (string * string) :=
  map (fun a => (asg_agv_id a, asg_task_id a)) (assignments report).

(** * Further operations of the cited files *)

(** ** domain/entities.py: [Task] *)

(** The [__init__] that [@dataclass] generates for [Task] followed by
    [__post_init__]: a missing creation time is the clock reading, and an
    estimated duration of 0.0 (the default) is replaced by the travel time
    at 20 km/h plus five minutes of handling. *)
Definition Task_init (a_task_id a_description : string)
    (a_origin a_destination : Position) (a_priority : TaskPriority)
    (a_container_id a_assigned_agv_id : option string)
    (a_created_at a_started_at a_completed_at : option datetime)
    (a_estimated_duration : R) (now : datetime) : Task :=
  mkTask a_task_id a_description a_origin a_destination a_priority
         a_container_id a_assigned_agv_id
         (match a_created_at with Some c => c | None => now end)
         a_started_at a_completed_at
         (if Req_dec_T a_estimated_duration 0 then
            let distance := distance_to a_origin a_destination in
            let travel_time := (distance / 1000) / 20 * 60 in
            travel_time + 5
          else a_estimated_duration).

(** [get_progress_percentage] at the clock reading [now]; [None] stands
    for the [ZeroDivisionError] of a division by an estimated duration of
    zero.  Time stamps count seconds. *)
Definition get_progress_percentage (self : Task) (now : datetime)
  : option R :=
  if negb (is_in_progress self) then
    Some (if negb (is_completed self) then 0 else 100)
  else
    match started_at self with
    | Some started =>
        let elapsed := (INR now - INR started) / 60 in
        if Req_dec_T (estimated_duration self) 0 then None
        else Some (Rmin 100 (elapsed / estimated_duration self * 100))
    | None => Some 0
    end.

(** ** domain/entities.py: [Route] *)

(** The loop of [_recalculate_metrics]: the distances between consecutive
    waypoints, summed from the first pair on. *)
Definition segments_length (wps : list Position) : R :=
  fold_left (fun total_dist pq => total_dist + distance_to (fst pq) (snd pq))
            (combine wps (tl wps)) 0.

Definition _recalculate_metrics (self : Route) : Route :=
  if (List.length (waypoints self) <? 2)%nat then self
  else
    let total_dist := segments_length (waypoints self) in
    mkRoute (route_id self) (route_agv_id self) (route_task_id self)
            (waypoints self)
            total_dist
            ((total_dist / 1000) / 20 * 60)
            ((total_dist / 100) * 1)
            (route_created_at self).

Definition add_waypoint (self : Route) (p : Position) : Route :=
  _recalculate_metrics
    (mkRoute (route_id self) (route_agv_id self) (route_task_id self)
             (waypoints self ++ [p])
             (total_distance self) (estimated_time self)
             (fuel_consumption self) (route_created_at self)).

(** ** adapters/data_adapter.py: the other repository operations

    [saved] tells whether the CSV file could be written; when it could not,
    the handler returns [False] after the dictionary was changed. *)

Definition create_agv (self : CSVDataAdapter) (agv : AGV) (saved : bool)
  : bool * CSVDataAdapter :=
  match get_agv_by_id self (agv_id agv) with
  | None =>
      (saved, mkCSVDataAdapter (store_agv (_agvs self) agv) (_tasks self))
  | Some _ => (false, self)
  end.

Definition create_task (self : CSVDataAdapter) (task : Task) (saved : bool)
  : bool * CSVDataAdapter :=
  match get_task_by_id self (task_id task) with
  | None =>
      (saved, mkCSVDataAdapter (_agvs self) (store_task (_tasks self) task))
  | Some _ => (false, self)
  end.

(** [del self._tasks[task_id]] *)
Fixpoint drop_task (d : list Task) (id : string) : list Task :=
  match d with
  | [] => []
  | t :: d' =>
      if String.eqb (task_id t) id then d' else t :: drop_task d' id
  end.

Definition delete_task (self : CSVDataAdapter) (id : string) (saved : bool)
  : bool * CSVDataAdapter :=
  match get_task_by_id self id with
  | Some _ =>
      (saved, mkCSVDataAdapter (_agvs self) (drop_task (_tasks self) id))
  | None => (false, self)
  end.

Definition get_tasks_by_agv (self : CSVDataAdapter) (id : string)
  : list Task :=
  filter (fun task =>
            match assigned_agv_id task with
            | Some a => String.eqb a id
            | None => false
            end)
         (_tasks self).

(** Two repositories hold the same keys in the same order. *)
Definition same_keys (before after : CSVDataAdapter) : Prop :=
  map agv_id (_agvs after) = map agv_id (_agvs before)
  /\ map task_id (_tasks after) = map task_id (_tasks before).

(** The two dictionaries have distinct keys. *)
Definition keys_distinct (repo : CSVDataAdapter) : Prop :=
  NoDup (map agv_id (_agvs repo)) /\ NoDup (map task_id (_tasks repo)).

(** ** domain/services.py: the other operations *)

Record FleetOverview : Type := mkFleetOverview {
  fleet_metrics : FleetMetrics;
  overview_agvs : list AGV;
  overview_pending_tasks : list Task;
  total_tasks : Z
}.

(** [len([e for e in l if f(e)])] *)
Definition count_if {A : Type} (f : A -> bool) (l : list A) : Z :=
  Z.of_nat (List.length (filter f l)).

(** [sum(agv.battery_level for agv in agvs)] *)
Definition battery_sum (agvs : list AGV) : R :=
  fold_left (fun total agv => total + battery_level agv) agvs 0.

Definition get_fleet_overview (repo : CSVDataAdapter) (now : datetime)
  : FleetOverview :=
  let agvs := get_all_agvs repo in
  let tasks := get_all_tasks repo in
  let pending := get_pending_tasks repo in
  let total := Z.of_nat (List.length agvs) in
  let active :=
    count_if (fun agv => AGVStatus_eqb (status agv) MOVING
                         || AGVStatus_eqb (status agv) TRANSPORTING) agvs in
  let idle := count_if (fun agv => AGVStatus_eqb (status agv) IDLE) agvs in
  let charging :=
    count_if (fun agv => AGVStatus_eqb (status agv) CHARGING) agvs in
  let avg_battery :=
    match agvs with
    | [] => 0
    | _ :: _ => battery_sum agvs / IZR total
    end in
  let completed := count_if is_completed tasks in
  let metrics0 :=
    mkFleetMetrics total active idle charging
                   (Z.of_nat (List.length pending)) completed
                   avg_battery 0 now in
  let metrics :=
    mkFleetMetrics total active idle charging
                   (Z.of_nat (List.length pending)) completed
                   avg_battery (calculate_efficiency metrics0) now in
  mkFleetOverview metrics agvs pending (Z.of_nat (List.length tasks)).

Definition generate_ai_insights (self : FleetOrchestrationService)
    (repo : CSVDataAdapter) (now : datetime) : result (list Insight) :=
  let fleet_data := get_fleet_overview repo now in
  match ai_analytics self with
  | None => Raise AttributeError
  | Some analytics =>
      generate_fleet_insights analytics
        (insights_request
           (fleet_metrics fleet_data)
           (Z.of_nat (List.length (overview_agvs fleet_data)))
           (Z.of_nat (List.length (overview_pending_tasks fleet_data)))
           now)
  end.

(** [create_emergency_task]; [stamp] is the clock reading as
    [strftime('%Y%m%d_%H%M%S')] renders it, [saved] the outcome of writing
    the task file. *)
Inductive EmergencyOutcome : Type :=
| EmergencyCreated (task : Task) (assignment_result : AssignmentReport)
| EmergencyNotCreated.

Definition create_emergency_task (self : FleetOrchestrationService)
    (repo : CSVDataAdapter) (a_description : string)
    (a_origin a_destination : Position) (a_container_id : option string)
    (now : datetime) (stamp : datetime -> string) (saved : bool)
  : result EmergencyOutcome * CSVDataAdapter :=
  let task :=
    Task_init ("URGENT_" ++ stamp now)%string
              ("🚨 URGENTE: " ++ a_description)%string
              a_origin a_destination URGENT a_container_id None
              None None None 0 now in
  match create_task repo task saved with
  | (true, repo1) =>
      match assign_optimal_tasks self repo1 now with
      | (Ok assignment_result, repo2) =>
          (* the task handed back is the stored object, as the assignment
             left it *)
          (Ok (EmergencyCreated
                 (match get_task_by_id repo2 (task_id task) with
                  | Some stored => stored
                  | None => task
                  end)
                 assignment_result),
           repo2)
      | (Raise e, repo2) => (Raise e, repo2)
      end
  | (false, repo1) => (Ok EmergencyNotCreated, repo1)
  end.

(** [AGVControlService.emergency_stop_agv]; [persisted] is the boolean
    that [update_agv] returns. *)
Inductive StopOutcome : Type :=
| StopNotFound
| StopNotUpdated
| Stopped.

Definition emergency_stop_agv (repo : CSVDataAdapter) (id : string)
    (now : datetime) (persisted : bool) : StopOutcome * CSVDataAdapter :=
  match get_agv_by_id repo id with
  | None => (StopNotFound, repo)
  | Some agv =>
      let agv1 :=
        set_last_update (set_current_task_id (set_status agv IDLE) None)
                        now in
      let repo1 := update_agv repo agv1 now in
      if persisted then (Stopped, repo1) else (StopNotUpdated, repo1)
  end.

(** ** A finished transport, as the simulator leaves it *)

(** The AGV stored under [id] stands at [dst] without current task and the
    task [tid] is stamped as completed. *)
Definition delivered (id tid : string) (dst : Position)
    (repo : CSVDataAdapter) : Prop :=
  exists a t,
    get_agv_by_id repo id = Some a
    /\ current_task_id a = None
    /\ position a = Position_init (x dst) (y dst)
    /\ get_task_by_id repo tid = Some t
    /\ completed_at t <> None.

(** An AGV that is not out of service. *)
Definition not_in_maintenance (e : AGV) : Prop := status e <> MAINTENANCE.

(** No AGV of the repository has [tid] as its current task. *)
Definition not_carrying (tid : string) (e : AGV) : Prop :=
  current_task_id e <> Some tid.

(** The test that the assignment loop applies to a recommended pair: both
    entities are known and the AGV can reach the destination of the
    task. *)
Definition feasible (repo : CSVDataAdapter) (pair : string * string)
  : bool :=
  match get_agv_by_id repo (fst pair), get_task_by_id repo (snd pair) with
  | Some agv, Some task => can_reach agv (destination task)
  | _, _ => false
  end.

(** The state of the fallback loop is sound: the assignments form a
    dictionary, no task id occurs twice in it, the tasks still available
    have distinct ids, and none of them has been handed out. *)
Definition fallback_state_ok (st : list (string * string) * list Task)
  : Prop :=
  NoDup (map fst (fst st))
  /\ NoDup (map snd (fst st))
  /\ NoDup (map task_id (snd st))
  /\ forall v, In v (map snd (fst st)) -> ~ In v (map task_id (snd st)).

(** [json.dumps] raises [TypeError] on a [datetime]; numbers, strings,
    [None] and dictionaries of them are rendered. *)
Definition json_serializable_atom (a : pyatom) : bool :=
  match a with
  | PyTime _ => false
  | _ => true
  end.

Definition json_serializable (d : pydict) : bool :=
  forallb (fun kv =>
             match snd kv with
             | PyAtom a => json_serializable_atom a
             | PyDict m =>
                 forallb (fun kv' => json_serializable_atom (snd kv')) m
             end)
          d.

(** The [try] block of [generate_fleet_insights] renders [fleet_data] with
    [json.dumps] for the prompt before it turns to the remote model, so it
    raises on data that cannot be rendered. *)
Definition builds_prompt_first (self : OpenAIAnalytics) : Prop :=
  forall d : pydict,
    json_serializable d = false ->
    exists e, insights_completion self d = Raise e.

(** An analytics adapter whose remote model always answers the insight
    request with an empty list. *)
Definition talkative_analytics : OpenAIAnalytics :=
  mkOpenAIAnalytics
    (fun _ _ => Raise AdvisorError)
    (fun d => if json_serializable d then Ok [] else Raise TypeError).

(** ** adapters/openai_adapter.py: routes for the fleet, maintenance *)

(** [next((t for t in tasks if t.assigned_agv_id == agv_id), None)] *)
Definition task_assigned_to (tasks : list Task) (id : string)
  : option Task :=
  find (fun t => match assigned_agv_id t with
                 | Some a => String.eqb a id
                 | None => false
                 end)
       tasks.

(** [next((a for a in agvs if a.agv_id == agv_id), None)] *)
Definition agv_named (agvs : list AGV) (id : string) : option AGV :=
  find (fun a => String.eqb (agv_id a) id) agvs.

(** The loop of the [try] block of [optimize_fleet_routes] over the items
    of the parsed answer: waypoints, estimated_time and total_distance per
    AGV id. *)
Fixpoint fleet_routes_attempt
    (routes_data : list (string * (list Position * R * R)))
    (agvs : list AGV) (tasks : list Task) (now : datetime)
    (optimized_routes : list (string * Route))
  : result (list (string * Route)) :=
  match routes_data with
  | [] => Ok optimized_routes
  | (id, (wps, time, dist)) :: rest =>
      match agv_named agvs id, task_assigned_to tasks id with
      | Some agv, Some task =>
          match
            Route_init
              (Some ("FLEET_ROUTE_" ++ id ++ "_" ++ strftime_HMS now)%string)
              (Some id)
              (Some (task_id task))
              (Some (map (fun wp => Position_init (x wp) (y wp)) wps))
              (Some dist)
              (Some time)
              None             (* fuel_consumption is not passed *)
              (Some now)
              now
          with
          | Ok route =>
              fleet_routes_attempt rest agvs tasks now
                                   (dict_set optimized_routes id route)
          | Raise e => Raise e
          end
      | _, _ => fleet_routes_attempt rest agvs tasks now optimized_routes
      end
  end.

(** The loop of the [except] branch. *)
Fixpoint fleet_routes_fallback (agvs : list AGV) (tasks : list Task)
    (now : datetime) (routes : list (string * Route))
  : result (list (string * Route)) :=
  match agvs with
  | [] => Ok routes
  | agv :: rest =>
      match task_assigned_to tasks (agv_id agv) with
      | Some task =>
          match _create_fallback_route agv task now with
          | Ok route =>
              fleet_routes_fallback rest tasks now
                                    (dict_set routes (agv_id agv) route)
          | Raise e => Raise e
          end
      | None => fleet_routes_fallback rest tasks now routes
      end
  end.

(** [optimize_fleet_routes]; [fleet_completion] is what the [try] block
    yields up to and including [json.loads]. *)
Definition OpenAIRouteOptimizer_optimize_fleet_routes
    (fleet_completion : result (list (string * (list Position * R * R))))
    (agvs : list AGV) (tasks : list Task) (now : datetime)
  : result (list (string * Route)) :=
  let attempt :=
    match fleet_completion with
    | Ok routes_data => fleet_routes_attempt routes_data agvs tasks now []
    | Raise e => Raise e
    end in
  match attempt with
  | Ok optimized_routes => Ok optimized_routes
  | Raise _ => fleet_routes_fallback agvs tasks now []
  end.

Record MaintenancePrediction : Type := mkMaintenancePrediction {
  needs_maintenance : bool;
  urgency : string;
  predicted_issue : string;
  recommended_action : string;
  estimated_cost : R;
  downtime_hours : R
}.

(** One pass of the loop in the [except] branch of
    [predict_maintenance_needs]; the entries of the dictionary display are
    evaluated in order, the cost before the downtime. *)
Definition maintenance_fallback_step
    (st : list (string * MaintenancePrediction) * Random) (agv : AGV)
  : list (string * MaintenancePrediction) * Random :=
  let '(predictions, g) := st in
  let needs :=
    Rltb (battery_level agv) 50 || AGVStatus_eqb (status agv) CHARGING in
  let '(cost, g1) := if needs then uniform 100 500 g else (0, g) in
  let '(downtime, g2) := if needs then uniform 1 4 g1 else (0, g1) in
  (dict_set predictions (agv_id agv)
     (mkMaintenancePrediction
        needs
        (if Rltb (battery_level agv) 20 then "HIGH" else "LOW")
        (if Rltb (battery_level agv) 50 then "Batería baja"
         else "Funcionamiento normal")
        (if needs then "Revisar sistema de carga"
         else "Continuar operación")
        cost downtime),
   g2).

Definition maintenance_fallback (agvs : list AGV) (g : Random)
  : list (string * MaintenancePrediction) * Random :=
  fold_left maintenance_fallback_step agvs ([], g).

(** ** domain/entities.py on binary64 values

    Python floats are IEEE 754 binary64 numbers.  The rest of this
    development reads the arithmetic of the program over the real numbers;
    here [distance_to] and [can_reach] are given on the kernel's binary64
    floats, every operation rounded to nearest, so that the comparison in
    [can_reach] can be studied as the program performs it.  In
    [distance_to], [** 2] is rendered as a product and [** 0.5] as the
    square root; what is proved of [can_reach] is proved for every value
    of the distance. *)

Section Binary64.

Import PrimFloat SpecFloat FloatOps.
Local Open Scope float_scope.

Record Position64 : Type := mkPosition64 {
  x64 : float;
  y64 : float
}.

Definition distance_to_binary64 (self other : Position64) : float :=
  sqrt ((x64 self - x64 other) * (x64 self - x64 other)
        + (y64 self - y64 other) * (y64 self - y64 other)).

(** The right-hand side of the comparison in [can_reach]:
    [battery_needed + 10] with [battery_needed = (distance / 100) * 1]. *)
Definition reach_threshold_binary64 (distance : float) : float :=
  let battery_needed := distance / 100 * 1 in
  battery_needed + 10.

(** The comparison [self.battery_level >= battery_needed + 10], for the
    distance that [distance_to] returned. *)
Definition can_reach_at_distance (battery_level distance : float) : bool :=
  reach_threshold_binary64 distance <=? battery_level.

Definition can_reach_binary64 (battery_level : float)
    (position destination : Position64) : bool :=
  let distance := distance_to_binary64 position destination in
  can_reach_at_distance battery_level distance.





Definition battery_11_12 : float := 0x1.63d70a3d70a3dp+3.
Definition at_origin : Position64 := mkPosition64 0 0.
Definition east_112 : Position64 := mkPosition64 112 0.

End Binary64.

(** * Properties *)

(** ** Basic facts about the helpers *)

Lemma Rltb_true_iff (a b : R) : Rltb a b = true <-> a < b.
Proof.
  unfold Rltb. destruct (Rlt_dec a b); split; intros; try easy.
Qed.

Lemma Rltb_false_iff (a b : R) : Rltb a b = false <-> b <= a.
Proof.
  unfold Rltb. destruct (Rlt_dec a b); split; intros; try easy; lra.
Qed.

Lemma Rgtb_true_iff (a b : R) : Rgtb a b = true <-> a > b.
Proof.
  unfold Rgtb. destruct (Rgt_dec a b); split; intros; try easy.
Qed.

Lemma Rgtb_false_iff (a b : R) : Rgtb a b = false <-> a <= b.
Proof.
  unfold Rgtb. destruct (Rgt_dec a b); split; intros; try easy; lra.
Qed.

Lemma Rgeb_true_iff (a b : R) : Rgeb a b = true <-> a >= b.
Proof.
  unfold Rgeb. destruct (Rge_dec a b); split; intros; try easy.
Qed.

Lemma Rgeb_false_iff (a b : R) : Rgeb a b = false <-> a < b.
Proof.
  unfold Rgeb. destruct (Rge_dec a b); split; intros; try easy; lra.
Qed.

Lemma distance_to_nonneg (p q : Position) : 0 <= distance_to p q.
Proof. unfold distance_to. apply sqrt_pos. Qed.

Lemma distance_to_self (p : Position) : distance_to p p = 0.
Proof.
  unfold distance_to.
  replace ((x p - x p) ^ 2 + (y p - y p) ^ 2) with 0 by ring.
  apply sqrt_0.
Qed.

(** Distance between two points on a horizontal line. *)
Lemma distance_to_horizontal (a b c : R) (z1 z2 : string) :
  a <= b -> distance_to (mkPosition a c z1) (mkPosition b c z2) = b - a.
Proof.
  intros Hab. unfold distance_to. cbn [x y].
  replace ((a - b) ^ 2 + (c - c) ^ 2) with ((b - a) * (b - a)) by ring.
  apply sqrt_square. lra.
Qed.

Lemma can_reach_spec (a : AGV) (d : Position) :
  can_reach a d = true <->
  battery_level a >= distance_to (position a) d / 100 + 10.
Proof.
  unfold can_reach. rewrite Rgeb_true_iff.
  replace (distance_to (position a) d / 100 * 1 + 10)
    with (distance_to (position a) d / 100 + 10) by field.
  tauto.
Qed.

(** ** Fleet efficiency *)

(** The value is a percentage: it leaves the interval [0, 100] as soon as
    more vehicles are counted active than exist. *)
Lemma calculate_efficiency_needs_ratio :
  calculate_efficiency (mkFleetMetrics 1 2 0 0 0 0 0 0 0%nat) = 140.
Proof.
  unfold calculate_efficiency. cbn [total_agvs active_agvs average_battery].
  change (1 =? 0)%Z with false. cbv iota. lra.
Qed.

(** C1, as stated, fails: with one vehicle, active, and an average battery
    of 100 the computed efficiency is 100, which is neither
    [0.7 * (1/1) + 0.3 * (100/100)] nor a member of [0, 1]. *)
Lemma calculate_efficiency_not_a_fraction :
  ~ (forall m : FleetMetrics,
       (0 <= total_agvs m)%Z -> (0 <= active_agvs m)%Z ->
       (0 <= idle_agvs m)%Z -> (0 <= charging_agvs m)%Z ->
       (0 <= pending_tasks m)%Z -> (0 <= completed_tasks m)%Z ->
       0 <= average_battery m ->
       (total_agvs m = 0%Z -> calculate_efficiency m = 0)
       /\ (total_agvs m <> 0%Z ->
           calculate_efficiency m =
           0.7 * (IZR (active_agvs m) / IZR (total_agvs m))
           + 0.3 * (average_battery m / 100))
       /\ 0 <= calculate_efficiency m <= 1).
Proof.
  intros claim.
  specialize (claim (mkFleetMetrics 1 1 0 0 0 0 100 0 0%nat)).
  cbn [total_agvs active_agvs idle_agvs charging_agvs pending_tasks
       completed_tasks average_battery] in claim.
  destruct claim as (_ & _ & _ & Hle); try lia; try lra.
  unfold calculate_efficiency in Hle.
  cbn [total_agvs active_agvs average_battery] in Hle.
  change (1 =? 0)%Z with false in Hle. cbv iota in Hle. lra.
Qed.

(** C1: what [calculate_efficiency] computes.  The efficiency is 0 for an
    empty fleet and otherwise one hundred times the weighted blend of the
    active ratio and the battery ratio, a percentage where the blend itself
    is expected; it lies in [0, 100] when the active count does not exceed
    the total and the average battery does not exceed 100. *)
Theorem calculate_efficiency_percentage (m : FleetMetrics) :
  (total_agvs m = 0%Z -> calculate_efficiency m = 0)
  /\ (total_agvs m <> 0%Z ->
      calculate_efficiency m =
      (0.7 * (IZR (active_agvs m) / IZR (total_agvs m))
       + 0.3 * (average_battery m / 100)) * 100)
  /\ ((0 <= active_agvs m <= total_agvs m)%Z ->
      0 <= average_battery m <= 100 ->
      0 <= calculate_efficiency m <= 100).
Proof.
  unfold calculate_efficiency.
  destruct (Z.eqb_spec (total_agvs m) 0) as [E | NE].
  - repeat split; try lra. intros NE. contradiction.
  - split; [intros E; contradiction |]. split; [intros _; lra |].
    intros [Hact Htot] Hbat.
    assert (Hpos : 0 < IZR (total_agvs m)) by (apply IZR_lt; lia).
    assert (Ha0 : 0 <= IZR (active_agvs m)) by (apply IZR_le; lia).
    assert (Ha1 : IZR (active_agvs m) <= IZR (total_agvs m))
      by (apply IZR_le; lia).
    assert (Hr0 : 0 <= IZR (active_agvs m) / IZR (total_agvs m)).
    { apply Rmult_le_pos; [lra |].
      apply Rlt_le, Rinv_0_lt_compat, Hpos. }
    assert (Hr1 : IZR (active_agvs m) / IZR (total_agvs m) <= 1).
    { apply (Rmult_le_reg_r (IZR (total_agvs m))); [exact Hpos |].
      unfold Rdiv. rewrite Rmult_assoc, Rinv_l by lra. lra. }
    lra.
Qed.

Lemma calculate_efficiency_percentage_witness :
  let m := mkFleetMetrics 4 2 1 1 3 5 50 0 0%nat in
  (total_agvs m <> 0%Z
   /\ (0 <= active_agvs m <= total_agvs m)%Z
   /\ 0 <= average_battery m <= 100)
  /\ calculate_efficiency m = (0.7 * (IZR 2 / IZR 4) + 0.3 * (50 / 100)) * 100
  /\ 0 <= calculate_efficiency m <= 100.
Proof.
  intros m.
  assert (Ht : total_agvs m <> 0%Z) by discriminate.
  assert (Hc : (0 <= active_agvs m <= total_agvs m)%Z) by (cbn; lia).
  assert (Hb : 0 <= average_battery m <= 100) by (cbn; lra).
  split; [repeat split; try assumption; apply Hc || apply Hb |].
  destruct (calculate_efficiency_percentage m) as (_ & Heq & Hin).
  split; [apply Heq; exact Ht | apply Hin; assumption].
Defined.

(** ** Reachability *)

(** *** The comparison on binary64 values *)









(** At the boundary the program can also say no where the decimal figures
    say yes: with the battery that the literal 11.12 denotes and a
    destination 112 units away, 112/100*1 + 10 is rounded to the next
    binary64 number above that battery. *)
Lemma can_reach_binary64_boundary_refusal :
  can_reach_binary64 battery_11_12 at_origin east_112 = false.
Proof. vm_compute. reflexivity. Qed.




(** ** Routes *)

(** What [_create_fallback_route] hands to the constructor is the route the
    documentation describes: had [fuel_consumption] been passed, the result
    would be the three-point route. *)
Lemma fallback_route_arguments (agv : AGV) (task : Task) (now : datetime)
    (fuel : R) :
  exists route,
    Route_init
      (Some ("FALLBACK_" ++ agv_id agv ++ "_" ++ task_id task ++ "_"
             ++ strftime_HMS now)%string)
      (Some (agv_id agv)) (Some (task_id task))
      (Some [position agv; origin task; destination task])
      (Some (distance_to (position agv) (origin task)
             + distance_to (origin task) (destination task)))
      (Some ((distance_to (position agv) (origin task)
              + distance_to (origin task) (destination task))
             / 1000 / 20 * 60))
      (Some fuel) (Some now) now = Ok route
    /\ waypoints route = [position agv; origin task; destination task]
    /\ total_distance route =
       distance_to (position agv) (origin task)
       + distance_to (origin task) (destination task)
    /\ estimated_time route = total_distance route / 1000 / 20 * 60.
Proof.
  eexists. split; [reflexivity |]. cbn [waypoints total_distance
                                         estimated_time].
  repeat split.
Qed.

(** The same omission sits in the [try] block of [optimize_route]; the
    handler then calls the fallback, so the adapter never yields a route. *)
Lemma optimize_route_raises (self : OpenAIRouteOptimizer) (agv : AGV)
    (task : Task) (now : datetime) :
  OpenAIRouteOptimizer_optimize_route self agv task now = Raise TypeError.
Proof.
  unfold OpenAIRouteOptimizer_optimize_route.
  destruct (route_completion self agv task) as [[[wps time] dist] | e];
    reflexivity.
Qed.

(** C4: the route fallback does not return a route.  The constructor of
    [Route] is called without [fuel_consumption], a field without default,
    so the call raises [TypeError] for every AGV and task, and with it
    every call of [optimize_route], whatever the remote model answers. *)
Theorem create_fallback_route_raises (agv : AGV) (task : Task)
    (now : datetime) :
  _create_fallback_route agv task now = Raise TypeError
  /\ forall self : OpenAIRouteOptimizer,
       optimize_route (OpenAIRouteOptimizer_port self) agv task now
       = Raise TypeError.
Proof.
  split; [reflexivity |].
  intros self. cbn [OpenAIRouteOptimizer_port optimize_route].
  apply optimize_route_raises.
Qed.

(** ** Task assignment *)

Lemma is_available_true (a : AGV) :
  status a = IDLE -> battery_level a > 20 -> current_task_id a = None ->
  is_available a = true.
Proof.
  intros Hs Hb Hc. unfold is_available. rewrite Hs, Hc.
  rewrite (proj2 (Rgtb_true_iff _ _) Hb). reflexivity.
Qed.

Lemma agv_a_available : is_available agv_a = true.
Proof. apply is_available_true; try reflexivity. cbn. lra. Qed.

Lemma agv_b_available : is_available agv_b = true.
Proof. apply is_available_true; try reflexivity. cbn. lra. Qed.

Lemma depot_to_quay : distance_to depot quay = 100.
Proof.
  unfold depot, quay, Position_init.
  rewrite distance_to_horizontal by lra. lra.
Qed.

Lemma yard_available : get_available_agvs yard = [agv_a; agv_b].
Proof.
  unfold get_available_agvs, yard. cbn [_agvs filter].
  rewrite agv_a_available, agv_b_available. reflexivity.
Qed.

Lemma yard_pending : get_pending_tasks yard = [task_1].
Proof. reflexivity. Qed.

(** C2: with no API key [startup_event] wires [None] in place of the
    analytics port, and [assign_optimal_tasks] calls a method on it: as
    soon as there is an available AGV and a pending task the operation
    raises [AttributeError] instead of falling back. *)
Theorem assign_optimal_tasks_without_advisor_raises
    (router : OpenAIRouteOptimizer) (analytics : OpenAIAnalytics)
    (repo : CSVDataAdapter) (now : datetime) :
  get_available_agvs repo <> [] ->
  get_pending_tasks repo <> [] ->
  assign_optimal_tasks (startup_event "" router analytics) repo now
  = (Raise AttributeError, repo).
Proof.
  intros Ha Hp. unfold assign_optimal_tasks.
  destruct (get_available_agvs repo) as [| a la]; [contradiction |].
  destruct (get_pending_tasks repo) as [| t lt]; [contradiction |].
  reflexivity.
Qed.

Lemma assign_optimal_tasks_without_advisor_raises_witness :
  (get_available_agvs yard <> [] /\ get_pending_tasks yard <> [])
  /\ assign_optimal_tasks
       (startup_event "" offline_router offline_analytics) yard 0%nat
     = (Raise AttributeError, yard).
Proof.
  assert (Ha : get_available_agvs yard <> [])
    by (rewrite yard_available; discriminate).
  assert (Hp : get_pending_tasks yard <> [])
    by (rewrite yard_pending; discriminate).
  split; [split; assumption |].
  exact (assign_optimal_tasks_without_advisor_raises
           offline_router offline_analytics yard 0%nat Ha Hp).
Defined.

Lemma list_remove_head (t : Task) (l : list Task) :
  list_remove t (t :: l) = l.
Proof.
  cbn [list_remove]. destruct (Task_eq_dec t t); [reflexivity | congruence].
Qed.

Lemma can_reach_true (a : AGV) (d : Position) :
  battery_level a >= distance_to (position a) d / 100 + 10 ->
  can_reach a d = true.
Proof. apply can_reach_spec. Qed.

Lemma yard_fallback_assignment :
  fallback_assignment [agv_a; agv_b] [task_1] = [("AGV-A", "TSK-1")].
Proof.
  unfold fallback_assignment. cbn [fallback_assignment_loop].
  replace (Rgtb (battery_level agv_a) 30) with true
    by (symmetry; apply Rgtb_true_iff; cbn; lra).
  cbn [min_by]. rewrite list_remove_head. reflexivity.
Qed.

(** The second way in which the fallback of C2 is lost: with an API key
    configured and the remote model unreachable, the recommendation does
    fall back to the greedy heuristic, but the first committed pair asks
    the route adapter for a route and that call raises (see
    [optimize_route_raises]). *)
Lemma assign_optimal_tasks_offline_advisor_raises :
  fst (assign_optimal_tasks
         (startup_event "sk-test" offline_router offline_analytics)
         yard 0%nat)
  = Raise TypeError.
Proof.
  unfold assign_optimal_tasks.
  rewrite yard_available, yard_pending.
  cbn [startup_event String.eqb negb ai_analytics route_optimizer
       OpenAIAnalytics_port recommend_task_assignment
       OpenAIAnalytics_recommend_task_assignment offline_analytics
       assignment_completion].
  change (negb ("sk-test" =? "")%string) with true. cbv iota.
  cbn [ai_analytics OpenAIAnalytics_port recommend_task_assignment
       OpenAIAnalytics_recommend_task_assignment offline_analytics
       assignment_completion].
  rewrite yard_fallback_assignment.
  cbn [assign_loop].
  change (get_agv_by_id yard "AGV-A") with (Some agv_a).
  change (get_task_by_id yard "TSK-1") with (Some task_1).
  cbv iota.
  rewrite can_reach_true
    by (change (position agv_a) with depot;
        change (destination task_1) with quay;
        rewrite depot_to_quay; cbn; lra).
  cbn [route_optimizer OpenAIRouteOptimizer_port optimize_route].
  rewrite optimize_route_raises. reflexivity.
Qed.

(** C3: a recommendation that names one task for two AGVs is committed as
    it stands.  Both pairs pass the check of [assign_optimal_tasks] (the
    ids resolve and the AGV can reach the destination), so the report
    lists the task twice, both AGVs carry it as their current task, and the
    task ends up owned by the second AGV. *)
Theorem assign_optimal_tasks_assigns_task_twice :
  exists report repo',
    assign_optimal_tasks
      (mkFleetOrchestrationService
         (Some direct_route_optimizer)
         (Some (OpenAIAnalytics_port
                  (replying_analytics
                     [("AGV-A", "TSK-1"); ("AGV-B", "TSK-1")]))))
      yard 0%nat
    = (Ok report, repo')
    /\ assigned_pairs report = [("AGV-A", "TSK-1"); ("AGV-B", "TSK-1")]
    /\ option_map current_task_id (get_agv_by_id repo' "AGV-A")
       = Some (Some "TSK-1")
    /\ option_map current_task_id (get_agv_by_id repo' "AGV-B")
       = Some (Some "TSK-1")
    /\ option_map assigned_agv_id (get_task_by_id repo' "TSK-1")
       = Some (Some "AGV-B").
Proof.
  unfold assign_optimal_tasks.
  rewrite yard_available, yard_pending.
  cbn [ai_analytics OpenAIAnalytics_port recommend_task_assignment
       OpenAIAnalytics_recommend_task_assignment replying_analytics
       assignment_completion assign_loop].
  change (get_agv_by_id yard "AGV-A") with (Some agv_a).
  change (get_task_by_id yard "TSK-1") with (Some task_1).
  cbv iota.
  rewrite can_reach_true
    by (change (position agv_a) with depot;
        change (destination task_1) with quay;
        rewrite depot_to_quay; cbn; lra).
  cbn [route_optimizer direct_route_optimizer optimize_route].
  match goal with
  | |- context [get_agv_by_id ?r "AGV-B"] =>
      change (get_agv_by_id r "AGV-B") with (Some agv_b)
  end.
  match goal with
  | |- context [get_task_by_id ?r "TSK-1"] =>
      change (get_task_by_id r "TSK-1")
        with (Some (set_started_at
                      (set_assigned_agv_id task_1 (Some "AGV-A"))
                      (Some 0%nat)))
  end.
  cbv iota.
  rewrite can_reach_true
    by (change (position agv_b) with depot;
        change (destination _) with quay;
        rewrite depot_to_quay; cbn; lra).
  do 2 eexists. split; [reflexivity |].
  repeat split; reflexivity.
Qed.

(** ** Insight fallback *)

Lemma insights_fallback_numeric (fleet_data : pydict)
    (metrics : list (string * pyatom)) (efficiency battery : R) :
  dict_get fleet_data "metrics" = Some (PyDict metrics) ->
  dict_get metrics "fleet_efficiency" = Some (PyNum efficiency) ->
  dict_get metrics "average_battery" = Some (PyNum battery) ->
  insights_fallback fleet_data
  = Ok ((if Rltb efficiency 0.7
         then [efficiency_insight (PyNum efficiency)] else [])
        ++ (if Rltb battery 50
            then [battery_insight (PyNum battery)] else [])).
Proof.
  intros Hm He Hb. unfold insights_fallback. rewrite Hm.
  destruct metrics as [| kv metrics']; [discriminate He |].
  cbn [py_truthy]. unfold dict_get_default. rewrite He, Hb.
  reflexivity.
Qed.

(** C9: on metrics that carry the two numbers the insight fallback yields
    the EFFICIENCY insight (impact MEDIUM, priority 2) exactly when the
    fleet efficiency is below 0.7, the ALERT insight (impact HIGH,
    priority 1) exactly when the average battery is below 50, and nothing
    else; with efficiency 0.5 and average battery 40 it yields exactly
    these two. *)
Theorem insights_fallback_thresholds (fleet_data : pydict)
    (metrics : list (string * pyatom)) (efficiency battery : R) :
  dict_get fleet_data "metrics" = Some (PyDict metrics) ->
  dict_get metrics "fleet_efficiency" = Some (PyNum efficiency) ->
  dict_get metrics "average_battery" = Some (PyNum battery) ->
  let run := insights_fallback fleet_data in
  let low := efficiency_insight (PyNum efficiency) in
  let alert := battery_insight (PyNum battery) in
  (category low = "EFFICIENCY" /\ impact low = "MEDIUM"
   /\ insight_priority low = 2%Z)
  /\ (category alert = "ALERT" /\ impact alert = "HIGH"
      /\ insight_priority alert = 1%Z)
  /\ (efficiency < 0.7 -> battery < 50 -> run = Ok [low; alert])
  /\ (efficiency < 0.7 -> battery >= 50 -> run = Ok [low])
  /\ (efficiency >= 0.7 -> battery < 50 -> run = Ok [alert])
  /\ (efficiency >= 0.7 -> battery >= 50 -> run = Ok [])
  /\ (efficiency = 0.5 -> battery = 40 ->
      run = Ok [efficiency_insight (PyNum 0.5);
                battery_insight (PyNum 40)]).
Proof.
  intros Hm Hfe Hab run low alert. subst run low alert.
  rewrite (insights_fallback_numeric _ _ _ _ Hm Hfe Hab).
  split; [repeat split |]. split; [repeat split |].
  repeat split; intros He Hb.
  - rewrite (proj2 (Rltb_true_iff _ _) He), (proj2 (Rltb_true_iff _ _) Hb).
    reflexivity.
  - rewrite (proj2 (Rltb_true_iff _ _) He).
    rewrite (proj2 (Rltb_false_iff _ _)) by lra. reflexivity.
  - rewrite (proj2 (Rltb_false_iff efficiency _)) by lra.
    rewrite (proj2 (Rltb_true_iff _ _) Hb). reflexivity.
  - rewrite (proj2 (Rltb_false_iff efficiency _)) by lra.
    rewrite (proj2 (Rltb_false_iff battery _)) by lra.
    reflexivity.
  - rewrite (proj2 (Rltb_true_iff efficiency _)) by lra.
    rewrite (proj2 (Rltb_true_iff battery _)) by lra.
    rewrite He, Hb. reflexivity.
Qed.

Lemma insights_fallback_thresholds_witness :
  let m := mkFleetMetrics 6 2 3 1 2 0 40 0.5 0%nat in
  let fleet_data := insights_request m 6 2 0%nat in
  (dict_get fleet_data "metrics" = Some (PyDict (FleetMetrics_dict m))
   /\ dict_get (FleetMetrics_dict m) "fleet_efficiency" = Some (PyNum 0.5)
   /\ dict_get (FleetMetrics_dict m) "average_battery" = Some (PyNum 40))
  /\ insights_fallback fleet_data
     = Ok [efficiency_insight (PyNum 0.5); battery_insight (PyNum 40)].
Proof.
  intros m fleet_data.
  assert (Hm : dict_get fleet_data "metrics"
               = Some (PyDict (FleetMetrics_dict m))) by reflexivity.
  assert (He : dict_get (FleetMetrics_dict m) "fleet_efficiency"
               = Some (PyNum 0.5)) by reflexivity.
  assert (Hb : dict_get (FleetMetrics_dict m) "average_battery"
               = Some (PyNum 40)) by reflexivity.
  split; [repeat split; assumption |].
  destruct (insights_fallback_thresholds fleet_data (FleetMetrics_dict m)
              0.5 40 Hm He Hb)
    as (_ & _ & _ & _ & _ & _ & Hscenario).
  apply Hscenario; reflexivity.
Defined.

(** ** The simulator and the battery invariant *)

Lemma store_agv_Forall (P : AGV -> Prop) (d : list AGV) (agv : AGV) :
  Forall P d -> P agv -> Forall P (store_agv d agv).
Proof.
  intros Hd Ha. induction Hd as [| a d' Hx Hd' IH]; cbn [store_agv].
  - constructor; [exact Ha | constructor].
  - destruct (String.eqb (agv_id a) (agv_id agv)).
    + constructor; assumption.
    + constructor; assumption.
Qed.

Lemma update_agv_in_range (repo : CSVDataAdapter) (agv : AGV)
    (now : datetime) :
  Forall battery_in_range (_agvs repo) -> battery_in_range agv ->
  Forall battery_in_range (_agvs (update_agv repo agv now)).
Proof.
  intros Hrepo Hagv. unfold update_agv. cbn [_agvs].
  apply store_agv_Forall; assumption.
Qed.

Lemma random_unit (g : Random) :
  unit_draws g ->
  0 <= fst (random g) < 1 /\ unit_draws (snd (random g)).
Proof.
  intros Hg. unfold random. cbn [fst snd]. split; [apply Hg |].
  intros n. apply Hg.
Qed.

Lemma uniform_range (a b : R) (g : Random) :
  a <= b -> unit_draws g ->
  a <= fst (uniform a b g) <= b /\ unit_draws (snd (uniform a b g)).
Proof.
  intros Hab Hg. unfold uniform, random. cbn [fst snd].
  pose proof (Hg (cursor g)) as Hu.
  split; [| intros n; apply Hg].
  split; nra.
Qed.

Lemma movement_step_in_range (now : datetime) (agv : AGV)
    (st : CSVDataAdapter * Random) :
  unit_draws (snd st) -> battery_in_range agv ->
  Forall battery_in_range (_agvs (fst st)) ->
  Forall battery_in_range (_agvs (fst (movement_step now agv st)))
  /\ unit_draws (snd (movement_step now agv st)).
Proof.
  destruct st as [repo g]. cbn [fst snd]. intros Hg Hagv Hrepo.
  unfold movement_step.
  destruct (AGVStatus_eqb (status agv) MOVING
            || AGVStatus_eqb (status agv) TRANSPORTING);
    [| split; assumption].
  assert (Hskip :
            Forall battery_in_range (_agvs (update_agv repo agv now))
            /\ unit_draws g)
    by (split; [apply update_agv_in_range |]; assumption).
  destruct (current_task_id agv) as [tid |]; [| exact Hskip].
  destruct (negb (tid =? "")%string); [| exact Hskip].
  destruct (get_task_by_id repo tid) as [task |]; [| exact Hskip].
  destruct (Rgtb _ 5).
  - destruct (uniform_range 0.1 0.3 g) as [Hu Hg']; [lra | exact Hg |].
    destruct (uniform 0.1 0.3 g) as [u g1]. cbn [fst snd] in *.
    split; [| exact Hg'].
    apply update_agv_in_range; [exact Hrepo |].
    unfold battery_in_range in *. cbn [set_battery_level set_position
                                        battery_level].
    unfold Rmax. destruct (Rle_dec 0 (battery_level agv - u)); lra.
  - split; [| exact Hg].
    apply update_agv_in_range; [exact Hrepo | exact Hagv].
Qed.

Lemma battery_step_in_range (now : datetime) (agv : AGV)
    (st : CSVDataAdapter * Random) :
  unit_draws (snd st) -> battery_in_range agv ->
  Forall battery_in_range (_agvs (fst st)) ->
  Forall battery_in_range (_agvs (fst (battery_step now agv st)))
  /\ unit_draws (snd (battery_step now agv st)).
Proof.
  destruct st as [repo g]. cbn [fst snd]. intros Hg Hagv Hrepo.
  unfold battery_step.
  destruct (AGVStatus_eqb (status agv) CHARGING).
  - destruct (uniform_range 2 5 g) as [Hu Hg']; [lra | exact Hg |].
    destruct (uniform 2 5 g) as [u g1]. cbn [fst snd] in *.
    split; [| exact Hg'].
    apply update_agv_in_range; [exact Hrepo |].
    assert (Hcharged :
              battery_in_range
                (set_battery_level agv (Rmin 100 (battery_level agv + u)))).
    { unfold battery_in_range in *. cbn [set_battery_level battery_level].
      unfold Rmin. destruct (Rle_dec 100 (battery_level agv + u)); lra. }
    destruct (Rgeb _ 90); [| exact Hcharged].
    exact Hcharged.
  - destruct (AGVStatus_eqb (status agv) IDLE); [| split; assumption].
    destruct (uniform_range 0.01 0.05 g) as [Hu Hg']; [lra | exact Hg |].
    destruct (uniform 0.01 0.05 g) as [u g1]. cbn [fst snd] in *.
    assert (Hdrained :
              battery_in_range
                (set_battery_level agv (Rmax 0 (battery_level agv - u)))).
    { unfold battery_in_range in *. cbn [set_battery_level battery_level].
      unfold Rmax. destruct (Rle_dec 0 (battery_level agv - u)); lra. }
    destruct (Rltb _ 20).
    + destruct (random_unit g1 Hg') as [_ Hg2].
      destruct (random g1) as [r g2]. cbn [snd] in Hg2.
      split; [| exact Hg2].
      apply update_agv_in_range; [exact Hrepo |].
      destruct (Rltb r 0.3); exact Hdrained.
    + split; [| exact Hg'].
      apply update_agv_in_range; assumption.
Qed.

Lemma simulator_loop_in_range
    (step : AGV -> CSVDataAdapter * Random -> CSVDataAdapter * Random) :
  (forall agv st,
      unit_draws (snd st) -> battery_in_range agv ->
      Forall battery_in_range (_agvs (fst st)) ->
      Forall battery_in_range (_agvs (fst (step agv st)))
      /\ unit_draws (snd (step agv st))) ->
  forall (l : list AGV) (st : CSVDataAdapter * Random),
    unit_draws (snd st) -> Forall battery_in_range l ->
    Forall battery_in_range (_agvs (fst st)) ->
    Forall battery_in_range (_agvs (fst (fold_left (fun s a => step a s) l st)))
    /\ unit_draws (snd (fold_left (fun s a => step a s) l st)).
Proof.
  intros Hstep l. induction l as [| a l IH]; intros st Hg Hl Hst.
  - cbn [fold_left]. split; assumption.
  - cbn [fold_left]. inversion Hl as [| ? ? Ha Hl']; subst.
    destruct (Hstep a st Hg Ha Hst) as [Hst' Hg'].
    apply IH; assumption.
Qed.

Lemma store_agv_in (d : list AGV) (agv a' : AGV) :
  In a' (store_agv d agv) -> In a' d \/ a' = agv.
Proof.
  induction d as [| a d IH]; cbn [store_agv In].
  - intros [E | []]. right. symmetry. exact E.
  - destruct (String.eqb (agv_id a) (agv_id agv)); cbn [In].
    + intros [E | Hin]; [right; symmetry; exact E | left; right; exact Hin].
    + intros [E | Hin]; [left; left; exact E |].
      destruct (IH Hin) as [Hd | E]; [left; right; exact Hd | right; exact E].
Qed.

Lemma update_agv_entries (repo : CSVDataAdapter) (agv a' : AGV)
    (now : datetime) :
  battery_in_range agv ->
  In a' (_agvs (update_agv repo agv now)) ->
  In a' (_agvs repo) \/ battery_in_range a'.
Proof.
  intros Hagv Hin. unfold update_agv in Hin. cbn [_agvs] in Hin.
  destruct (store_agv_in _ _ _ Hin) as [Hold | ->];
    [left; exact Hold | right; exact Hagv].
Qed.

(** Whatever a pass of the movement tick writes for an AGV whose battery is
    within range is within range. *)
Lemma movement_step_entries (now : datetime) (agv a' : AGV)
    (st : CSVDataAdapter * Random) :
  unit_draws (snd st) -> battery_in_range agv ->
  In a' (_agvs (fst (movement_step now agv st))) ->
  In a' (_agvs (fst st)) \/ battery_in_range a'.
Proof.
  destruct st as [repo g]. cbn [fst snd]. intros Hg Hagv.
  unfold movement_step.
  destruct (AGVStatus_eqb (status agv) MOVING
            || AGVStatus_eqb (status agv) TRANSPORTING);
    [| intros Hin; left; exact Hin].
  destruct (current_task_id agv) as [tid |];
    [| apply update_agv_entries; exact Hagv].
  destruct (negb (tid =? "")%string);
    [| apply update_agv_entries; exact Hagv].
  destruct (get_task_by_id repo tid) as [task |];
    [| apply update_agv_entries; exact Hagv].
  destruct (Rgtb _ 5).
  - destruct (uniform_range 0.1 0.3 g) as [Hu _]; [lra | exact Hg |].
    destruct (uniform 0.1 0.3 g) as [u g1]. cbn [fst snd] in *.
    apply update_agv_entries.
    unfold battery_in_range in *. cbn [set_battery_level set_position
                                        battery_level].
    unfold Rmax. destruct (Rle_dec 0 (battery_level agv - u)); lra.
  - cbn [fst]. intros Hin.
    apply update_agv_entries in Hin; [exact Hin | exact Hagv].
Qed.

(** The same for the battery tick: charging gain, idle trickle and the
    change from idle to charging. *)
Lemma battery_step_entries (now : datetime) (agv a' : AGV)
    (st : CSVDataAdapter * Random) :
  unit_draws (snd st) -> battery_in_range agv ->
  In a' (_agvs (fst (battery_step now agv st))) ->
  In a' (_agvs (fst st)) \/ battery_in_range a'.
Proof.
  destruct st as [repo g]. cbn [fst snd]. intros Hg Hagv.
  unfold battery_step.
  destruct (AGVStatus_eqb (status agv) CHARGING).
  - destruct (uniform_range 2 5 g) as [Hu _]; [lra | exact Hg |].
    destruct (uniform 2 5 g) as [u g1]. cbn [fst snd] in *.
    apply update_agv_entries.
    assert (Hcharged :
              battery_in_range
                (set_battery_level agv (Rmin 100 (battery_level agv + u)))).
    { unfold battery_in_range in *. cbn [set_battery_level battery_level].
      unfold Rmin. destruct (Rle_dec 100 (battery_level agv + u)); lra. }
    destruct (Rgeb _ 90); exact Hcharged.
  - destruct (AGVStatus_eqb (status agv) IDLE);
      [| intros Hin; left; exact Hin].
    destruct (uniform_range 0.01 0.05 g) as [Hu _]; [lra | exact Hg |].
    destruct (uniform 0.01 0.05 g) as [u g1]. cbn [fst snd] in *.
    assert (Hdrained :
              battery_in_range
                (set_battery_level agv (Rmax 0 (battery_level agv - u)))).
    { unfold battery_in_range in *. cbn [set_battery_level battery_level].
      unfold Rmax. destruct (Rle_dec 0 (battery_level agv - u)); lra. }
    destruct (Rltb _ 20).
    + destruct (random g1) as [r g2]. cbn [fst].
      apply update_agv_entries. destruct (Rltb r 0.3); exact Hdrained.
    + cbn [fst]. apply update_agv_entries. exact Hdrained.
Qed.

(** C6: whatever values of [0, 1) the random source delivers, each pass of
    the simulator over an AGV whose battery is within [0, 100] writes back
    a battery within [0, 100] (movement drain, charging gain, idle trickle,
    change from idle to charging); hence the movement tick, the battery
    tick and a whole round of the simulator keep every battery of the fleet
    within [0, 100]. *)
Theorem simulator_keeps_battery_in_range (now : datetime) :
  (forall (agv written : AGV) (st : CSVDataAdapter * Random),
      unit_draws (snd st) -> battery_in_range agv ->
      (In written (_agvs (fst (movement_step now agv st))) ->
       In written (_agvs (fst st)) \/ battery_in_range written)
      /\ (In written (_agvs (fst (battery_step now agv st))) ->
          In written (_agvs (fst st)) \/ battery_in_range written))
  /\ (forall (repo : CSVDataAdapter) (g : Random),
        unit_draws g ->
        Forall battery_in_range (_agvs repo) ->
        Forall battery_in_range
               (_agvs (fst (simulate_agv_movement now (repo, g))))
        /\ Forall battery_in_range
                  (_agvs (fst (simulate_battery_changes now (repo, g))))
        /\ Forall battery_in_range
                  (_agvs (fst (simulation_round now (repo, g))))).
Proof.
  split.
  { intros agv written st Hg Hagv. split.
    - apply movement_step_entries; assumption.
    - apply battery_step_entries; assumption. }
  intros repo g Hg Hrepo.
  assert (Hmove :
            Forall battery_in_range
                   (_agvs (fst (simulate_agv_movement now (repo, g))))
            /\ unit_draws (snd (simulate_agv_movement now (repo, g)))).
  { unfold simulate_agv_movement, get_all_agvs.
    apply (simulator_loop_in_range (movement_step now));
      [apply movement_step_in_range | | |]; assumption. }
  assert (Hbattery :
            forall st, unit_draws (snd st) ->
                       Forall battery_in_range (_agvs (fst st)) ->
                       Forall battery_in_range
                              (_agvs (fst (simulate_battery_changes now st)))).
  { intros st Hs Hr. unfold simulate_battery_changes, get_all_agvs.
    apply (simulator_loop_in_range (battery_step now));
      [apply battery_step_in_range | | |]; assumption. }
  split; [apply Hmove |]. split.
  - apply (Hbattery (repo, g)); assumption.
  - unfold simulation_round. apply Hbattery; apply Hmove.
Qed.

Lemma steady_random_unit : unit_draws steady_random.
Proof. intros n. cbn [steady_random draws]. lra. Qed.

Lemma yard_in_range : Forall battery_in_range (_agvs yard).
Proof.
  repeat constructor; cbn [agv_a agv_b battery_level]; lra.
Qed.

Lemma simulator_keeps_battery_in_range_witness :
  (unit_draws steady_random /\ Forall battery_in_range (_agvs yard))
  /\ Forall battery_in_range
            (_agvs (fst (simulate_agv_movement 7%nat (yard, steady_random))))
  /\ Forall battery_in_range
            (_agvs (fst (simulate_battery_changes 7%nat
                           (yard, steady_random))))
  /\ Forall battery_in_range
            (_agvs (fst (simulation_round 7%nat (yard, steady_random)))).
Proof.
  split; [split; [exact steady_random_unit | exact yard_in_range] |].
  exact (proj2 (simulator_keeps_battery_in_range 7%nat) yard steady_random
           steady_random_unit yard_in_range).
Defined.

(** ** The greedy assignment fallback *)

Lemma min_by_in {A : Type} (key : A -> R) (l : list A) :
  forall best, In (min_by key best l) (best :: l).
Proof.
  induction l as [| a l IH]; intros best; cbn [min_by].
  - left. reflexivity.
  - destruct (IH (if Rltb (key a) (key best) then a else best)) as [E | Hin].
    + rewrite <- E.
      destruct (Rltb (key a) (key best)); [right; left | left]; reflexivity.
    + right. right. exact Hin.
Qed.

Lemma min_by_le_best {A : Type} (key : A -> R) (l : list A) :
  forall best, key (min_by key best l) <= key best.
Proof.
  induction l as [| a l IH]; intros best; cbn [min_by]; [lra |].
  destruct (Rltb (key a) (key best)) eqn:E.
  - apply Rltb_true_iff in E. specialize (IH a). lra.
  - apply IH.
Qed.

Lemma min_by_le {A : Type} (key : A -> R) (l : list A) :
  forall best other,
    In other (best :: l) -> key (min_by key best l) <= key other.
Proof.
  induction l as [| a l IH]; intros best other Hin.
  - destruct Hin as [E | []]. subst. cbn [min_by]. lra.
  - cbn [min_by].
    destruct Hin as [E | [E | Hin]].
    + subst other.
      pose proof (min_by_le_best key l
                    (if Rltb (key a) (key best) then a else best)) as Hle.
      destruct (Rltb (key a) (key best)) eqn:Hlt; [| exact Hle].
      apply Rltb_true_iff in Hlt. lra.
    + subst other.
      pose proof (min_by_le_best key l
                    (if Rltb (key a) (key best) then a else best)) as Hle.
      destruct (Rltb (key a) (key best)) eqn:Hlt; [exact Hle |].
      apply Rltb_false_iff in Hlt. lra.
    + apply IH. right. exact Hin.
Qed.

Lemma fallback_assignment_loop_app (pre post : list AGV) :
  forall st,
    fallback_assignment_loop (pre ++ post) st
    = fallback_assignment_loop post (fallback_assignment_loop pre st).
Proof.
  induction pre as [| a pre IH]; intros [d pool]; [reflexivity |].
  cbn [app fallback_assignment_loop].
  destruct pool as [| first others]; [apply IH |].
  destruct (Rgtb (battery_level a) 30); apply IH.
Qed.

Lemma dict_get_set_same {V : Type} (d : list (string * V)) (k : string)
    (v : V) :
  dict_get (dict_set d k v) k = Some v.
Proof.
  unfold dict_get. induction d as [| [k' v'] d IH]; cbn [dict_set find].
  - cbn [fst]. rewrite String.eqb_refl. reflexivity.
  - destruct (String.eqb k' k) eqn:E; cbn [find fst]; rewrite E.
    + reflexivity.
    + exact IH.
Qed.

Lemma dict_get_set_other {V : Type} (d : list (string * V))
    (k k' : string) (v : V) :
  k' <> k -> dict_get (dict_set d k v) k' = dict_get d k'.
Proof.
  intros Hne. unfold dict_get.
  induction d as [| [k0 v0] d IH]; cbn [dict_set find].
  - cbn [fst]. destruct (String.eqb_spec k k'); [congruence | reflexivity].
  - destruct (String.eqb_spec k0 k) as [E | NE]; cbn [find fst].
    + subst k0. destruct (String.eqb_spec k k'); [congruence | reflexivity].
    + destruct (String.eqb k0 k'); [reflexivity | exact IH].
Qed.

Lemma fallback_assignment_loop_other (id : string) (agvs : list AGV) :
  ~ In id (map agv_id agvs) ->
  forall st,
    dict_get (fst (fallback_assignment_loop agvs st)) id
    = dict_get (fst st) id.
Proof.
  induction agvs as [| a agvs IH]; intros Hnot [d pool]; [reflexivity |].
  cbn [map In] in Hnot.
  assert (Hne : id <> agv_id a) by (intros E; apply Hnot; left; congruence).
  assert (Hrest : ~ In id (map agv_id agvs)) by tauto.
  cbn [fallback_assignment_loop].
  destruct pool as [| first others]; [apply IH; exact Hrest |].
  destruct (Rgtb (battery_level a) 30); [| apply IH; exact Hrest].
  rewrite (IH Hrest). cbn [fst].
  apply dict_get_set_other. exact Hne.
Qed.

(** [min] returns the first of the elements with the smallest key: either
    the candidate it started from, or an element of the list that is
    strictly better than the candidate and than everything before it. *)
Lemma min_by_first {A : Type} (key : A -> R) (l : list A) :
  forall best,
    (min_by key best l = best /\ forall o, In o l -> key best <= key o)
    \/ exists l1 l2,
         l = l1 ++ min_by key best l :: l2
         /\ key (min_by key best l) < key best
         /\ forall o, In o l1 -> key (min_by key best l) < key o.
Proof.
  induction l as [| a l IH]; intros best; cbn [min_by].
  - left. split; [reflexivity | intros o []].
  - destruct (Rltb (key a) (key best)) eqn:E.
    + apply Rltb_true_iff in E. right.
      destruct (IH a) as [[Hm Hall] | (l1 & l2 & Hl & Hlt & Hbefore)].
      * exists [], l. rewrite Hm. split; [reflexivity |].
        split; [exact E | intros o []].
      * exists (a :: l1), l2. split; [cbn [app]; f_equal; exact Hl |].
        split; [lra |].
        intros o [<- | Hin]; [exact Hlt | exact (Hbefore o Hin)].
    + apply Rltb_false_iff in E.
      destruct (IH best) as [[Hm Hall] | (l1 & l2 & Hl & Hlt & Hbefore)].
      * left. split; [exact Hm |].
        intros o [<- | Hin]; [exact E | exact (Hall o Hin)].
      * right. exists (a :: l1), l2.
        split; [cbn [app]; f_equal; exact Hl |]. split; [exact Hlt |].
        intros o [<- | Hin]; [lra | exact (Hbefore o Hin)].
Qed.

(** The chosen task stands in the pool behind tasks that are all strictly
    farther away. *)
Lemma min_by_split {A : Type} (key : A -> R) (first : A) (others : list A) :
  exists before after,
    first :: others = before ++ min_by key first others :: after
    /\ forall o, In o before -> key (min_by key first others) < key o.
Proof.
  destruct (min_by_first key others first)
    as [[Hm _] | (l1 & l2 & Hl & Hlt & Hbefore)].
  - exists [], others. rewrite Hm. split; [reflexivity | intros o []].
  - exists (first :: l1), l2. split; [cbn [app]; f_equal; exact Hl |].
    intros o [<- | Hin]; [exact Hlt | exact (Hbefore o Hin)].
Qed.

(** [l.remove(t)] takes out the first occurrence of [t] and nothing
    else. *)
Lemma list_remove_first (t : Task) (before after : list Task) :
  ~ In t before ->
  list_remove t (before ++ t :: after) = before ++ after.
Proof.
  induction before as [| u before IH]; intros Hnot; cbn [app list_remove].
  - destruct (Task_eq_dec t t); [reflexivity | congruence].
  - destruct (Task_eq_dec u t) as [E | NE].
    + exfalso. apply Hnot. left. exact E.
    + f_equal. apply IH. intros Hin. apply Hnot. right. exact Hin.
Qed.

(** C7: in the greedy fallback every AGV whose battery exceeds 30 receives,
    among the tasks that remain when its turn comes, one whose origin is
    nearest to its position, the first such task in the order of the pool,
    and exactly that occurrence leaves the pool, the other tasks staying
    in their order; an AGV whose battery is at most 30 receives nothing
    and leaves the pool as it is, even when tasks remain. *)
Theorem greedy_fallback_assignment (agvs : list AGV) (tasks : list Task)
    (pre post : list AGV) (agv : AGV) :
  NoDup (map agv_id agvs) ->
  agvs = pre ++ agv :: post ->
  let pool := remaining_pool pre tasks in
  let pool' := remaining_pool (pre ++ [agv]) tasks in
  let recommended := dict_get (fallback_assignment agvs tasks) (agv_id agv) in
  (battery_level agv > 30 -> pool <> [] ->
   exists task,
     In task pool
     /\ (forall other, In other pool ->
           distance_to (position agv) (origin task)
           <= distance_to (position agv) (origin other))
     /\ recommended = Some (task_id task)
     /\ pool' = list_remove task pool
     /\ (exists before after,
           pool = before ++ task :: after
           /\ (forall other, In other before ->
                 distance_to (position agv) (origin task)
                 < distance_to (position agv) (origin other))
           /\ ~ In task before
           /\ pool' = before ++ after)
     /\ List.length pool = S (List.length pool')
     /\ (forall other, In other pool' -> In other pool))
  /\ (battery_level agv <= 30 -> recommended = None /\ pool' = pool).
Proof.
  intros Hnodup Hsplit pool pool' recommended.
  subst agvs. rewrite map_app in Hnodup. cbn [map] in Hnodup.
  assert (Hpre : ~ In (agv_id agv) (map agv_id pre)).
  { intros Hin. apply NoDup_remove_2 in Hnodup. apply Hnodup.
    apply in_or_app. left. exact Hin. }
  assert (Hpost : ~ In (agv_id agv) (map agv_id post)).
  { intros Hin. apply NoDup_remove_2 in Hnodup. apply Hnodup.
    apply in_or_app. right. exact Hin. }
  subst pool pool' recommended.
  unfold fallback_assignment, remaining_pool.
  rewrite !fallback_assignment_loop_app.
  pose proof (fallback_assignment_loop_other _ _ Hpre ([], tasks)) as Hbefore.
  cbn [fst] in Hbefore.
  destruct (fallback_assignment_loop pre ([], tasks)) as [d pool] eqn:Epre.
  cbn [fst snd] in *.
  split.
  - intros Hbat Hpool.
    destruct pool as [| first others]; [contradiction |].
    cbn [fallback_assignment_loop].
    rewrite (proj2 (Rgtb_true_iff _ _) Hbat).
    set (key := fun t : Task => distance_to (position agv) (origin t)).
    set (task := min_by key first others).
    destruct (min_by_split key first others)
      as (before & after & Hshape & Hfar).
    fold task in Hshape, Hfar.
    assert (Hnot : ~ In task before).
    { intros Hin. pose proof (Hfar task Hin) as Hlt. lra. }
    assert (Hgone : list_remove task (first :: others) = before ++ after).
    { rewrite Hshape. apply list_remove_first. exact Hnot. }
    exists task.
    split; [apply min_by_in |].
    split; [intros other Hin; apply (min_by_le key others first other Hin) |].
    split.
    { rewrite (fallback_assignment_loop_other _ _ Hpost). cbn [fst].
      apply dict_get_set_same. }
    cbn [snd].
    split; [reflexivity |].
    split.
    { exists before, after. split; [exact Hshape |].
      split; [exact Hfar |]. split; [exact Hnot | exact Hgone]. }
    split.
    { rewrite Hgone, Hshape, !length_app. cbn [List.length]. lia. }
    intros other Hin. rewrite Hgone in Hin. rewrite Hshape.
    apply in_app_or in Hin. apply in_or_app.
    destruct Hin as [Hin | Hin]; [left; exact Hin | right; right; exact Hin].
  - intros Hbat.
    assert (Hskip : fallback_assignment_loop [agv] (d, pool) = (d, pool)).
    { cbn [fallback_assignment_loop].
      destruct pool as [| first others]; [reflexivity |].
      rewrite (proj2 (Rgtb_false_iff _ _) Hbat). reflexivity. }
    change (agv :: post) with ([agv] ++ post).
    rewrite fallback_assignment_loop_app, Hskip.
    split; [| reflexivity].
    rewrite (fallback_assignment_loop_other _ _ Hpost). cbn [fst].
    exact Hbefore.
Qed.

Lemma greedy_fallback_assignment_witness :
  (NoDup (map agv_id [agv_a; agv_b])
   /\ [agv_a; agv_b] = [] ++ agv_a :: [agv_b])
  /\ dict_get (fallback_assignment [agv_a; agv_b] [task_1]) (agv_id agv_a)
     = Some "TSK-1"
  /\ remaining_pool [] [task_1] = [task_1]
  /\ remaining_pool ([] ++ [agv_a]) [task_1] = [].
Proof.
  assert (Hnodup : NoDup (map agv_id [agv_a; agv_b])).
  { cbn [map agv_id agv_a agv_b]. constructor.
    - intros [E | []]. discriminate E.
    - constructor; [intros [] | constructor]. }
  assert (Hsplit : [agv_a; agv_b] = [] ++ agv_a :: [agv_b]) by reflexivity.
  split; [split; assumption |].
  destruct (greedy_fallback_assignment [agv_a; agv_b] [task_1] []
              [agv_b] agv_a Hnodup Hsplit) as [Hserved _].
  destruct Hserved as (task & Hin & _ & Hrec & _ & _ & Hlen & _).
  - cbn [agv_a battery_level]. lra.
  - discriminate.
  - destruct Hin as [<- | []].
    split; [exact Hrec |]. split; [reflexivity |].
    change (remaining_pool [] [task_1]) with [task_1] in Hlen.
    destruct (remaining_pool ([] ++ [agv_a]) [task_1]) as [| u rest];
      [reflexivity | cbn [List.length] in Hlen; lia].
Defined.

(** ** The repository as a dictionary *)

Lemma get_agv_by_id_key (repo : CSVDataAdapter) (id : string) (a : AGV) :
  get_agv_by_id repo id = Some a -> agv_id a = id.
Proof.
  unfold get_agv_by_id. intros H. apply find_some in H.
  destruct H as [_ H]. apply String.eqb_eq. exact H.
Qed.

Lemma get_agv_by_id_in (repo : CSVDataAdapter) (id : string) (a : AGV) :
  get_agv_by_id repo id = Some a -> In a (_agvs repo).
Proof.
  unfold get_agv_by_id. intros H. apply find_some in H. apply H.
Qed.

Lemma find_store_agv_same (d : list AGV) (agv : AGV) :
  find (fun a => String.eqb (agv_id a) (agv_id agv)) (store_agv d agv)
  = Some agv.
Proof.
  induction d as [| a d IH]; cbn [store_agv find].
  - rewrite String.eqb_refl. reflexivity.
  - destruct (String.eqb (agv_id a) (agv_id agv)) eqn:E; cbn [find].
    + rewrite String.eqb_refl. reflexivity.
    + rewrite E. exact IH.
Qed.

Lemma find_store_agv_other (d : list AGV) (agv : AGV) (id : string) :
  id <> agv_id agv ->
  find (fun a => String.eqb (agv_id a) id) (store_agv d agv)
  = find (fun a => String.eqb (agv_id a) id) d.
Proof.
  intros Hne. induction d as [| a d IH]; cbn [store_agv find].
  - destruct (String.eqb_spec (agv_id agv) id); [congruence | reflexivity].
  - destruct (String.eqb_spec (agv_id a) (agv_id agv)) as [E | NE];
      cbn [find].
    + destruct (String.eqb_spec (agv_id agv) id); [congruence |].
      destruct (String.eqb_spec (agv_id a) id); [congruence | reflexivity].
    + destruct (String.eqb (agv_id a) id); [reflexivity | exact IH].
Qed.

Lemma store_agv_ids (d : list AGV) (agv : AGV) :
  In (agv_id agv) (map agv_id d) ->
  map agv_id (store_agv d agv) = map agv_id d.
Proof.
  induction d as [| a d IH]; cbn [map In store_agv]; [intros [] |].
  intros Hin.
  destruct (String.eqb_spec (agv_id a) (agv_id agv)) as [E | NE];
    cbn [map].
  - rewrite E. reflexivity.
  - f_equal. apply IH. destruct Hin as [E | Hin]; [congruence | exact Hin].
Qed.

Lemma find_agv_unique (d : list AGV) (id : string) (a e : AGV) :
  NoDup (map agv_id d) ->
  find (fun v => String.eqb (agv_id v) id) d = Some a ->
  In e d -> agv_id e = id -> e = a.
Proof.
  induction d as [| v d IH]; cbn [map find In]; [intros _ _ [] |].
  intros Hnodup Hfind Hin Hid.
  inversion Hnodup as [| ? ? Hnot Hrest]; subst.
  destruct (String.eqb_spec (agv_id v) (agv_id e)) as [E | NE].
  - injection Hfind as <-.
    destruct Hin as [-> | Hin]; [reflexivity |].
    exfalso. apply Hnot. rewrite E. apply in_map. exact Hin.
  - destruct Hin as [-> | Hin]; [congruence |].
    apply IH; [exact Hrest | exact Hfind | exact Hin | reflexivity].
Qed.

(** ** The loops of the simulator *)

Section TickLoop.

Variable step : AGV -> CSVDataAdapter * Random -> CSVDataAdapter * Random.

(** A pass over one AGV writes at most that AGV back. *)
Hypothesis step_writes_back :
  forall agv st,
    _agvs (fst (step agv st)) = _agvs (fst st)
    \/ exists agv',
         agv_id agv' = agv_id agv
         /\ _agvs (fst (step agv st)) = store_agv (_agvs (fst st)) agv'.

Lemma step_keeps_other (id : string) (agv : AGV)
    (st : CSVDataAdapter * Random) :
  agv_id agv <> id ->
  get_agv_by_id (fst (step agv st)) id = get_agv_by_id (fst st) id.
Proof.
  intros Hne. unfold get_agv_by_id.
  destruct (step_writes_back agv st) as [E | (agv' & Hid & E)];
    rewrite E; [reflexivity |].
  apply find_store_agv_other. congruence.
Qed.

Lemma step_keeps_ids (agv : AGV) (st : CSVDataAdapter * Random) :
  In (agv_id agv) (map agv_id (_agvs (fst st))) ->
  map agv_id (_agvs (fst (step agv st))) = map agv_id (_agvs (fst st)).
Proof.
  intros Hin.
  destruct (step_writes_back agv st) as [E | (agv' & Hid & E)];
    rewrite E; [reflexivity |].
  apply store_agv_ids. rewrite Hid. exact Hin.
Qed.

Lemma loop_keeps_ids (l : list AGV) :
  forall st,
    incl (map agv_id l) (map agv_id (_agvs (fst st))) ->
    map agv_id (_agvs (fst (fold_left (fun s a => step a s) l st)))
    = map agv_id (_agvs (fst st)).
Proof.
  induction l as [| a l IH]; intros st Hincl; [reflexivity |].
  cbn [fold_left].
  assert (Ha : In (agv_id a) (map agv_id (_agvs (fst st))))
    by (apply Hincl; left; reflexivity).
  rewrite IH; [apply step_keeps_ids; exact Ha |].
  rewrite (step_keeps_ids a st Ha).
  intros i Hi. apply Hincl. right. exact Hi.
Qed.

Lemma loop_keeps_other (id0 : string) (l : list AGV) :
  forall st,
    (forall e, In e l -> agv_id e <> id0) ->
    get_agv_by_id (fst (fold_left (fun s a => step a s) l st)) id0
    = get_agv_by_id (fst st) id0.
Proof.
  induction l as [| e l IH]; intros st Hl; [reflexivity |].
  cbn [fold_left]. rewrite IH.
  - apply step_keeps_other. apply Hl. left. reflexivity.
  - intros e' Hin. apply Hl. right. exact Hin.
Qed.

(** A property of the entry stored under [id] that the pass over the
    AGV of that name maintains. *)
Variable id : string.
Variable P : AGV -> Prop.

Hypothesis step_maintains :
  forall agv st,
    agv_id agv = id -> P agv ->
    (exists a, get_agv_by_id (fst st) id = Some a /\ P a) ->
    exists a', get_agv_by_id (fst (step agv st)) id = Some a' /\ P a'.

Lemma loop_maintains (l : list AGV) :
  forall st,
    (forall e, In e l -> agv_id e = id -> P e) ->
    (exists a, get_agv_by_id (fst st) id = Some a /\ P a) ->
    exists a',
      get_agv_by_id (fst (fold_left (fun s a => step a s) l st)) id
      = Some a'
      /\ P a'.
Proof.
  induction l as [| e l IH]; intros st Hl Hst; [exact Hst |].
  cbn [fold_left]. apply IH.
  - intros e' Hin. apply Hl. right. exact Hin.
  - destruct (String.eqb_spec (agv_id e) id) as [E | NE].
    + apply step_maintains; [exact E | | exact Hst].
      apply Hl; [left; reflexivity | exact E].
    + rewrite (step_keeps_other id e st NE). exact Hst.
Qed.

(** The loop started on the list of all AGVs of a repository whose keys
    are distinct. *)
Lemma tick_maintains (repo : CSVDataAdapter) (g : Random) :
  NoDup (map agv_id (_agvs repo)) ->
  (exists a, get_agv_by_id repo id = Some a /\ P a) ->
  let st' := fold_left (fun s a => step a s) (get_all_agvs repo) (repo, g)
  in
  NoDup (map agv_id (_agvs (fst st')))
  /\ exists a', get_agv_by_id (fst st') id = Some a' /\ P a'.
Proof.
  intros Hnodup (a & Hget & Ha). cbv zeta. split.
  - rewrite loop_keeps_ids; [exact Hnodup |].
    cbn [fst]. unfold get_all_agvs. apply incl_refl.
  - apply loop_maintains; [| exists a; split; assumption].
    intros e Hin Hid. unfold get_all_agvs in Hin.
    rewrite (find_agv_unique (_agvs repo) id a e Hnodup Hget Hin Hid).
    exact Ha.
Qed.

End TickLoop.

Lemma movement_step_writes_back (now : datetime) (agv : AGV)
    (st : CSVDataAdapter * Random) :
  _agvs (fst (movement_step now agv st)) = _agvs (fst st)
  \/ exists agv',
       agv_id agv' = agv_id agv
       /\ _agvs (fst (movement_step now agv st))
          = store_agv (_agvs (fst st)) agv'.
Proof.
  destruct st as [repo g]. unfold movement_step. cbn [fst].
  destruct (AGVStatus_eqb (status agv) MOVING
            || AGVStatus_eqb (status agv) TRANSPORTING);
    [| left; reflexivity].
  assert (Hskip :
            _agvs (fst (update_agv repo agv now, g)) = _agvs repo
            \/ exists agv',
                 agv_id agv' = agv_id agv
                 /\ _agvs (fst (update_agv repo agv now, g))
                    = store_agv (_agvs repo) agv').
  { right. eexists. split; [| reflexivity]. reflexivity. }
  destruct (current_task_id agv) as [tid |]; [| exact Hskip].
  destruct (negb (tid =? "")%string); [| exact Hskip].
  destruct (get_task_by_id repo tid) as [task |]; [| exact Hskip].
  destruct (Rgtb _ 5).
  - destruct (uniform 0.1 0.3 g) as [u g1].
    right. eexists. split; [| reflexivity]. reflexivity.
  - right. eexists. split; [| reflexivity]. reflexivity.
Qed.

Lemma battery_step_writes_back (now : datetime) (agv : AGV)
    (st : CSVDataAdapter * Random) :
  _agvs (fst (battery_step now agv st)) = _agvs (fst st)
  \/ exists agv',
       agv_id agv' = agv_id agv
       /\ _agvs (fst (battery_step now agv st))
          = store_agv (_agvs (fst st)) agv'.
Proof.
  destruct st as [repo g]. unfold battery_step. cbn [fst].
  destruct (AGVStatus_eqb (status agv) CHARGING).
  - destruct (uniform 2 5 g) as [u g1].
    right. eexists. split; [| reflexivity].
    destruct (Rgeb _ 90); reflexivity.
  - destruct (AGVStatus_eqb (status agv) IDLE); [| left; reflexivity].
    destruct (uniform 0.01 0.05 g) as [u g1].
    destruct (Rltb _ 20).
    + destruct (random g1) as [r g2].
      right. eexists. split; [| reflexivity].
      destruct (Rltb r 0.3); reflexivity.
    + right. eexists. split; [| reflexivity]. reflexivity.
Qed.

(** ** Manual dispatch *)

Lemma get_update_agv_same (repo : CSVDataAdapter) (agv : AGV)
    (now : datetime) :
  get_agv_by_id (update_agv repo agv now) (agv_id agv)
  = Some (set_last_update agv now).
Proof.
  unfold get_agv_by_id, update_agv. cbn [_agvs].
  apply (find_store_agv_same (_agvs repo) (set_last_update agv now)).
Qed.

Lemma get_update_agv_other (repo : CSVDataAdapter) (agv : AGV)
    (now : datetime) (id : string) :
  id <> agv_id agv ->
  get_agv_by_id (update_agv repo agv now) id = get_agv_by_id repo id.
Proof.
  intros Hne. unfold get_agv_by_id, update_agv. cbn [_agvs].
  apply find_store_agv_other. exact Hne.
Qed.

Lemma movement_step_parked (p : Position) (b : R) (id : string)
    (now : datetime) (agv : AGV) (st : CSVDataAdapter * Random) :
  agv_id agv = id -> parked_at p b agv ->
  (exists a, get_agv_by_id (fst st) id = Some a /\ parked_at p b a) ->
  exists a',
    get_agv_by_id (fst (movement_step now agv st)) id = Some a'
    /\ parked_at p b a'.
Proof.
  intros Hid (Hs & Hc & Hp & Hb) _. destruct st as [repo g].
  unfold movement_step. rewrite Hs, Hc. cbn [AGVStatus_eqb orb fst].
  exists (set_last_update agv now). split.
  - rewrite <- Hid. apply get_update_agv_same.
  - repeat split; assumption.
Qed.

Lemma battery_step_parked (p : Position) (b : R) (id : string)
    (now : datetime) (agv : AGV) (st : CSVDataAdapter * Random) :
  agv_id agv = id -> parked_at p b agv ->
  (exists a, get_agv_by_id (fst st) id = Some a /\ parked_at p b a) ->
  exists a',
    get_agv_by_id (fst (battery_step now agv st)) id = Some a'
    /\ parked_at p b a'.
Proof.
  intros _ (Hs & _) Hst. destruct st as [repo g].
  unfold battery_step. rewrite Hs. cbn [AGVStatus_eqb]. exact Hst.
Qed.

Lemma movement_tick_parked (p : Position) (b : R) (id : string)
    (now : datetime) (st : CSVDataAdapter * Random) :
  NoDup (map agv_id (_agvs (fst st))) ->
  (exists a, get_agv_by_id (fst st) id = Some a /\ parked_at p b a) ->
  NoDup (map agv_id (_agvs (fst (simulate_agv_movement now st))))
  /\ exists a',
       get_agv_by_id (fst (simulate_agv_movement now st)) id = Some a'
       /\ parked_at p b a'.
Proof.
  destruct st as [repo g]. cbn [fst]. intros Hnodup Hst.
  unfold simulate_agv_movement. cbn [fst].
  apply (tick_maintains (movement_step now)
           (movement_step_writes_back now) id (parked_at p b)
           (movement_step_parked p b id now) repo g Hnodup Hst).
Qed.

Lemma battery_tick_parked (p : Position) (b : R) (id : string)
    (now : datetime) (st : CSVDataAdapter * Random) :
  NoDup (map agv_id (_agvs (fst st))) ->
  (exists a, get_agv_by_id (fst st) id = Some a /\ parked_at p b a) ->
  NoDup (map agv_id (_agvs (fst (simulate_battery_changes now st))))
  /\ exists a',
       get_agv_by_id (fst (simulate_battery_changes now st)) id = Some a'
       /\ parked_at p b a'.
Proof.
  destruct st as [repo g]. cbn [fst]. intros Hnodup Hst.
  unfold simulate_battery_changes. cbn [fst].
  apply (tick_maintains (battery_step now)
           (battery_step_writes_back now) id (parked_at p b)
           (battery_step_parked p b id now) repo g Hnodup Hst).
Qed.

Lemma run_simulation_parked (p : Position) (b : R) (id : string)
    (nows : list datetime) :
  forall st,
    NoDup (map agv_id (_agvs (fst st))) ->
    (exists a, get_agv_by_id (fst st) id = Some a /\ parked_at p b a) ->
    exists a',
      get_agv_by_id (fst (run_simulation nows st)) id = Some a'
      /\ parked_at p b a'.
Proof.
  unfold run_simulation.
  induction nows as [| now nows IH]; intros st Hnodup Hst; [exact Hst |].
  cbn [fold_left]. unfold simulation_round at 2.
  destruct (movement_tick_parked p b id now st Hnodup Hst) as [Hn1 Hs1].
  destruct (battery_tick_parked p b id now _ Hn1 Hs1) as [Hn2 Hs2].
  apply IH; assumption.
Qed.

(** C10: a successful [send_agv_to_position] on an available AGV that can
    reach the target writes back the same AGV with status MOVING and a new
    [last_update]; position, battery level and the (absent) current task
    are as before, every other AGV and every task is untouched, and since
    no current task is set no movement tick and no round of the simulator
    ever moves the AGV. *)
Theorem send_agv_to_position_frame (repo : CSVDataAdapter) (id : string)
    (target : Position) (now : datetime) (a : AGV) :
  NoDup (map agv_id (_agvs repo)) ->
  get_agv_by_id repo id = Some a ->
  is_available a = true ->
  can_reach a target = true ->
  let outcome := fst (send_agv_to_position repo id target now true) in
  let repo' := snd (send_agv_to_position repo id target now true) in
  let a' := set_last_update (set_status a MOVING) now in
  outcome = AGVSent (distance_to target (position a) / 1000 / 20 * 60)
  /\ get_agv_by_id repo' id = Some a'
  /\ (status a' = MOVING /\ last_update a' = now
      /\ position a' = position a
      /\ battery_level a' = battery_level a
      /\ current_task_id a' = current_task_id a
      /\ current_task_id a' = None
      /\ agv_id a' = agv_id a /\ name a' = name a
      /\ max_speed a' = max_speed a /\ load_capacity a' = load_capacity a)
  /\ (forall other, other <> id ->
        get_agv_by_id repo' other = get_agv_by_id repo other)
  /\ _tasks repo' = _tasks repo
  /\ (forall tick g,
        exists moved,
          get_agv_by_id (fst (simulate_agv_movement tick (repo', g))) id
          = Some moved
          /\ position moved = position a)
  /\ (forall nows g,
        exists later,
          get_agv_by_id (fst (run_simulation nows (repo', g))) id
          = Some later
          /\ position later = position a
          /\ battery_level later = battery_level a
          /\ current_task_id later = None).
Proof.
  intros Hnodup Hget Havail Hreach outcome repo' a'.
  pose proof (get_agv_by_id_key repo id a Hget) as Hid.
  assert (Hrun :
            send_agv_to_position repo id target now true
            = (AGVSent (distance_to target (position a) / 1000 / 20 * 60),
               update_agv repo a' now)).
  { unfold send_agv_to_position. rewrite Hget, Havail, Hreach.
    reflexivity. }
  subst outcome repo'. rewrite Hrun. cbn [fst snd].
  assert (Hnone : current_task_id a = None).
  { unfold is_available in Havail.
    destruct (current_task_id a); [| reflexivity].
    rewrite andb_false_r in Havail. discriminate. }
  assert (Hstored : get_agv_by_id (update_agv repo a' now) id = Some a').
  { rewrite <- Hid. apply (get_update_agv_same repo a' now). }
  assert (Hparked : parked_at (position a) (battery_level a) a')
    by (repeat split; exact Hnone).
  assert (Hnodup' : NoDup (map agv_id (_agvs (update_agv repo a' now)))).
  { unfold update_agv. cbn [_agvs]. rewrite store_agv_ids; [exact Hnodup |].
    change (agv_id (set_last_update a' now)) with (agv_id a).
    apply in_map. apply (get_agv_by_id_in repo id a Hget). }
  split; [reflexivity |].
  split; [exact Hstored |].
  split; [repeat split; exact Hnone |].
  split.
  { intros other Hne. apply get_update_agv_other.
    change (agv_id a') with (agv_id a). congruence. }
  split; [reflexivity |].
  split.
  - intros tick g.
    destruct (movement_tick_parked (position a) (battery_level a) id tick
                (update_agv repo a' now, g) Hnodup'
                (ex_intro _ a' (conj Hstored Hparked)))
      as (_ & moved & Hm & Hp).
    exists moved. split; [exact Hm | apply Hp].
  - intros nows g.
    destruct (run_simulation_parked (position a) (battery_level a) id nows
                (update_agv repo a' now, g) Hnodup'
                (ex_intro _ a' (conj Hstored Hparked)))
      as (later & Hl & Hp).
    exists later. split; [exact Hl |]. repeat split; apply Hp.
Qed.

Lemma yard_keys_distinct : NoDup (map agv_id (_agvs yard)).
Proof.
  cbn [yard _agvs map agv_id agv_a agv_b]. constructor.
  - intros [E | []]. discriminate E.
  - constructor; [intros [] | constructor].
Qed.

Lemma agv_a_reaches_quay : can_reach agv_a quay = true.
Proof.
  apply can_reach_true. change (position agv_a) with depot.
  rewrite depot_to_quay. cbn [agv_a battery_level]. lra.
Qed.

Lemma send_agv_to_position_frame_witness :
  (NoDup (map agv_id (_agvs yard))
   /\ get_agv_by_id yard "AGV-A" = Some agv_a
   /\ is_available agv_a = true
   /\ can_reach agv_a quay = true)
  /\ fst (send_agv_to_position yard "AGV-A" quay 3%nat true)
     = AGVSent (distance_to quay (position agv_a) / 1000 / 20 * 60)
  /\ get_agv_by_id (snd (send_agv_to_position yard "AGV-A" quay 3%nat true))
                   "AGV-A"
     = Some (set_last_update (set_status agv_a MOVING) 3%nat)
  /\ (forall nows g,
        exists later,
          get_agv_by_id
            (fst (run_simulation nows
                    (snd (send_agv_to_position yard "AGV-A" quay 3%nat true),
                     g)))
            "AGV-A"
          = Some later
          /\ position later = position agv_a
          /\ battery_level later = battery_level agv_a
          /\ current_task_id later = None).
Proof.
  assert (Hget : get_agv_by_id yard "AGV-A" = Some agv_a) by reflexivity.
  split.
  { repeat split;
      [exact yard_keys_distinct | exact agv_a_available
       | exact agv_a_reaches_quay]. }
  destruct (send_agv_to_position_frame yard "AGV-A" quay 3%nat agv_a
              yard_keys_distinct Hget agv_a_available agv_a_reaches_quay)
    as (Hout & Hstored & _ & _ & _ & _ & Hlater).
  split; [exact Hout |]. split; [exact Hstored | exact Hlater].
Defined.

(** ** Arrival *)

Lemma get_task_by_id_key (repo : CSVDataAdapter) (id : string) (t : Task) :
  get_task_by_id repo id = Some t -> task_id t = id.
Proof.
  unfold get_task_by_id. intros H. apply find_some in H.
  destruct H as [_ H]. apply String.eqb_eq. exact H.
Qed.

Lemma find_store_task_same (d : list Task) (task : Task) :
  find (fun t => String.eqb (task_id t) (task_id task)) (store_task d task)
  = Some task.
Proof.
  induction d as [| t d IH]; cbn [store_task find].
  - rewrite String.eqb_refl. reflexivity.
  - destruct (String.eqb (task_id t) (task_id task)) eqn:E; cbn [find].
    + rewrite String.eqb_refl. reflexivity.
    + rewrite E. exact IH.
Qed.

Lemma find_store_task_other (d : list Task) (task : Task) (id : string) :
  id <> task_id task ->
  find (fun t => String.eqb (task_id t) id) (store_task d task)
  = find (fun t => String.eqb (task_id t) id) d.
Proof.
  intros Hne. induction d as [| t d IH]; cbn [store_task find].
  - destruct (String.eqb_spec (task_id task) id); [congruence | reflexivity].
  - destruct (String.eqb_spec (task_id t) (task_id task)) as [E | NE];
      cbn [find].
    + destruct (String.eqb_spec (task_id task) id); [congruence |].
      destruct (String.eqb_spec (task_id t) id); [congruence | reflexivity].
    + destruct (String.eqb (task_id t) id); [reflexivity | exact IH].
Qed.

Lemma remaining_distance (p d : Position) :
  sqrt ((x d - x p) ^ 2 + (y d - y p) ^ 2) = distance_to p d.
Proof. unfold distance_to. f_equal. ring. Qed.

(** The arrival branch, taken when the AGV is under way to a task that the
    repository knows and no more than 5 units are left. *)
Lemma movement_step_arrival (now : datetime) (agv : AGV)
    (repo : CSVDataAdapter) (g : Random) (tid : string) (task : Task) :
  status agv = MOVING \/ status agv = TRANSPORTING ->
  current_task_id agv = Some tid -> tid <> "" ->
  get_task_by_id repo tid = Some task ->
  distance_to (position agv) (destination task) <= 5 ->
  movement_step now agv (repo, g)
  = (update_agv (update_task repo (set_completed_at task (Some now)))
                (arrived agv task) now,
     g).
Proof.
  intros Hstatus Hcur Hne Htask Hdist. unfold movement_step.
  replace (AGVStatus_eqb (status agv) MOVING
           || AGVStatus_eqb (status agv) TRANSPORTING) with true
    by (destruct Hstatus as [-> | ->]; reflexivity).
  rewrite Hcur.
  destruct (String.eqb_spec tid "") as [E | _]; [contradiction |].
  cbn [negb]. rewrite Htask. cbv zeta.
  rewrite remaining_distance.
  rewrite (proj2 (Rgtb_false_iff _ _) Hdist). reflexivity.
Qed.

(** A pass of the movement tick either leaves the tasks alone or is an
    arrival. *)
Lemma movement_step_tasks (now : datetime) (agv : AGV)
    (st : CSVDataAdapter * Random) :
  _tasks (fst (movement_step now agv st)) = _tasks (fst st)
  \/ exists tid task,
       current_task_id agv = Some tid
       /\ get_task_by_id (fst st) tid = Some task
       /\ movement_step now agv st
          = (update_agv
               (update_task (fst st) (set_completed_at task (Some now)))
               (arrived agv task) now,
             snd st).
Proof.
  destruct st as [repo g]. cbn [fst snd]. unfold movement_step.
  destruct (AGVStatus_eqb (status agv) MOVING
            || AGVStatus_eqb (status agv) TRANSPORTING);
    [| left; reflexivity].
  destruct (current_task_id agv) as [tid |] eqn:Hcur; [| left; reflexivity].
  destruct (negb (tid =? "")%string); [| left; reflexivity].
  destruct (get_task_by_id repo tid) as [task |] eqn:Htask;
    [| left; reflexivity].
  cbv zeta. destruct (Rgtb _ 5).
  - destruct (uniform 0.1 0.3 g) as [u g1]. left. reflexivity.
  - right. exists tid, task. repeat split; try reflexivity. exact Htask.
Qed.

Lemma get_update_task_same (repo : CSVDataAdapter) (task : Task) :
  get_task_by_id (update_task repo task) (task_id task) = Some task.
Proof.
  unfold get_task_by_id, update_task. cbn [_tasks].
  apply find_store_task_same.
Qed.

Lemma get_update_task_other (repo : CSVDataAdapter) (task : Task)
    (id : string) :
  id <> task_id task ->
  get_task_by_id (update_task repo task) id = get_task_by_id repo id.
Proof.
  intros Hne. unfold get_task_by_id, update_task. cbn [_tasks].
  apply find_store_task_other. exact Hne.
Qed.

Section TaskInvariant.

Variable now : datetime.
Variable tid : string.

(** A property of the task stored under [tid] that stamping the task as
    completed does not destroy. *)
Variable Q : Task -> Prop.
Hypothesis Q_stamped :
  forall t, Q t -> Q (set_completed_at t (Some now)).

Lemma movement_step_keeps_task (agv : AGV)
    (st : CSVDataAdapter * Random) :
  (exists t, get_task_by_id (fst st) tid = Some t /\ Q t) ->
  exists t',
    get_task_by_id (fst (movement_step now agv st)) tid = Some t' /\ Q t'.
Proof.
  intros (t & Hget & Ht).
  destruct (movement_step_tasks now agv st)
    as [E | (tid1 & task & _ & Htask & E)].
  - exists t. split; [| exact Ht].
    unfold get_task_by_id in *. rewrite E. exact Hget.
  - rewrite E. cbn [fst].
    change (get_task_by_id (update_agv ?r ?a ?n) tid)
      with (get_task_by_id r tid).
    destruct (String.eqb_spec tid tid1) as [Heq | Hne].
    + subst tid1. rewrite Hget in Htask. injection Htask as <-.
      pose proof (get_task_by_id_key _ _ _ Hget) as Hkey.
      exists (set_completed_at t (Some now)). split; [| apply Q_stamped, Ht].
      rewrite <- Hkey.
      apply (get_update_task_same (fst st) (set_completed_at t (Some now))).
    + pose proof (get_task_by_id_key _ _ _ Htask) as Hkey.
      exists t. split; [| exact Ht].
      rewrite get_update_task_other; [exact Hget |].
      cbn [set_completed_at task_id]. congruence.
Qed.

Lemma movement_loop_keeps_task (l : list AGV) :
  forall st,
    (exists t, get_task_by_id (fst st) tid = Some t /\ Q t) ->
    exists t',
      get_task_by_id
        (fst (fold_left (fun s a => movement_step now a s) l st)) tid
      = Some t'
      /\ Q t'.
Proof.
  induction l as [| e l IH]; intros st Hst; [exact Hst |].
  cbn [fold_left]. apply IH. apply movement_step_keeps_task. exact Hst.
Qed.

End TaskInvariant.

Lemma keys_distinct_split (pre post : list AGV) (a e : AGV) :
  NoDup (map agv_id (pre ++ a :: post)) ->
  In e pre \/ In e post -> agv_id e <> agv_id a.
Proof.
  intros Hnodup Hin Heq. rewrite map_app in Hnodup. cbn [map] in Hnodup.
  apply NoDup_remove_2 in Hnodup. apply Hnodup. rewrite <- Heq.
  apply in_or_app. destruct Hin as [Hin | Hin]; [left | right];
    apply in_map; exact Hin.
Qed.

Lemma get_after_arrival (now : datetime) (repo : CSVDataAdapter)
    (agv : AGV) (task : Task) :
  get_agv_by_id
    (update_agv (update_task repo (set_completed_at task (Some now)))
                (arrived agv task) now)
    (agv_id agv)
  = Some (set_last_update (arrived agv task) now).
Proof.
  apply (get_update_agv_same
           (update_task repo (set_completed_at task (Some now)))
           (arrived agv task) now).
Qed.

(** Part one of C5, for one AGV of the fleet. *)
Lemma movement_tick_arrival (now : datetime) (repo : CSVDataAdapter)
    (g : Random) (id tid : string) (a : AGV) (t : Task) :
  NoDup (map agv_id (_agvs repo)) ->
  get_agv_by_id repo id = Some a ->
  status a = MOVING \/ status a = TRANSPORTING ->
  current_task_id a = Some tid -> tid <> "" ->
  get_task_by_id repo tid = Some t ->
  distance_to (position a) (destination t) <= 5 ->
  get_agv_by_id (fst (simulate_agv_movement now (repo, g))) id
  = Some (set_last_update (arrived a t) now)
  /\ exists t',
       get_task_by_id (fst (simulate_agv_movement now (repo, g))) tid
       = Some t'
       /\ destination t' = destination t
       /\ completed_at t' = Some now.
Proof.
  intros Hnodup Hget Hstatus Hcur Hne Htask Hdist.
  pose proof (get_agv_by_id_key _ _ _ Hget) as Hid.
  destruct (in_split _ _ (get_agv_by_id_in _ _ _ Hget))
    as (pre & post & Hsplit).
  rewrite Hsplit in Hnodup.
  unfold simulate_agv_movement, get_all_agvs. cbn [fst].
  rewrite Hsplit, fold_left_app. cbn [fold_left].
  assert (Hpre : forall e, In e pre -> agv_id e <> id).
  { intros e Hin. rewrite <- Hid.
    apply (keys_distinct_split pre post a e Hnodup). left. exact Hin. }
  assert (Hpost : forall e, In e post -> agv_id e <> id).
  { intros e Hin. rewrite <- Hid.
    apply (keys_distinct_split pre post a e Hnodup). right. exact Hin. }
  destruct (movement_loop_keeps_task now tid
              (fun t' => destination t' = destination t)
              (fun u Hu => Hu) pre (repo, g)
              (ex_intro _ t (conj Htask eq_refl)))
    as (t1 & Htask1 & Hdest1).
  destruct (fold_left (fun s e => movement_step now e s) pre (repo, g))
    as [repo1 g1] eqn:Epre.
  cbn [fst] in Htask1.
  rewrite (movement_step_arrival now a repo1 g1 tid t1 Hstatus Hcur Hne
             Htask1)
    by (rewrite Hdest1; exact Hdist).
  assert (Harrived : arrived a t1 = arrived a t)
    by (unfold arrived; rewrite Hdest1; reflexivity).
  split.
  - rewrite (loop_keeps_other (movement_step now)
               (movement_step_writes_back now) id post _ Hpost).
    cbn [fst]. rewrite <- Hid, <- Harrived. apply get_after_arrival.
  - destruct (movement_loop_keeps_task now tid
                (fun t' => destination t' = destination t
                           /\ completed_at t' = Some now)
                (fun u Hu => conj (proj1 Hu) eq_refl) post
                (update_agv
                   (update_task repo1 (set_completed_at t1 (Some now)))
                   (arrived a t1) now, g1))
      as (t' & Hget' & Hdest' & Hdone').
    + exists (set_completed_at t1 (Some now)). cbn [fst].
      split; [| split; [exact Hdest1 | reflexivity]].
      rewrite <- (get_task_by_id_key _ _ _ Htask1).
      apply (get_update_task_same repo1 (set_completed_at t1 (Some now))).
    + exists t'. repeat split; assumption.
Qed.

(** Part two of C5: while the loop runs, the task stored under [tid] is
    either not yet completed or an AGV already passed owns it and stands at
    its destination. *)
Lemma movement_loop_owner (now : datetime) (tid : string) (d : Position)
    (todo : list AGV) :
  forall (done : list AGV) (st : CSVDataAdapter * Random),
    NoDup (map agv_id (done ++ todo)) ->
    (exists t1, get_task_by_id (fst st) tid = Some t1 /\ destination t1 = d) ->
    ((exists t1,
         get_task_by_id (fst st) tid = Some t1 /\ completed_at t1 = None)
     \/ exists owner owner',
          In owner done /\ current_task_id owner = Some tid
          /\ get_agv_by_id (fst st) (agv_id owner) = Some owner'
          /\ position owner' = Position_init (x d) (y d)) ->
    (exists t1,
        get_task_by_id
          (fst (fold_left (fun s a => movement_step now a s) todo st)) tid
        = Some t1
        /\ completed_at t1 = None)
    \/ exists owner owner',
         In owner (done ++ todo) /\ current_task_id owner = Some tid
         /\ get_agv_by_id
              (fst (fold_left (fun s a => movement_step now a s) todo st))
              (agv_id owner)
            = Some owner'
         /\ position owner' = Position_init (x d) (y d).
Proof.
  induction todo as [| e todo IH]; intros done st Hnodup Hdest Hinv.
  - cbn [fold_left]. rewrite app_nil_r. exact Hinv.
  - cbn [fold_left].
    replace (done ++ e :: todo) with ((done ++ [e]) ++ todo) in *
      by (rewrite <- app_assoc; reflexivity).
    apply IH; [exact Hnodup | |].
    + apply (movement_step_keeps_task now tid (fun t' => destination t' = d)
               (fun u Hu => Hu) e st Hdest).
    + assert (Hkeep :
                forall owner owner',
                  In owner done ->
                  get_agv_by_id (fst st) (agv_id owner) = Some owner' ->
                  get_agv_by_id (fst (movement_step now e st))
                                (agv_id owner)
                  = Some owner').
      { intros owner owner' Hin Hget.
        rewrite (step_keeps_other (movement_step now)
                   (movement_step_writes_back now)); [exact Hget |].
        intros Heq. rewrite <- app_assoc in Hnodup.
        apply (keys_distinct_split done todo e owner Hnodup);
          [left; exact Hin | congruence]. }
      assert (Hright :
                forall owner owner',
                  In owner done -> current_task_id owner = Some tid ->
                  get_agv_by_id (fst st) (agv_id owner) = Some owner' ->
                  position owner' = Position_init (x d) (y d) ->
                  exists owner0 owner0',
                    In owner0 (done ++ [e])
                    /\ current_task_id owner0 = Some tid
                    /\ get_agv_by_id (fst (movement_step now e st))
                                     (agv_id owner0)
                       = Some owner0'
                    /\ position owner0' = Position_init (x d) (y d)).
      { intros owner owner' Hin Hcur Hget Hpos. exists owner, owner'.
        repeat split; try assumption.
        - apply in_or_app. left. exact Hin.
        - apply Hkeep; assumption. }
      destruct (movement_step_tasks now e st)
        as [E | (tid1 & task & Hcur & Htask & E)].
      * destruct Hinv as [(t1 & Hget & Hnone)
                         | (owner & owner' & Hin & Hc & Hget & Hpos)].
        -- left. exists t1. split; [| exact Hnone].
           unfold get_task_by_id in *. rewrite E. exact Hget.
        -- right. apply (Hright owner owner'); assumption.
      * destruct (String.eqb_spec tid tid1) as [Heq | Hneq].
        -- subst tid1. right. exists e, (set_last_update (arrived e task) now).
           destruct Hdest as (t1 & Hget1 & Hd1).
           rewrite Hget1 in Htask. injection Htask as <-.
           split; [apply in_or_app; right; left; reflexivity |].
           split; [exact Hcur |].
           split; [rewrite E; cbn [fst]; apply get_after_arrival |].
           cbn [set_last_update arrived set_current_task_id set_status
                set_position position].
           rewrite Hd1. reflexivity.
        -- assert (Hsame :
                     get_task_by_id (fst (movement_step now e st)) tid
                     = get_task_by_id (fst st) tid).
           { rewrite E. cbn [fst].
             change (get_task_by_id (update_agv ?r ?a ?n) tid)
               with (get_task_by_id r tid).
             apply get_update_task_other.
             cbn [set_completed_at task_id].
             rewrite (get_task_by_id_key _ _ _ Htask). exact Hneq. }
           destruct Hinv as [(t1 & Hget & Hnone)
                            | (owner & owner' & Hin & Hc & Hget & Hpos)].
           ++ left. exists t1. split; [| exact Hnone].
              rewrite Hsame. exact Hget.
           ++ right. apply (Hright owner owner'); assumption.
Qed.

(** C5: in a movement tick an AGV that is MOVING or TRANSPORTING towards a
    task known to the repository and has at most 5 units left ends the tick
    at the coordinates of the task's destination (at the destination itself
    when that carries no zone label, as every position the system builds),
    IDLE and without current task, and the task is stamped as completed at
    the time of the tick.
    Conversely, a task that the tick turns from open to completed is the
    current task of an AGV which after the tick stands at the coordinates
    of the task's destination. *)
Theorem arrival_snaps_to_destination (now : datetime)
    (repo : CSVDataAdapter) (g : Random) :
  NoDup (map agv_id (_agvs repo)) ->
  let repo' := fst (simulate_agv_movement now (repo, g)) in
  (forall (id tid : string) (a : AGV) (t : Task),
      get_agv_by_id repo id = Some a ->
      status a = MOVING \/ status a = TRANSPORTING ->
      current_task_id a = Some tid -> tid <> "" ->
      get_task_by_id repo tid = Some t ->
      distance_to (position a) (destination t) <= 5 ->
      exists a' t',
        get_agv_by_id repo' id = Some a'
        /\ position a'
           = Position_init (x (destination t)) (y (destination t))
        /\ x (position a') = x (destination t)
        /\ y (position a') = y (destination t)
        /\ (zone (destination t) = "" -> position a' = destination t)
        /\ status a' = IDLE
        /\ current_task_id a' = None
        /\ get_task_by_id repo' tid = Some t'
        /\ completed_at t' = Some now
        /\ destination t' = destination t)
  /\ (forall (tid : string) (t t' : Task),
        get_task_by_id repo tid = Some t -> completed_at t = None ->
        get_task_by_id repo' tid = Some t' -> completed_at t' <> None ->
        exists owner owner',
          In owner (_agvs repo)
          /\ current_task_id owner = Some tid
          /\ get_agv_by_id repo' (agv_id owner) = Some owner'
          /\ x (position owner') = x (destination t')
          /\ y (position owner') = y (destination t')).
Proof.
  intros Hnodup repo'. subst repo'. split.
  - intros id tid a t Hget Hstatus Hcur Hne Htask Hdist.
    destruct (movement_tick_arrival now repo g id tid a t Hnodup Hget
                Hstatus Hcur Hne Htask Hdist)
      as (Ha & t' & Ht' & Hdest & Hdone).
    exists (set_last_update (arrived a t) now), t'.
    repeat split; try assumption.
    intros Hzone.
    cbn [set_last_update arrived set_current_task_id set_status
         set_position position Position_init].
    destruct (destination t) as [dx dy dz]. cbn [x y zone] in *.
    rewrite Hzone. reflexivity.
  - intros tid t t' Hget Hnone Hget' Hdone.
    pose proof (movement_loop_keeps_task now tid
                  (fun u => destination u = destination t)
                  (fun u Hu => Hu) (_agvs repo) (repo, g)
                  (ex_intro _ t (conj Hget eq_refl))) as (u & Hu & Hdest).
    destruct (movement_loop_owner now tid (destination t) (_agvs repo) []
                (repo, g) Hnodup
                (ex_intro _ t (conj Hget eq_refl))
                (or_introl (ex_intro _ t (conj Hget Hnone))))
      as [(t1 & Hget1 & Hnone1) | (owner & owner' & Hin & Hc & Ho & Hpos)].
    + unfold simulate_agv_movement, get_all_agvs in Hget'. cbn [fst] in Hget'.
      rewrite Hget1 in Hget'. injection Hget' as <-. contradiction.
    + unfold simulate_agv_movement, get_all_agvs in Hget'. cbn [fst] in Hget'.
      rewrite Hu in Hget'. injection Hget' as <-.
      exists owner, owner'. cbn [app] in Hin.
      unfold simulate_agv_movement, get_all_agvs. cbn [fst].
      repeat split; try assumption; rewrite Hpos, Hdest; reflexivity.
Qed.

Lemma arrival_snaps_to_destination_witness :
  NoDup (map agv_id (_agvs yard_under_way))
  /\ exists a' t',
       get_agv_by_id
         (fst (simulate_agv_movement 9%nat (yard_under_way, steady_random)))
         "AGV-M"
       = Some a'
       /\ position a' = Position_init 100 0
       /\ x (position a') = 100
       /\ y (position a') = 0
       /\ (zone quay = "" -> position a' = quay)
       /\ status a' = IDLE
       /\ current_task_id a' = None
       /\ get_task_by_id
            (fst (simulate_agv_movement 9%nat
                    (yard_under_way, steady_random)))
            "TSK-2"
          = Some t'
       /\ completed_at t' = Some 9%nat
       /\ destination t' = quay.
Proof.
  assert (Hnodup : NoDup (map agv_id (_agvs yard_under_way))).
  { cbn [yard_under_way _agvs map agv_id agv_a agv_m]. constructor.
    - intros [E | []]. discriminate E.
    - constructor; [intros [] | constructor]. }
  split; [exact Hnodup |].
  destruct (arrival_snaps_to_destination 9%nat yard_under_way steady_random
              Hnodup) as [Harrive _].
  apply (Harrive "AGV-M" "TSK-2" agv_m task_2).
  - reflexivity.
  - left. reflexivity.
  - reflexivity.
  - discriminate.
  - reflexivity.
  - change (position agv_m) with (mkPosition 98 0 "").
    change (destination task_2) with (mkPosition 100 0 "").
    rewrite distance_to_horizontal by lra. lra.
Defined.

(** ** What the assignment loop does guarantee

    The pairs committed by one run of the loop are taken from the
    recommendation, in order and each at most once.  The report therefore
    names no AGV twice (the keys of a dictionary are distinct), and it names
    no task twice provided the recommendation does not. *)

Lemma assign_loop_picks (self : FleetOrchestrationService) (now : datetime)
    (items : list (string * string)) :
  forall (acc asg : list Assignment) (repo repo' : CSVDataAdapter),
    assign_loop self now items acc repo = (Ok asg, repo') ->
    exists picked,
      asg = acc ++ picked
      /\ (forall p, In p picked -> In (asg_agv_id p, asg_task_id p) items)
      /\ (NoDup (map fst items) -> NoDup (map asg_agv_id picked))
      /\ (NoDup (map snd items) -> NoDup (map asg_task_id picked)).
Proof.
  induction items as [| [aid tid] rest IH]; intros acc asg repo repo' Hrun.
  - cbn [assign_loop] in Hrun. injection Hrun as <- _.
    exists []. rewrite app_nil_r.
    repeat split; try constructor. intros p [].
  - assert (Hskip :
              assign_loop self now rest acc repo = (Ok asg, repo') ->
              exists picked,
                asg = acc ++ picked
                /\ (forall p, In p picked ->
                      In (asg_agv_id p, asg_task_id p) ((aid, tid) :: rest))
                /\ (NoDup (map fst ((aid, tid) :: rest)) ->
                    NoDup (map asg_agv_id picked))
                /\ (NoDup (map snd ((aid, tid) :: rest)) ->
                    NoDup (map asg_task_id picked))).
    { intros Hrest.
      destruct (IH _ _ _ _ Hrest) as (picked & Hasg & Hin & Hagv & Htask).
      exists picked. split; [exact Hasg |].
      split; [intros p Hp; right; apply Hin; exact Hp |].
      split; intros Hnodup; inversion Hnodup; subst; auto. }
    cbn [assign_loop] in Hrun.
    destruct (get_agv_by_id repo aid) as [agv |]; [| auto].
    destruct (get_task_by_id repo tid) as [task |]; [| auto].
    destruct (can_reach agv (destination task)); [| auto].
    destruct (route_optimizer self) as [optimizer |]; [| discriminate Hrun].
    destruct (optimize_route optimizer _ _ now) as [route | e];
      [| discriminate Hrun].
    destruct (IH _ _ _ _ Hrun) as (picked & Hasg & Hin & Hagv & Htask).
    exists (mkAssignment aid tid route (estimated_time route) :: picked).
    split; [rewrite Hasg, <- app_assoc; reflexivity |].
    split.
    { intros p [<- | Hp]; [left; reflexivity | right; apply Hin; exact Hp]. }
    split; intros Hnodup; cbn [map fst snd] in Hnodup;
      inversion Hnodup as [| ? ? Hnot Hrest]; subst;
      cbn [map asg_agv_id asg_task_id]; constructor; auto.
    + intros Hmem. apply Hnot. apply in_map_iff in Hmem.
      destruct Hmem as (p & Hid & Hp). apply in_map_iff.
      exists (asg_agv_id p, asg_task_id p). split; [exact Hid |].
      apply Hin. exact Hp.
    + intros Hmem. apply Hnot. apply in_map_iff in Hmem.
      destruct Hmem as (p & Hid & Hp). apply in_map_iff.
      exists (asg_agv_id p, asg_task_id p). split; [exact Hid |].
      apply Hin. exact Hp.
Qed.

Lemma assign_optimal_tasks_distinct (self : FleetOrchestrationService)
    (analytics : AIAnalyticsPort) (items : list (string * string))
    (repo repo' : CSVDataAdapter) (now : datetime)
    (report : AssignmentReport) :
  ai_analytics self = Some analytics ->
  recommend_task_assignment analytics (get_available_agvs repo)
                            (get_pending_tasks repo)
  = Ok (ReplyDict items) ->
  NoDup (map fst items) ->
  assign_optimal_tasks self repo now = (Ok report, repo') ->
  NoDup (map asg_agv_id (assignments report))
  /\ (NoDup (map snd items) -> NoDup (map asg_task_id (assignments report))).
Proof.
  intros Hai Hrec Hkeys Hrun. unfold assign_optimal_tasks in Hrun.
  destruct (get_available_agvs repo) as [| a la].
  { injection Hrun as <- _. split; intros; constructor. }
  destruct (get_pending_tasks repo) as [| t lt].
  { injection Hrun as <- _. split; intros; constructor. }
  rewrite Hai, Hrec in Hrun.
  destruct (assign_loop self now items [] repo) as [[asg | e] repo1] eqn:E;
    [| discriminate Hrun].
  injection Hrun as <- _. cbn [assignments].
  destruct (assign_loop_picks self now items [] asg repo repo1 E)
    as (picked & Hasg & _ & Hagv & Htask).
  cbn [app] in Hasg. subst asg. split; auto.
Qed.

(** * Further properties *)

(** ** Tasks *)

(** X1: for a task with a positive estimated duration that was not started
    in the future, the progress is a percentage: it lies in [0, 100], is
    100 once the task is completed and 0 while it is neither started nor
    completed. *)
Theorem progress_percentage_bounds (t : Task) (now : datetime) :
  estimated_duration t > 0 ->
  (forall s, started_at t = Some s -> (s <= now)%nat) ->
  exists p,
    get_progress_percentage t now = Some p
    /\ 0 <= p <= 100
    /\ (is_completed t = true -> p = 100)
    /\ (started_at t = None -> is_completed t = false -> p = 0).
Proof.
  intros Hdur Hstart. unfold get_progress_percentage.
  destruct (is_in_progress t) eqn:Hprog; cbn [negb].
  - destruct (started_at t) as [s |] eqn:Hs.
    + destruct (Req_dec_T (estimated_duration t) 0) as [E | _]; [lra |].
      assert (Hle : INR s <= INR now) by (apply le_INR, Hstart; reflexivity).
      assert (Hq : 0 <= (INR now - INR s) / 60 / estimated_duration t * 100).
      { apply Rmult_le_pos; [| lra].
        apply Rmult_le_pos; [lra |].
        apply Rlt_le, Rinv_0_lt_compat. lra. }
      eexists. split; [reflexivity |].
      split; [unfold Rmin; destruct (Rle_dec _ _); lra |].
      split.
      * intros Hc. unfold is_in_progress in Hprog.
        unfold is_completed in Hc. rewrite Hs in Hprog.
        destruct (completed_at t); cbn in Hprog, Hc; discriminate.
      * intros Hnone. discriminate Hnone.
    + unfold is_in_progress in Hprog. rewrite Hs in Hprog.
      cbn in Hprog. discriminate.
  - destruct (is_completed t) eqn:Hc; cbn [negb].
    + exists 100. repeat split; try lra; try (intros; discriminate).
    + exists 0. repeat split; try lra; try (intros; discriminate).
Qed.

Lemma progress_percentage_bounds_witness :
  let t := set_started_at (set_assigned_agv_id task_1 (Some "AGV-A"))
                          (Some 60%nat) in
  (estimated_duration t > 0
   /\ (forall s, started_at t = Some s -> (s <= 120)%nat))
  /\ exists p,
       get_progress_percentage t 120%nat = Some p /\ 0 <= p <= 100.
Proof.
  intros t.
  assert (Hd : estimated_duration t > 0) by (cbn; lra).
  assert (Hs : forall s, started_at t = Some s -> (s <= 120)%nat).
  { intros s E. cbn in E. injection E as <-. lia. }
  split; [split; assumption |].
  destruct (progress_percentage_bounds t 120%nat Hd Hs)
    as (p & Hp & Hrange & _).
  exists p. split; assumption.
Defined.

(** X2: the constructor never yields a task of duration zero: the default
    0.0 is replaced by the travel time plus five minutes, at least 5, and
    any other value is kept; so the progress of a constructed task never
    divides by zero. *)
Theorem task_init_estimated_duration (id descr : string)
    (org dst : Position) (prio : TaskPriority) (cont agv : option string)
    (created started completed : option datetime) (d : R)
    (now : datetime) :
  let t := Task_init id descr org dst prio cont agv created started
                     completed d now in
  (d = 0 ->
   estimated_duration t = distance_to org dst / 1000 / 20 * 60 + 5
   /\ estimated_duration t >= 5)
  /\ (d <> 0 -> estimated_duration t = d)
  /\ estimated_duration t <> 0
  /\ forall later, get_progress_percentage t later <> None.
Proof.
  intros t.
  pose proof (distance_to_nonneg org dst) as Hpos.
  assert (Hzero :
            d = 0 ->
            estimated_duration t = distance_to org dst / 1000 / 20 * 60 + 5
            /\ estimated_duration t >= 5).
  { intros ->. unfold t, Task_init. cbn [estimated_duration].
    destruct (Req_dec_T 0 0) as [_ | N]; [| contradiction].
    split; [reflexivity | lra]. }
  assert (Hkeep : d <> 0 -> estimated_duration t = d).
  { intros N. unfold t, Task_init. cbn [estimated_duration].
    destruct (Req_dec_T d 0) as [E | _]; [contradiction | reflexivity]. }
  assert (Hne : estimated_duration t <> 0).
  { destruct (Req_dec_T d 0) as [E | N].
    - destruct (Hzero E) as [_ H5]. lra.
    - rewrite (Hkeep N). exact N. }
  repeat split; try assumption; try (apply Hzero; assumption).
  intros later. unfold get_progress_percentage.
  destruct (negb (is_in_progress t)); [discriminate |].
  destruct (started_at t); [| discriminate].
  destruct (Req_dec_T (estimated_duration t) 0); [contradiction |].
  discriminate.
Qed.

(** ** Distances and routes *)

Lemma fold_left_distance_shift (l : list (Position * Position)) (c : R) :
  fold_left (fun total_dist pq => total_dist + distance_to (fst pq) (snd pq))
            l c
  = c + fold_left (fun total_dist pq =>
                     total_dist + distance_to (fst pq) (snd pq)) l 0.
Proof.
  revert c. induction l as [| pq l IH]; intros c; cbn [fold_left].
  - lra.
  - rewrite IH. rewrite (IH (0 + _)). lra.
Qed.

Lemma segments_length_cons (a b : Position) (l : list Position) :
  segments_length (a :: b :: l)
  = distance_to a b + segments_length (b :: l).
Proof.
  unfold segments_length. cbn [tl combine fold_left fst snd].
  rewrite fold_left_distance_shift. lra.
Qed.

Lemma segments_length_single (a : Position) : segments_length [a] = 0.
Proof. reflexivity. Qed.

Lemma segments_length_snoc (l : list Position) (a p : Position) :
  segments_length ((a :: l) ++ [p])
  = segments_length (a :: l) + distance_to (last (a :: l) p) p.
Proof.
  revert a. induction l as [| b l IH]; intros a.
  - cbn [app]. rewrite segments_length_cons, !segments_length_single.
    cbn [last]. lra.
  - change ((a :: b :: l) ++ [p]) with (a :: ((b :: l) ++ [p])).
    change ((b :: l) ++ [p]) with (b :: (l ++ [p])).
    rewrite segments_length_cons.
    change (b :: (l ++ [p])) with ((b :: l) ++ [p]).
    rewrite IH, segments_length_cons.
    change (last (a :: b :: l) p) with (last (b :: l) p). lra.
Qed.

(** X4: [add_waypoint] appends the waypoint.  On a route without waypoints
    the three metrics stay as they were; otherwise the total distance
    becomes the length of the old path plus the new segment, and time and
    battery consumption are rederived from it (20 km/h, one point per 100
    units). *)
Theorem add_waypoint_metrics (r : Route) (p : Position) :
  let r' := add_waypoint r p in
  waypoints r' = waypoints r ++ [p]
  /\ (waypoints r = [] ->
      total_distance r' = total_distance r
      /\ estimated_time r' = estimated_time r
      /\ fuel_consumption r' = fuel_consumption r)
  /\ (waypoints r <> [] ->
      total_distance r'
      = segments_length (waypoints r)
        + distance_to (last (waypoints r) p) p
      /\ estimated_time r' = total_distance r' / 1000 / 20 * 60
      /\ fuel_consumption r' = total_distance r' / 100).
Proof.
  intros r'. subst r'. unfold add_waypoint, _recalculate_metrics.
  cbn [waypoints]. destruct (waypoints r) as [| a l] eqn:Hw.
  - cbn [app List.length Nat.ltb Nat.leb]. cbn [waypoints total_distance
      estimated_time fuel_consumption].
    repeat split; try reflexivity; try congruence.
  - assert (Hlen : (List.length ((a :: l) ++ [p]) <? 2)%nat = false).
    { apply Nat.ltb_ge. rewrite length_app. cbn [List.length]. lia. }
    rewrite Hlen. cbn [waypoints total_distance estimated_time
                       fuel_consumption].
    split; [reflexivity |]. split; [intros E; discriminate E |].
    intros _. rewrite segments_length_snoc.
    repeat split; try reflexivity. field.
Qed.

Lemma add_waypoint_metrics_witness :
  let r := mkRoute "R-1" "AGV-A" "TSK-1" [depot] 0 0 0 0%nat in
  waypoints r <> []
  /\ total_distance (add_waypoint r quay)
     = segments_length (waypoints r)
       + distance_to (last (waypoints r) quay) quay
  /\ estimated_time (add_waypoint r quay)
     = total_distance (add_waypoint r quay) / 1000 / 20 * 60
  /\ fuel_consumption (add_waypoint r quay)
     = total_distance (add_waypoint r quay) / 100.
Proof.
  intros r.
  assert (Hne : waypoints r <> []) by discriminate.
  split; [exact Hne |].
  destruct (add_waypoint_metrics r quay) as (_ & _ & Hmetrics).
  exact (Hmetrics Hne).
Defined.

(** ** The repository: creation, deletion, keys *)

Lemma find_task_none_store (d : list Task) (task : Task) :
  find (fun t => String.eqb (task_id t) (task_id task)) d = None ->
  store_task d task = d ++ [task].
Proof.
  induction d as [| t d IH]; cbn [find store_task app]; [reflexivity |].
  destruct (String.eqb (task_id t) (task_id task)); [discriminate |].
  intros H. rewrite (IH H). reflexivity.
Qed.

Lemma find_agv_none_store (d : list AGV) (agv : AGV) :
  find (fun a => String.eqb (agv_id a) (agv_id agv)) d = None ->
  store_agv d agv = d ++ [agv].
Proof.
  induction d as [| a d IH]; cbn [find store_agv app]; [reflexivity |].
  destruct (String.eqb (agv_id a) (agv_id agv)); [discriminate |].
  intros H. rewrite (IH H). reflexivity.
Qed.

(** X6: [create_task] followed by [get_task_by_id].  Under a new key the
    task is stored last and read back unchanged, every other key reads as
    before, and the returned flag is the outcome of the save alone (a
    failed save still leaves the task in memory); under a key already in
    use nothing changes and the flag is [False]. *)
Theorem create_task_then_get (repo : CSVDataAdapter) (task : Task)
    (saved : bool) :
  (get_task_by_id repo (task_id task) = None ->
   fst (create_task repo task saved) = saved
   /\ get_task_by_id (snd (create_task repo task saved)) (task_id task)
      = Some task
   /\ _tasks (snd (create_task repo task saved)) = _tasks repo ++ [task]
   /\ _agvs (snd (create_task repo task saved)) = _agvs repo
   /\ forall id, id <> task_id task ->
        get_task_by_id (snd (create_task repo task saved)) id
        = get_task_by_id repo id)
  /\ (forall old, get_task_by_id repo (task_id task) = Some old ->
        create_task repo task saved = (false, repo)).
Proof.
  unfold create_task. split.
  - intros Hnew. rewrite Hnew. cbn [fst snd].
    split; [reflexivity |].
    split; [apply (get_update_task_same repo task) |].
    split; [cbn [_tasks]; apply find_task_none_store; exact Hnew |].
    split; [reflexivity |].
    intros id Hne. apply (get_update_task_other repo task id Hne).
  - intros old Hold. rewrite Hold. reflexivity.
Qed.

Lemma create_task_then_get_witness :
  let t := mkTask "TSK-9" "Nueva tarea" depot quay LOW None None 0%nat
                  None None 5.3 in
  get_task_by_id yard (task_id t) = None
  /\ fst (create_task yard t false) = false
  /\ get_task_by_id (snd (create_task yard t false)) (task_id t) = Some t
  /\ _tasks (snd (create_task yard t false)) = _tasks yard ++ [t].
Proof.
  intros t.
  assert (Hnew : get_task_by_id yard (task_id t) = None) by reflexivity.
  split; [exact Hnew |].
  destruct (proj1 (create_task_then_get yard t false) Hnew)
    as (Hflag & Hget & Hlist & _).
  repeat split; assumption.
Defined.

Lemma find_drop_task_same (d : list Task) (id : string) :
  NoDup (map task_id d) ->
  find (fun t => String.eqb (task_id t) id) (drop_task d id) = None.
Proof.
  induction d as [| t d IH]; cbn [map drop_task find]; [reflexivity |].
  intros Hnodup. inversion Hnodup as [| ? ? Hnot Hrest]; subst.
  destruct (String.eqb_spec (task_id t) id) as [E | NE].
  - destruct (find (fun u => String.eqb (task_id u) id) d) as [u |] eqn:Hf;
      [| reflexivity].
    exfalso. apply find_some in Hf. destruct Hf as [Hin Hid].
    apply String.eqb_eq in Hid. apply Hnot. rewrite E, <- Hid.
    apply in_map. exact Hin.
  - cbn [find]. destruct (String.eqb_spec (task_id t) id); [contradiction |].
    apply IH. exact Hrest.
Qed.

Lemma find_drop_task_other (d : list Task) (id other : string) :
  other <> id ->
  find (fun t => String.eqb (task_id t) other) (drop_task d id)
  = find (fun t => String.eqb (task_id t) other) d.
Proof.
  intros Hne. induction d as [| t d IH]; cbn [drop_task find];
    [reflexivity |].
  destruct (String.eqb_spec (task_id t) id) as [E | NE].
  - destruct (String.eqb_spec (task_id t) other); [congruence | reflexivity].
  - cbn [find]. destruct (String.eqb (task_id t) other);
      [reflexivity | exact IH].
Qed.

Lemma drop_task_length (d : list Task) (id : string) (t : Task) :
  find (fun u => String.eqb (task_id u) id) d = Some t ->
  S (List.length (drop_task d id)) = List.length d.
Proof.
  induction d as [| u d IH]; cbn [find drop_task List.length];
    [discriminate |].
  destruct (String.eqb (task_id u) id); [reflexivity |].
  intros H. cbn [List.length]. rewrite (IH H). reflexivity.
Qed.

(** X7: [delete_task] on a repository with distinct task keys.  A known
    key is gone afterwards, exactly one task less is stored and every other
    key reads as before; an unknown key changes nothing and yields
    [False]. *)
Theorem delete_task_then_get (repo : CSVDataAdapter) (id : string)
    (saved : bool) :
  NoDup (map task_id (_tasks repo)) ->
  (forall t, get_task_by_id repo id = Some t ->
     fst (delete_task repo id saved) = saved
     /\ get_task_by_id (snd (delete_task repo id saved)) id = None
     /\ S (List.length (_tasks (snd (delete_task repo id saved))))
        = List.length (_tasks repo)
     /\ forall other, other <> id ->
          get_task_by_id (snd (delete_task repo id saved)) other
          = get_task_by_id repo other)
  /\ (get_task_by_id repo id = None ->
      delete_task repo id saved = (false, repo)).
Proof.
  intros Hnodup. unfold delete_task. split.
  - intros t Hget. rewrite Hget. cbn [fst snd].
    split; [reflexivity |].
    split; [apply find_drop_task_same; exact Hnodup |].
    split; [cbn [_tasks]; apply (drop_task_length _ _ t); exact Hget |].
    intros other Hne. apply find_drop_task_other. exact Hne.
  - intros Hnone. rewrite Hnone. reflexivity.
Qed.

Lemma delete_task_then_get_witness :
  (NoDup (map task_id (_tasks yard_under_way))
   /\ get_task_by_id yard_under_way "TSK-1" = Some task_1)
  /\ get_task_by_id (snd (delete_task yard_under_way "TSK-1" true)) "TSK-1"
     = None
  /\ get_task_by_id (snd (delete_task yard_under_way "TSK-1" true)) "TSK-2"
     = get_task_by_id yard_under_way "TSK-2".
Proof.
  assert (Hnodup : NoDup (map task_id (_tasks yard_under_way))).
  { cbn [yard_under_way _tasks map task_id task_1 task_2]. constructor.
    - intros [E | []]. discriminate E.
    - constructor; [intros [] | constructor]. }
  assert (Hget : get_task_by_id yard_under_way "TSK-1" = Some task_1)
    by reflexivity.
  split; [split; assumption |].
  destruct (proj1 (delete_task_then_get yard_under_way "TSK-1" true Hnodup)
              task_1 Hget) as (_ & Hgone & _ & Hother).
  split; [exact Hgone |]. apply Hother. discriminate.
Defined.

Lemma agv_key_known (d : list AGV) (id : string) :
  find (fun a => String.eqb (agv_id a) id) d = None ->
  ~ In id (map agv_id d).
Proof.
  induction d as [| a d IH]; cbn [find map In]; [intros _ [] |].
  destruct (String.eqb_spec (agv_id a) id) as [E | NE]; [discriminate |].
  intros H [E | Hin]; [contradiction | exact (IH H Hin)].
Qed.

Lemma task_key_known (d : list Task) (id : string) :
  find (fun t => String.eqb (task_id t) id) d = None ->
  ~ In id (map task_id d).
Proof.
  induction d as [| t d IH]; cbn [find map In]; [intros _ [] |].
  destruct (String.eqb_spec (task_id t) id) as [E | NE]; [discriminate |].
  intros H [E | Hin]; [contradiction | exact (IH H Hin)].
Qed.

Lemma store_task_ids (d : list Task) (task : Task) :
  In (task_id task) (map task_id d) ->
  map task_id (store_task d task) = map task_id d.
Proof.
  induction d as [| t d IH]; cbn [map In store_task]; [intros [] |].
  intros Hin.
  destruct (String.eqb_spec (task_id t) (task_id task)) as [E | NE];
    cbn [map].
  - rewrite E. reflexivity.
  - f_equal. apply IH. destruct Hin as [E | Hin]; [congruence | exact Hin].
Qed.

Lemma NoDup_snoc {A : Type} (l : list A) (a : A) :
  NoDup l -> ~ In a l -> NoDup (l ++ [a]).
Proof.
  induction l as [| b l IH]; cbn [app]; intros Hnodup Hnot.
  - constructor; [intros [] | constructor].
  - inversion Hnodup as [| ? ? Hb Hl]; subst. constructor.
    + intros Hin. apply in_app_or in Hin. destruct Hin as [Hin | [E | []]].
      * exact (Hb Hin).
      * apply Hnot. left. symmetry. exact E.
    + apply IH; [exact Hl |]. intros Hin. apply Hnot. right. exact Hin.
Qed.

Lemma store_agv_distinct (d : list AGV) (agv : AGV) :
  NoDup (map agv_id d) -> NoDup (map agv_id (store_agv d agv)).
Proof.
  intros Hnodup.
  destruct (find (fun a => String.eqb (agv_id a) (agv_id agv)) d)
    as [old |] eqn:Hfind.
  - rewrite store_agv_ids; [exact Hnodup |].
    pose proof (find_some _ _ Hfind) as [Hin Hid].
    apply String.eqb_eq in Hid. rewrite <- Hid. apply in_map. exact Hin.
  - rewrite (find_agv_none_store _ _ Hfind), map_app. cbn [map].
    apply NoDup_snoc; [exact Hnodup | apply agv_key_known; exact Hfind].
Qed.

Lemma store_task_distinct (d : list Task) (task : Task) :
  NoDup (map task_id d) -> NoDup (map task_id (store_task d task)).
Proof.
  intros Hnodup.
  destruct (find (fun t => String.eqb (task_id t) (task_id task)) d)
    as [old |] eqn:Hfind.
  - rewrite store_task_ids; [exact Hnodup |].
    pose proof (find_some _ _ Hfind) as [Hin Hid].
    apply String.eqb_eq in Hid. rewrite <- Hid. apply in_map. exact Hin.
  - rewrite (find_task_none_store _ _ Hfind), map_app. cbn [map].
    apply NoDup_snoc; [exact Hnodup | apply task_key_known; exact Hfind].
Qed.

Lemma drop_task_distinct (d : list Task) (id : string) :
  NoDup (map task_id d) -> NoDup (map task_id (drop_task d id)).
Proof.
  induction d as [| t d IH]; cbn [map drop_task]; [intros H; exact H |].
  intros Hnodup. inversion Hnodup as [| ? ? Hnot Hrest]; subst.
  destruct (String.eqb (task_id t) id); [exact Hrest |].
  cbn [map]. constructor; [| apply IH; exact Hrest].
  intros Hin. apply Hnot. clear - Hin.
  induction d as [| u d IH]; cbn [drop_task map In] in *; [exact Hin |].
  destruct (String.eqb (task_id u) id); [right; exact Hin |].
  cbn [map In] in Hin. destruct Hin as [E | Hin]; [left; exact E |].
  right. apply IH. exact Hin.
Qed.

(** X8: every write operation of the repository keeps the keys of its two
    dictionaries distinct. *)
Theorem repository_keeps_keys_distinct (repo : CSVDataAdapter) :
  keys_distinct repo ->
  (forall agv now, keys_distinct (update_agv repo agv now))
  /\ (forall task, keys_distinct (update_task repo task))
  /\ (forall agv saved, keys_distinct (snd (create_agv repo agv saved)))
  /\ (forall task saved, keys_distinct (snd (create_task repo task saved)))
  /\ (forall id saved, keys_distinct (snd (delete_task repo id saved))).
Proof.
  intros [Hagvs Htasks]. repeat split.
  - apply (store_agv_distinct _ (set_last_update agv now) Hagvs).
  - exact Htasks.
  - exact Hagvs.
  - apply (store_task_distinct _ task Htasks).
  - unfold create_agv.
    destruct (get_agv_by_id repo (agv_id agv)); cbn [snd _agvs];
      [exact Hagvs | apply store_agv_distinct; exact Hagvs].
  - unfold create_agv.
    destruct (get_agv_by_id repo (agv_id agv)); exact Htasks.
  - unfold create_task.
    destruct (get_task_by_id repo (task_id task)); exact Hagvs.
  - unfold create_task.
    destruct (get_task_by_id repo (task_id task)); cbn [snd _tasks];
      [exact Htasks | apply store_task_distinct; exact Htasks].
  - unfold delete_task. destruct (get_task_by_id repo id); exact Hagvs.
  - unfold delete_task.
    destruct (get_task_by_id repo id); cbn [snd _tasks];
      [apply drop_task_distinct; exact Htasks | exact Htasks].
Qed.

Lemma yard_under_way_keys : keys_distinct yard_under_way.
Proof.
  split.
  - cbn [yard_under_way _agvs map agv_id agv_a agv_m]. constructor.
    + intros [E | []]. discriminate E.
    + constructor; [intros [] | constructor].
  - cbn [yard_under_way _tasks map task_id task_1 task_2]. constructor.
    + intros [E | []]. discriminate E.
    + constructor; [intros [] | constructor].
Qed.

Lemma repository_keeps_keys_distinct_witness :
  keys_distinct yard_under_way
  /\ keys_distinct (snd (create_agv yard_under_way agv_b true))
  /\ keys_distinct (snd (delete_task yard_under_way "TSK-2" true)).
Proof.
  split; [exact yard_under_way_keys |].
  destruct (repository_keeps_keys_distinct yard_under_way
              yard_under_way_keys) as (_ & _ & Hagv & _ & Hdel).
  split; [apply Hagv | apply Hdel].
Defined.

(** ** The engine never adds, removes or reorders entities *)

Lemma same_keys_refl (repo : CSVDataAdapter) : same_keys repo repo.
Proof. split; reflexivity. Qed.

Lemma same_keys_trans (r1 r2 r3 : CSVDataAdapter) :
  same_keys r1 r2 -> same_keys r2 r3 -> same_keys r1 r3.
Proof.
  intros [Ha Ht] [Ha' Ht']. split; congruence.
Qed.

Lemma get_agv_key_in (repo : CSVDataAdapter) (id : string) (a : AGV) :
  get_agv_by_id repo id = Some a -> In (agv_id a) (map agv_id (_agvs repo)).
Proof.
  intros H. apply in_map. apply (get_agv_by_id_in repo id a H).
Qed.

Lemma get_task_key_in (repo : CSVDataAdapter) (id : string) (t : Task) :
  get_task_by_id repo id = Some t ->
  In (task_id t) (map task_id (_tasks repo)).
Proof.
  unfold get_task_by_id. intros H. apply find_some in H.
  apply in_map. apply H.
Qed.

Lemma update_agv_same_keys (repo : CSVDataAdapter) (agv : AGV)
    (now : datetime) :
  In (agv_id agv) (map agv_id (_agvs repo)) ->
  same_keys repo (update_agv repo agv now).
Proof.
  intros Hin. split; [| reflexivity].
  unfold update_agv. cbn [_agvs]. apply store_agv_ids. exact Hin.
Qed.

Lemma update_task_same_keys (repo : CSVDataAdapter) (task : Task) :
  In (task_id task) (map task_id (_tasks repo)) ->
  same_keys repo (update_task repo task).
Proof.
  intros Hin. split; [reflexivity |].
  unfold update_task. cbn [_tasks]. apply store_task_ids. exact Hin.
Qed.

Lemma movement_step_same_keys (now : datetime) (agv : AGV)
    (st : CSVDataAdapter * Random) :
  In (agv_id agv) (map agv_id (_agvs (fst st))) ->
  same_keys (fst st) (fst (movement_step now agv st)).
Proof.
  intros Hin.
  destruct (movement_step_tasks now agv st)
    as [E | (tid & task & _ & Htask & E)].
  - split; [| rewrite E; reflexivity].
    apply (step_keeps_ids (movement_step now)
             (movement_step_writes_back now) agv st Hin).
  - rewrite E. cbn [fst].
    apply same_keys_trans
      with (r2 := update_task (fst st) (set_completed_at task (Some now))).
    + apply update_task_same_keys.
      apply (get_task_key_in (fst st) tid task Htask).
    + apply update_agv_same_keys. exact Hin.
Qed.

Lemma battery_step_same_keys (now : datetime) (agv : AGV)
    (st : CSVDataAdapter * Random) :
  In (agv_id agv) (map agv_id (_agvs (fst st))) ->
  same_keys (fst st) (fst (battery_step now agv st)).
Proof.
  intros Hin. split.
  - apply (step_keeps_ids (battery_step now)
             (battery_step_writes_back now) agv st Hin).
  - destruct st as [repo g]. unfold battery_step. cbn [fst].
    destruct (AGVStatus_eqb (status agv) CHARGING).
    + destruct (uniform 2 5 g). reflexivity.
    + destruct (AGVStatus_eqb (status agv) IDLE); [| reflexivity].
      destruct (uniform 0.01 0.05 g) as [u g1].
      destruct (Rltb _ 20); [destruct (random g1) |]; reflexivity.
Qed.

Lemma loop_same_keys
    (step : AGV -> CSVDataAdapter * Random -> CSVDataAdapter * Random) :
  (forall agv st,
      In (agv_id agv) (map agv_id (_agvs (fst st))) ->
      same_keys (fst st) (fst (step agv st))) ->
  forall (l : list AGV) (st : CSVDataAdapter * Random),
    incl (map agv_id l) (map agv_id (_agvs (fst st))) ->
    same_keys (fst st) (fst (fold_left (fun s a => step a s) l st)).
Proof.
  intros Hstep l. induction l as [| a l IH]; intros st Hincl.
  - apply same_keys_refl.
  - cbn [fold_left].
    assert (Ha : same_keys (fst st) (fst (step a st)))
      by (apply Hstep, Hincl; left; reflexivity).
    apply (same_keys_trans _ _ _ Ha). apply IH.
    destruct Ha as [Hids _]. rewrite Hids.
    intros i Hi. apply Hincl. right. exact Hi.
Qed.

Lemma simulation_round_same_keys (now : datetime)
    (st : CSVDataAdapter * Random) :
  same_keys (fst st) (fst (simulate_agv_movement now st))
  /\ same_keys (fst st) (fst (simulate_battery_changes now st))
  /\ same_keys (fst st) (fst (simulation_round now st)).
Proof.
  assert (Hmove : forall s, same_keys (fst s) (fst (simulate_agv_movement now s))).
  { intros s. unfold simulate_agv_movement, get_all_agvs.
    apply (loop_same_keys (movement_step now)
             (movement_step_same_keys now)). apply incl_refl. }
  assert (Hbat : forall s,
             same_keys (fst s) (fst (simulate_battery_changes now s))).
  { intros s. unfold simulate_battery_changes, get_all_agvs.
    apply (loop_same_keys (battery_step now)
             (battery_step_same_keys now)). apply incl_refl. }
  split; [apply Hmove |]. split; [apply Hbat |].
  unfold simulation_round.
  apply (same_keys_trans _ _ _ (Hmove st)). apply Hbat.
Qed.

Lemma run_simulation_same_keys (nows : list datetime) :
  forall st, same_keys (fst st) (fst (run_simulation nows st)).
Proof.
  unfold run_simulation.
  induction nows as [| now nows IH]; intros st; [apply same_keys_refl |].
  cbn [fold_left].
  apply (same_keys_trans _ _ _
           (proj2 (proj2 (simulation_round_same_keys now st)))).
  apply IH.
Qed.

Lemma assign_loop_same_keys (self : FleetOrchestrationService)
    (now : datetime) (items : list (string * string)) :
  forall (acc : list Assignment) (repo : CSVDataAdapter),
    same_keys repo (snd (assign_loop self now items acc repo)).
Proof.
  induction items as [| [aid tid] rest IH]; intros acc repo.
  - apply same_keys_refl.
  - cbn [assign_loop].
    destruct (get_agv_by_id repo aid) as [agv |] eqn:Hagv; [| apply IH].
    destruct (get_task_by_id repo tid) as [task |] eqn:Htask; [| apply IH].
    destruct (can_reach agv (destination task)); [| apply IH].
    cbv zeta.
    set (agv1 := set_status (set_current_task_id agv (Some tid)) MOVING).
    set (task1 := set_started_at (set_assigned_agv_id task (Some aid))
                                 (Some now)).
    set (repo1 := mutate_task (mutate_agv repo agv1) task1).
    assert (H1 : same_keys repo repo1).
    { split.
      - cbn [repo1 mutate_task mutate_agv _agvs]. apply store_agv_ids.
        apply (get_agv_key_in repo aid agv Hagv).
      - cbn [repo1 mutate_task mutate_agv _tasks]. apply store_task_ids.
        apply (get_task_key_in repo tid task Htask). }
    assert (H2 : same_keys repo1
                   (update_agv (update_task repo1 task1) agv1 now)).
    { destruct H1 as [Ha Ht].
      apply same_keys_trans with (r2 := update_task repo1 task1).
      - apply update_task_same_keys. rewrite Ht.
        apply (get_task_key_in repo tid task Htask).
      - apply update_agv_same_keys.
        change (_agvs (update_task repo1 task1)) with (_agvs repo1).
        rewrite Ha. apply (get_agv_key_in repo aid agv Hagv). }
    destruct (route_optimizer self) as [optimizer |]; [| exact H1].
    destruct (optimize_route optimizer agv1 task1 now) as [route | e];
      [| exact H1].
    apply (same_keys_trans _ _ _ H1).
    apply (same_keys_trans _ _ _ H2). apply IH.
Qed.

Lemma assign_optimal_tasks_same_keys (self : FleetOrchestrationService)
    (repo : CSVDataAdapter) (now : datetime) :
  same_keys repo (snd (assign_optimal_tasks self repo now)).
Proof.
  unfold assign_optimal_tasks.
  destruct (get_available_agvs repo); [apply same_keys_refl |].
  destruct (get_pending_tasks repo); [apply same_keys_refl |].
  destruct (ai_analytics self) as [analytics |]; [| apply same_keys_refl].
  destruct (recommend_task_assignment analytics _ _) as [[items |] | e];
    try apply same_keys_refl.
  pose proof (assign_loop_same_keys self now items [] repo) as H.
  destruct (assign_loop self now items [] repo) as [[asg | e] repo'];
    exact H.
Qed.

(** X9: the simulator and the services work on the entities that are
    there: after a movement tick, a battery tick, any number of rounds, an
    assignment run (whatever its outcome), a manual dispatch or an
    emergency stop the repository holds the same AGV keys and the same task
    keys, in the same order, as before. *)
Theorem engine_keeps_keys (repo : CSVDataAdapter) :
  (forall now g,
      same_keys repo (fst (simulate_agv_movement now (repo, g)))
      /\ same_keys repo (fst (simulate_battery_changes now (repo, g))))
  /\ (forall nows g, same_keys repo (fst (run_simulation nows (repo, g))))
  /\ (forall self now,
        same_keys repo (snd (assign_optimal_tasks self repo now)))
  /\ (forall id target now persisted,
        same_keys repo
                  (snd (send_agv_to_position repo id target now persisted)))
  /\ (forall id now persisted,
        same_keys repo (snd (emergency_stop_agv repo id now persisted))).
Proof.
  split.
  { intros now g.
    destruct (simulation_round_same_keys now (repo, g)) as (Hm & Hb & _).
    split; assumption. }
  split; [intros nows g; apply (run_simulation_same_keys nows (repo, g)) |].
  split; [intros self now; apply assign_optimal_tasks_same_keys |].
  split.
  - intros id target now persisted. unfold send_agv_to_position.
    destruct (get_agv_by_id repo id) as [agv |] eqn:Hget;
      [| apply same_keys_refl].
    destruct (negb (is_available agv)); [apply same_keys_refl |].
    destruct (negb (can_reach agv target)); [apply same_keys_refl |].
    destruct persisted; cbn [snd]; apply update_agv_same_keys;
      apply (get_agv_key_in repo id agv Hget).
  - intros id now persisted. unfold emergency_stop_agv.
    destruct (get_agv_by_id repo id) as [agv |] eqn:Hget;
      [| apply same_keys_refl].
    destruct persisted; cbn [snd]; apply update_agv_same_keys;
      apply (get_agv_key_in repo id agv Hget).
Qed.

(** ** One AGV within a tick *)

Section TickFocus.

Variable step : AGV -> CSVDataAdapter * Random -> CSVDataAdapter * Random.

Hypothesis step_writes_back :
  forall agv st,
    _agvs (fst (step agv st)) = _agvs (fst st)
    \/ exists agv',
         agv_id agv' = agv_id agv
         /\ _agvs (fst (step agv st)) = store_agv (_agvs (fst st)) agv'.

(** In a loop over the AGVs of a repository with distinct keys, the entry
    of one AGV is touched by the pass over that AGV only. *)
Lemma tick_focus (repo : CSVDataAdapter) (g : Random) (id : string)
    (a : AGV) :
  NoDup (map agv_id (_agvs repo)) ->
  get_agv_by_id repo id = Some a ->
  exists pre post,
    _agvs repo = pre ++ a :: post
    /\ fold_left (fun s e => step e s) (get_all_agvs repo) (repo, g)
       = fold_left (fun s e => step e s) post
           (step a (fold_left (fun s e => step e s) pre (repo, g)))
    /\ get_agv_by_id (fst (fold_left (fun s e => step e s) pre (repo, g))) id
       = Some a
    /\ get_agv_by_id
         (fst (fold_left (fun s e => step e s) (get_all_agvs repo) (repo, g)))
         id
       = get_agv_by_id
           (fst (step a (fold_left (fun s e => step e s) pre (repo, g)))) id.
Proof.
  intros Hnodup Hget.
  pose proof (get_agv_by_id_key _ _ _ Hget) as Hid.
  destruct (in_split _ _ (get_agv_by_id_in _ _ _ Hget))
    as (pre & post & Hsplit).
  exists pre, post. rewrite Hsplit in Hnodup.
  assert (Hpre : forall e, In e pre -> agv_id e <> id).
  { intros e Hin. rewrite <- Hid.
    apply (keys_distinct_split pre post a e Hnodup). left. exact Hin. }
  assert (Hpost : forall e, In e post -> agv_id e <> id).
  { intros e Hin. rewrite <- Hid.
    apply (keys_distinct_split pre post a e Hnodup). right. exact Hin. }
  assert (Hfold :
            fold_left (fun s e => step e s) (get_all_agvs repo) (repo, g)
            = fold_left (fun s e => step e s) post
                (step a (fold_left (fun s e => step e s) pre (repo, g)))).
  { unfold get_all_agvs. rewrite Hsplit, fold_left_app. reflexivity. }
  split; [exact Hsplit |]. split; [exact Hfold |]. split.
  - rewrite (loop_keeps_other step step_writes_back id pre _ Hpre).
    exact Hget.
  - rewrite Hfold.
    apply (loop_keeps_other step step_writes_back id post _ Hpost).
Qed.

End TickFocus.

Lemma movement_step_draws (now : datetime) (agv : AGV)
    (st : CSVDataAdapter * Random) :
  draws (snd (movement_step now agv st)) = draws (snd st).
Proof.
  destruct st as [repo g]. unfold movement_step. cbn [snd].
  destruct (AGVStatus_eqb (status agv) MOVING
            || AGVStatus_eqb (status agv) TRANSPORTING); [| reflexivity].
  destruct (current_task_id agv) as [tid |]; [| reflexivity].
  destruct (negb (tid =? "")%string); [| reflexivity].
  destruct (get_task_by_id repo tid) as [task |]; [| reflexivity].
  cbv zeta. destruct (Rgtb _ 5); reflexivity.
Qed.

Lemma movement_loop_draws (now : datetime) (l : list AGV) :
  forall st,
    draws (snd (fold_left (fun s e => movement_step now e s) l st))
    = draws (snd st).
Proof.
  induction l as [| e l IH]; intros st; [reflexivity |].
  cbn [fold_left]. rewrite IH. apply movement_step_draws.
Qed.

(** Geometry of one step towards a destination: moving [m] units along the
    segment of length [D] leaves [D - m] units. *)
Lemma step_towards (px py xd yd m : R) :
  let D := sqrt ((xd - px) ^ 2 + (yd - py) ^ 2) in
  0 < D -> 0 <= m <= D ->
  sqrt ((px + (xd - px) * (m / D) - xd) ^ 2
        + (py + (yd - py) * (m / D) - yd) ^ 2)
  = D - m.
Proof.
  intros D HD Hm.
  assert (Hsq : D * D = (xd - px) ^ 2 + (yd - py) ^ 2).
  { apply sqrt_sqrt.
    pose proof (pow2_ge_0 (xd - px)). pose proof (pow2_ge_0 (yd - py)).
    lra. }
  apply sqrt_lem_1.
  - pose proof (pow2_ge_0 (px + (xd - px) * (m / D) - xd)).
    pose proof (pow2_ge_0 (py + (yd - py) * (m / D) - yd)). lra.
  - lra.
  - replace ((px + (xd - px) * (m / D) - xd) ^ 2
             + (py + (yd - py) * (m / D) - yd) ^ 2)
      with ((m / D - 1) ^ 2 * ((xd - px) ^ 2 + (yd - py) ^ 2)) by ring.
    rewrite <- Hsq. field. lra.
Qed.

(** The moving branch of the movement tick. *)
Lemma movement_step_moving (now : datetime) (agv : AGV)
    (repo : CSVDataAdapter) (g : Random) (tid : string) (task : Task) :
  status agv = MOVING \/ status agv = TRANSPORTING ->
  current_task_id agv = Some tid -> tid <> "" ->
  get_task_by_id repo tid = Some task ->
  distance_to (position agv) (destination task) > 5 ->
  exists agv',
    movement_step now agv (repo, g)
    = (update_agv repo agv' now, snd (uniform 0.1 0.3 g))
    /\ agv_id agv' = agv_id agv
    /\ status agv' = status agv
    /\ current_task_id agv' = Some tid
    /\ battery_level agv'
       = Rmax 0 (battery_level agv - fst (uniform 0.1 0.3 g))
    /\ distance_to (position agv') (destination task)
       = distance_to (position agv) (destination task)
         - Rmin 10 (distance_to (position agv) (destination task)).
Proof.
  intros Hstatus Hcur Hne Htask Hdist. unfold movement_step.
  replace (AGVStatus_eqb (status agv) MOVING
           || AGVStatus_eqb (status agv) TRANSPORTING) with true
    by (destruct Hstatus as [-> | ->]; reflexivity).
  rewrite Hcur.
  destruct (String.eqb_spec tid "") as [E | _]; [contradiction |].
  cbn [negb]. rewrite Htask. cbv zeta.
  rewrite remaining_distance.
  rewrite (proj2 (Rgtb_true_iff _ _) Hdist).
  destruct (uniform 0.1 0.3 g) as [u g1]. cbn [fst snd].
  eexists. split; [reflexivity |].
  cbn [set_battery_level set_position agv_id status current_task_id
       battery_level position].
  repeat split; try assumption.
  unfold distance_to at 1. cbn [x y].
  rewrite <- (remaining_distance (position agv) (destination task)).
  apply step_towards.
  - rewrite remaining_distance. lra.
  - rewrite remaining_distance. unfold Rmin.
    destruct (Rle_dec 10 (distance_to (position agv) (destination task)));
      lra.
Qed.

Lemma movement_tick_moving (now : datetime) (repo : CSVDataAdapter)
    (g : Random) (id tid : string) (a : AGV) (t : Task) :
  NoDup (map agv_id (_agvs repo)) ->
  get_agv_by_id repo id = Some a ->
  status a = MOVING \/ status a = TRANSPORTING ->
  current_task_id a = Some tid -> tid <> "" ->
  get_task_by_id repo tid = Some t ->
  distance_to (position a) (destination t) > 5 ->
  exists a' g1,
    get_agv_by_id (fst (simulate_agv_movement now (repo, g))) id = Some a'
    /\ draws g1 = draws g
    /\ status a' = status a
    /\ current_task_id a' = Some tid
    /\ battery_level a'
       = Rmax 0 (battery_level a - fst (uniform 0.1 0.3 g1))
    /\ distance_to (position a') (destination t)
       = distance_to (position a) (destination t)
         - Rmin 10 (distance_to (position a) (destination t)).
Proof.
  intros Hnodup Hget Hstatus Hcur Hne Htask Hdist.
  pose proof (get_agv_by_id_key _ _ _ Hget) as Hid.
  destruct (tick_focus (movement_step now) (movement_step_writes_back now)
              repo g id a Hnodup Hget)
    as (pre & post & _ & _ & _ & Hfocus).
  unfold simulate_agv_movement. cbn [fst]. rewrite Hfocus.
  destruct (movement_loop_keeps_task now tid
              (fun t' => destination t' = destination t)
              (fun u Hu => Hu) pre (repo, g)
              (ex_intro _ t (conj Htask eq_refl)))
    as (t1 & Htask1 & Hdest1).
  pose proof (movement_loop_draws now pre (repo, g)) as Hdraws.
  destruct (fold_left (fun s e => movement_step now e s) pre (repo, g))
    as [repo1 g1].
  cbn [fst snd] in Htask1, Hdraws.
  destruct (movement_step_moving now a repo1 g1 tid t1 Hstatus Hcur Hne
              Htask1)
    as (agv' & Hstep & Hkey & Hst & Hc & Hb & Hd);
    [rewrite Hdest1; exact Hdist |].
  rewrite Hstep. cbn [fst].
  exists (set_last_update agv' now), g1.
  split; [rewrite <- Hid, <- Hkey; apply get_update_agv_same |].
  split; [exact Hdraws |].
  rewrite Hdest1 in Hd.
  repeat split; assumption.
Qed.

(** X10: in a movement tick an AGV that is under way to a known task and
    has more than 5 units left moves min(10, d) units straight towards the
    destination, so d - min(10, d) units remain; it keeps its status and
    its task, whatever its battery level, and the task keeps its
    destination.  With a regular random source and a battery that is not
    negative the battery falls by at most 0.3 and never below 0. *)
Theorem movement_tick_advances (now : datetime) (repo : CSVDataAdapter)
    (g : Random) (id tid : string) (a : AGV) (t : Task) :
  NoDup (map agv_id (_agvs repo)) ->
  get_agv_by_id repo id = Some a ->
  status a = MOVING \/ status a = TRANSPORTING ->
  current_task_id a = Some tid -> tid <> "" ->
  get_task_by_id repo tid = Some t ->
  distance_to (position a) (destination t) > 5 ->
  let repo' := fst (simulate_agv_movement now (repo, g)) in
  exists a' t',
    get_agv_by_id repo' id = Some a'
    /\ status a' = status a
    /\ current_task_id a' = Some tid
    /\ distance_to (position a') (destination t)
       = distance_to (position a) (destination t)
         - Rmin 10 (distance_to (position a) (destination t))
    /\ distance_to (position a') (destination t)
       < distance_to (position a) (destination t)
    /\ (unit_draws g -> 0 <= battery_level a ->
        0 <= battery_level a' <= battery_level a
        /\ battery_level a - 0.3 <= battery_level a')
    /\ get_task_by_id repo' tid = Some t'
    /\ destination t' = destination t.
Proof.
  intros Hnodup Hget Hstatus Hcur Hne Htask Hdist repo'. subst repo'.
  destruct (movement_tick_moving now repo g id tid a t Hnodup Hget Hstatus
              Hcur Hne Htask Hdist)
    as (a' & g1 & Ha' & Hdraws & Hst & Hc & Hb & Hd).
  destruct (movement_loop_keeps_task now tid
              (fun t' => destination t' = destination t)
              (fun u Hu => Hu) (_agvs repo) (repo, g)
              (ex_intro _ t (conj Htask eq_refl)))
    as (t' & Ht' & Hdest').
  exists a', t'. split; [exact Ha' |].
  split; [exact Hst |]. split; [exact Hc |]. split; [exact Hd |].
  split.
  { rewrite Hd. unfold Rmin.
    destruct (Rle_dec 10 (distance_to (position a) (destination t))); lra. }
  split; [| split; assumption].
  intros Hunit Hpos.
  assert (Hunit1 : unit_draws g1)
    by (intros n; rewrite Hdraws; apply Hunit).
  destruct (uniform_range 0.1 0.3 g1) as [Hu _]; [lra | exact Hunit1 |].
  rewrite Hb. unfold Rmax.
  destruct (Rle_dec 0 (battery_level a - fst (uniform 0.1 0.3 g1))); lra.
Qed.

Lemma movement_tick_advances_witness :
  let a := mkAGV "AGV-M" "Mike" depot 60 MOVING (Some "TSK-2")
                 20 2000 0%nat in
  let repo := mkCSVDataAdapter [agv_a; a] [task_1; task_2] in
  (NoDup (map agv_id (_agvs repo))
   /\ get_agv_by_id repo "AGV-M" = Some a
   /\ distance_to (position a) (destination task_2) > 5)
  /\ exists a',
       get_agv_by_id (fst (simulate_agv_movement 4%nat (repo, steady_random)))
                     "AGV-M"
       = Some a'
       /\ status a' = MOVING
       /\ distance_to (position a') quay = 100 - Rmin 10 100.
Proof.
  intros a repo.
  assert (Hnodup : NoDup (map agv_id (_agvs repo))).
  { cbn. constructor.
    - intros [E | []]. discriminate E.
    - constructor; [intros [] | constructor]. }
  assert (Hget : get_agv_by_id repo "AGV-M" = Some a) by reflexivity.
  assert (Hd : distance_to (position a) (destination task_2) = 100)
    by apply depot_to_quay.
  assert (Hdist : distance_to (position a) (destination task_2) > 5)
    by (rewrite Hd; lra).
  split; [repeat split; assumption |].
  destruct (movement_tick_advances 4%nat repo steady_random "AGV-M" "TSK-2"
              a task_2 Hnodup Hget (or_introl eq_refl) eq_refl)
    as (a' & t' & Ha' & Hst & _ & Hmove & _); try assumption.
  - discriminate.
  - reflexivity.
  - exists a'. split; [exact Ha' |]. split; [exact Hst |].
    change (destination task_2) with quay in Hmove, Hd.
    rewrite Hmove, Hd. reflexivity.
Defined.

(** ** A transport comes to its end *)

Lemma battery_step_tasks (now : datetime) (agv : AGV)
    (st : CSVDataAdapter * Random) :
  _tasks (fst (battery_step now agv st)) = _tasks (fst st).
Proof.
  destruct st as [repo g]. unfold battery_step. cbn [fst].
  destruct (AGVStatus_eqb (status agv) CHARGING).
  - destruct (uniform 2 5 g). reflexivity.
  - destruct (AGVStatus_eqb (status agv) IDLE); [| reflexivity].
    destruct (uniform 0.01 0.05 g) as [u g1].
    destruct (Rltb _ 20); [destruct (random g1) |]; reflexivity.
Qed.

Lemma battery_tick_tasks (now : datetime) (st : CSVDataAdapter * Random) :
  _tasks (fst (simulate_battery_changes now st)) = _tasks (fst st).
Proof.
  unfold simulate_battery_changes. generalize (get_all_agvs (fst st)).
  intros l. revert st. induction l as [| e l IH]; intros st; [reflexivity |].
  cbn [fold_left]. rewrite IH. apply battery_step_tasks.
Qed.

Lemma get_update_agv_same' (repo : CSVDataAdapter) (agv agv0 : AGV)
    (now : datetime) :
  agv_id agv = agv_id agv0 ->
  get_agv_by_id (update_agv repo agv now) (agv_id agv0)
  = Some (set_last_update agv now).
Proof. intros <-. apply get_update_agv_same. Qed.

(** An AGV without current task stays where it is, in both ticks. *)
Lemma movement_step_keeps_place (p : Position) (id : string)
    (now : datetime) (agv : AGV) (st : CSVDataAdapter * Random) :
  agv_id agv = id ->
  current_task_id agv = None /\ position agv = p ->
  (exists a, get_agv_by_id (fst st) id = Some a
             /\ current_task_id a = None /\ position a = p) ->
  exists a',
    get_agv_by_id (fst (movement_step now agv st)) id = Some a'
    /\ current_task_id a' = None /\ position a' = p.
Proof.
  intros Hid [Hc Hp] Hst. destruct st as [repo g].
  unfold movement_step. rewrite Hc.
  destruct (AGVStatus_eqb (status agv) MOVING
            || AGVStatus_eqb (status agv) TRANSPORTING); [| exact Hst].
  cbn [fst]. exists (set_last_update agv now).
  split; [rewrite <- Hid; apply get_update_agv_same |].
  split; assumption.
Qed.

Lemma battery_step_keeps_place (p : Position) (id : string)
    (now : datetime) (agv : AGV) (st : CSVDataAdapter * Random) :
  agv_id agv = id ->
  current_task_id agv = None /\ position agv = p ->
  (exists a, get_agv_by_id (fst st) id = Some a
             /\ current_task_id a = None /\ position a = p) ->
  exists a',
    get_agv_by_id (fst (battery_step now agv st)) id = Some a'
    /\ current_task_id a' = None /\ position a' = p.
Proof.
  intros Hid [Hc Hp] Hst. destruct st as [repo g].
  unfold battery_step.
  destruct (AGVStatus_eqb (status agv) CHARGING).
  - destruct (uniform 2 5 g) as [u g1]. cbn [fst].
    eexists. split.
    { rewrite <- Hid. apply get_update_agv_same'.
      destruct (Rgeb _ 90); reflexivity. }
    destruct (Rgeb _ 90); split; assumption.
  - destruct (AGVStatus_eqb (status agv) IDLE); [| exact Hst].
    destruct (uniform 0.01 0.05 g) as [u g1].
    destruct (Rltb _ 20).
    + destruct (random g1) as [r g2]. cbn [fst].
      eexists. split.
      { rewrite <- Hid. apply get_update_agv_same'.
        destruct (Rltb r 0.3); reflexivity. }
      destruct (Rltb r 0.3); split; assumption.
    + cbn [fst]. eexists.
      split; [rewrite <- Hid; apply get_update_agv_same'; reflexivity |].
      split; assumption.
Qed.

Lemma round_keeps_keys_distinct (now : datetime)
    (st : CSVDataAdapter * Random) :
  NoDup (map agv_id (_agvs (fst st))) ->
  NoDup (map agv_id (_agvs (fst (simulate_agv_movement now st))))
  /\ NoDup (map agv_id (_agvs (fst (simulation_round now st)))).
Proof.
  intros Hnodup.
  destruct (simulation_round_same_keys now st) as ([Hm _] & _ & [Hr _]).
  rewrite Hm, Hr. split; exact Hnodup.
Qed.

Lemma round_keeps_delivered (now : datetime) (st : CSVDataAdapter * Random)
    (id tid : string) (dst : Position) :
  NoDup (map agv_id (_agvs (fst st))) ->
  delivered id tid dst (fst st) ->
  delivered id tid dst (fst (simulation_round now st)).
Proof.
  intros Hnodup (a & t & Ha & Hc & Hp & Ht & Hdone).
  destruct (round_keeps_keys_distinct now st Hnodup) as [Hn1 _].
  destruct st as [repo g]. cbn [fst] in *.
  (* the movement tick *)
  destruct (tick_maintains (movement_step now)
              (movement_step_writes_back now) id
              (fun e => current_task_id e = None
                        /\ position e = Position_init (x dst) (y dst))
              (movement_step_keeps_place _ id now) repo g Hnodup
              (ex_intro _ a (conj Ha (conj Hc Hp))))
    as (_ & a1 & Ha1 & Hc1 & Hp1).
  destruct (movement_loop_keeps_task now tid
              (fun u => completed_at u <> None)
              (fun u _ => ltac:(discriminate)) (_agvs repo) (repo, g)
              (ex_intro _ t (conj Ht Hdone)))
    as (t1 & Ht1 & Hdone1).
  fold (get_all_agvs repo) in Ha1, Ht1.
  change (fold_left (fun s e => movement_step now e s) (get_all_agvs repo)
            (repo, g))
    with (simulate_agv_movement now (repo, g)) in Ha1, Ht1.
  (* the battery tick *)
  unfold simulation_round.
  destruct (simulate_agv_movement now (repo, g)) as [repo1 g1].
  cbn [fst] in *.
  destruct (tick_maintains (battery_step now)
              (battery_step_writes_back now) id
              (fun e => current_task_id e = None
                        /\ position e = Position_init (x dst) (y dst))
              (battery_step_keeps_place _ id now) repo1 g1 Hn1
              (ex_intro _ a1 (conj Ha1 (conj Hc1 Hp1))))
    as (_ & a2 & Ha2 & Hc2 & Hp2).
  exists a2, t1. split; [exact Ha2 |]. split; [exact Hc2 |].
  split; [exact Hp2 |]. split; [| exact Hdone1].
  unfold get_task_by_id. rewrite (battery_tick_tasks now (repo1, g1)).
  exact Ht1.
Qed.

Lemma run_simulation_keeps_delivered (nows : list datetime)
    (id tid : string) (dst : Position) :
  forall st,
    NoDup (map agv_id (_agvs (fst st))) ->
    delivered id tid dst (fst st) ->
    delivered id tid dst (fst (run_simulation nows st)).
Proof.
  unfold run_simulation.
  induction nows as [| now nows IH]; intros st Hnodup Hd; [exact Hd |].
  cbn [fold_left]. apply IH.
  - apply (round_keeps_keys_distinct now st Hnodup).
  - apply round_keeps_delivered; assumption.
Qed.

Lemma round_delivers_arrival (now : datetime) (repo : CSVDataAdapter)
    (g : Random) (id tid : string) (a : AGV) (t : Task) :
  NoDup (map agv_id (_agvs repo)) ->
  get_agv_by_id repo id = Some a ->
  status a = MOVING \/ status a = TRANSPORTING ->
  current_task_id a = Some tid -> tid <> "" ->
  get_task_by_id repo tid = Some t ->
  distance_to (position a) (destination t) <= 5 ->
  delivered id tid (destination t) (fst (simulation_round now (repo, g))).
Proof.
  intros Hnodup Ha Hstatus Hcur Hne Ht Hnear.
  destruct (round_keeps_keys_distinct now (repo, g) Hnodup) as [Hn1 _].
  destruct (movement_tick_arrival now repo g id tid a t Hnodup Ha Hstatus
              Hcur Hne Ht Hnear) as (Ha1 & t1 & Ht1 & _ & Hdone1).
  unfold simulation_round.
  destruct (simulate_agv_movement now (repo, g)) as [repo1 g1].
  cbn [fst] in *.
  destruct (tick_maintains (battery_step now)
              (battery_step_writes_back now) id
              (fun e => current_task_id e = None
                        /\ position e
                           = Position_init (x (destination t))
                                           (y (destination t)))
              (battery_step_keeps_place _ id now) repo1 g1 Hn1
              (ex_intro _ _ (conj Ha1 (conj eq_refl eq_refl))))
    as (_ & a2 & Ha2 & Hc2 & Hp2).
  exists a2, t1. split; [exact Ha2 |]. split; [exact Hc2 |].
  split; [exact Hp2 |]. split; [| rewrite Hdone1; discriminate].
  unfold get_task_by_id. rewrite (battery_tick_tasks now (repo1, g1)).
  exact Ht1.
Qed.

(** X11: a delivery is final.  Once an AGV stands at the destination of a
    completed task without a current task, no run of the simulator moves
    it, gives it a task or reopens the task, whatever the random draws and
    whatever the other AGVs do.  In particular an AGV that is within 5
    units of the destination of its task has delivered at the end of the
    first round, battery tick included, and after every later round. *)
Theorem delivery_is_final (repo : CSVDataAdapter) (id tid : string) :
  NoDup (map agv_id (_agvs repo)) ->
  (forall dst nows g,
      delivered id tid dst repo ->
      delivered id tid dst (fst (run_simulation nows (repo, g))))
  /\ (forall a t now nows g,
        get_agv_by_id repo id = Some a ->
        status a = MOVING \/ status a = TRANSPORTING ->
        current_task_id a = Some tid -> tid <> "" ->
        get_task_by_id repo tid = Some t ->
        distance_to (position a) (destination t) <= 5 ->
        delivered id tid (destination t)
                  (fst (run_simulation (now :: nows) (repo, g)))).
Proof.
  intros Hnodup. split.
  - intros dst nows g Hd.
    apply (run_simulation_keeps_delivered nows id tid dst (repo, g));
      assumption.
  - intros a t now nows g Ha Hstatus Hcur Hne Ht Hnear.
    unfold run_simulation. cbn [fold_left].
    apply (run_simulation_keeps_delivered nows id tid (destination t)).
    + apply (round_keeps_keys_distinct now (repo, g) Hnodup).
    + apply (round_delivers_arrival now repo g id tid a t); assumption.
Qed.

Lemma delivery_is_final_witness :
  NoDup (map agv_id (_agvs yard_under_way))
  /\ delivered "AGV-M" "TSK-2" quay
               (fst (run_simulation [1%nat; 2%nat; 3%nat]
                       (yard_under_way, steady_random))).
Proof.
  assert (Hnodup : NoDup (map agv_id (_agvs yard_under_way)))
    by apply yard_under_way_keys.
  split; [exact Hnodup |].
  destruct (delivery_is_final yard_under_way "AGV-M" "TSK-2" Hnodup)
    as [_ Harrive].
  apply (Harrive agv_m task_2 1%nat [2%nat; 3%nat] steady_random).
  - reflexivity.
  - left. reflexivity.
  - reflexivity.
  - discriminate.
  - reflexivity.
  - change (position agv_m) with (Position_init 98 0).
    change (destination task_2) with quay.
    unfold quay, Position_init.
    rewrite distance_to_horizontal by lra. lra.
Defined.

(** ** The battery tick as a state machine *)

Lemma battery_step_draws (now : datetime) (agv : AGV)
    (st : CSVDataAdapter * Random) :
  draws (snd (battery_step now agv st)) = draws (snd st).
Proof.
  destruct st as [repo g]. unfold battery_step. cbn [snd].
  destruct (AGVStatus_eqb (status agv) CHARGING); [reflexivity |].
  destruct (AGVStatus_eqb (status agv) IDLE); [| reflexivity].
  cbn [uniform random]. destruct (Rltb _ 20); reflexivity.
Qed.

Lemma battery_loop_draws (now : datetime) (l : list AGV) :
  forall st,
    draws (snd (fold_left (fun s e => battery_step now e s) l st))
    = draws (snd st).
Proof.
  induction l as [| e l IH]; intros st; [reflexivity |].
  cbn [fold_left]. rewrite IH. apply battery_step_draws.
Qed.

Lemma Rmin_charge (b u : R) :
  0 <= b <= 100 -> 2 <= u <= 5 ->
  0 <= Rmin 100 (b + u) <= 100
  /\ b <= Rmin 100 (b + u)
  /\ Rmin 100 (b + 2) <= Rmin 100 (b + u).
Proof.
  intros Hb Hu. unfold Rmin.
  destruct (Rle_dec 100 (b + u)); destruct (Rle_dec 100 (b + 2)); lra.
Qed.

Lemma Rmax_drain (b u : R) :
  0 <= b <= 100 -> 0.01 <= u <= 0.05 ->
  0 <= Rmax 0 (b - u) <= 100
  /\ Rmax 0 (b - u) <= b
  /\ b - 0.05 <= Rmax 0 (b - u).
Proof.
  intros Hb Hu. unfold Rmax. destruct (Rle_dec 0 (b - u)); lra.
Qed.

(** X12: the battery tick as a state machine, for one AGV of a fleet with
    distinct keys, a battery within [0, 100] and a regular random source.
    Position and current task are never touched.  A CHARGING AGV gains at
    least 2 points (up to the cap of 100) and is IDLE afterwards exactly
    when the new level is at least 90.  An IDLE AGV loses at most 0.05
    points and can turn CHARGING only when the new level is below 20.  An
    AGV in any other status is left as it is. *)
Theorem battery_tick_transitions (now : datetime) (repo : CSVDataAdapter)
    (g : Random) (id : string) (a : AGV) :
  NoDup (map agv_id (_agvs repo)) ->
  get_agv_by_id repo id = Some a ->
  unit_draws g -> battery_in_range a ->
  exists a',
    get_agv_by_id (fst (simulate_battery_changes now (repo, g))) id = Some a'
    /\ position a' = position a
    /\ current_task_id a' = current_task_id a
    /\ battery_in_range a'
    /\ (status a = CHARGING ->
        battery_level a <= battery_level a'
        /\ Rmin 100 (battery_level a + 2) <= battery_level a'
        /\ ((battery_level a' >= 90 /\ status a' = IDLE)
            \/ (battery_level a' < 90 /\ status a' = CHARGING)))
    /\ (status a = IDLE ->
        battery_level a - 0.05 <= battery_level a' <= battery_level a
        /\ (status a' = IDLE
            \/ (status a' = CHARGING /\ battery_level a' < 20)))
    /\ (status a <> CHARGING -> status a <> IDLE -> a' = a).
Proof.
  intros Hnodup Hget Hunit Hrange.
  pose proof (get_agv_by_id_key _ _ _ Hget) as Hid.
  destruct (tick_focus (battery_step now) (battery_step_writes_back now)
              repo g id a Hnodup Hget)
    as (pre & post & _ & _ & Hbefore & Hfocus).
  unfold simulate_battery_changes. cbn [fst]. rewrite Hfocus.
  pose proof (battery_loop_draws now pre (repo, g)) as Hdraws.
  destruct (fold_left (fun s e => battery_step now e s) pre (repo, g))
    as [repo1 g1].
  cbn [fst snd] in Hbefore, Hdraws.
  assert (Hunit1 : unit_draws g1)
    by (intros n; rewrite Hdraws; apply Hunit).
  unfold battery_in_range in *. unfold battery_step.
  destruct (status a) eqn:Hs; cbn [AGVStatus_eqb].
  - (* IDLE *)
    destruct (uniform_range 0.01 0.05 g1) as [Hu Hunit2];
      [lra | exact Hunit1 |].
    destruct (uniform 0.01 0.05 g1) as [u g2]. cbn [fst snd] in Hu, Hunit2.
    destruct (Rmax_drain (battery_level a) u Hrange Hu) as (Hb1 & Hb2 & Hb3).
    cbn [set_battery_level battery_level].
    destruct (Rltb (Rmax 0 (battery_level a - u)) 20) eqn:E20.
    + apply Rltb_true_iff in E20. destruct (random g2) as [r g3].
      cbn [fst]. rewrite <- Hid.
      rewrite (get_update_agv_same' repo1 _ a now)
        by (destruct (Rltb r 0.3); reflexivity).
      eexists. split; [reflexivity |].
      destruct (Rltb r 0.3);
        cbn [set_last_update set_status set_battery_level position
             current_task_id battery_level status].
      * split; [reflexivity |]. split; [reflexivity |].
        split; [exact Hb1 |]. split; [intros E; discriminate E |].
        split; [| intros _ N; congruence].
        intros _. split; [lra |]. right. split; [reflexivity | exact E20].
      * split; [reflexivity |]. split; [reflexivity |].
        split; [exact Hb1 |]. split; [intros E; discriminate E |].
        split; [| intros _ N; congruence].
        intros _. split; [lra |]. left. exact Hs.
    + cbn [fst]. rewrite <- Hid.
      rewrite (get_update_agv_same' repo1 _ a now) by reflexivity.
      eexists. split; [reflexivity |].
      cbn [set_last_update set_battery_level position current_task_id
           battery_level status].
      split; [reflexivity |]. split; [reflexivity |].
      split; [exact Hb1 |]. split; [intros E; discriminate E |].
      split; [| intros _ N; congruence].
      intros _. split; [lra |]. left. exact Hs.
  - exists a. cbn [fst]. split; [exact Hbefore |].
    split; [reflexivity |]. split; [reflexivity |]. split; [exact Hrange |].
    split; [intros E; discriminate E |].
    split; [intros E; discriminate E | intros _ _; reflexivity].
  - exists a. cbn [fst]. split; [exact Hbefore |].
    split; [reflexivity |]. split; [reflexivity |]. split; [exact Hrange |].
    split; [intros E; discriminate E |].
    split; [intros E; discriminate E | intros _ _; reflexivity].
  - (* CHARGING *)
    destruct (uniform_range 2 5 g1) as [Hu _]; [lra | exact Hunit1 |].
    destruct (uniform 2 5 g1) as [u g2]. cbn [fst snd] in Hu.
    destruct (Rmin_charge (battery_level a) u Hrange Hu) as (Hb1 & Hb2 & Hb3).
    cbn [set_battery_level battery_level fst]. rewrite <- Hid.
    rewrite (get_update_agv_same' repo1 _ a now)
      by (destruct (Rgeb _ 90); reflexivity).
    eexists. split; [reflexivity |].
    destruct (Rgeb (Rmin 100 (battery_level a + u)) 90) eqn:E90;
      cbn [set_last_update set_status set_battery_level position
           current_task_id battery_level status].
    + apply Rgeb_true_iff in E90.
      split; [reflexivity |]. split; [reflexivity |].
      split; [exact Hb1 |].
      split; [| split; [intros E; discriminate E | intros N; congruence]].
      intros _. split; [exact Hb2 |]. split; [exact Hb3 |].
      left. split; [exact E90 | reflexivity].
    + apply Rgeb_false_iff in E90.
      split; [reflexivity |]. split; [reflexivity |].
      split; [exact Hb1 |].
      split; [| split; [intros E; discriminate E
                       | intros N; congruence]].
      intros _. split; [exact Hb2 |]. split; [exact Hb3 |].
      right. split; [exact E90 | exact Hs].
  - exists a. cbn [fst]. split; [exact Hbefore |].
    split; [reflexivity |]. split; [reflexivity |]. split; [exact Hrange |].
    split; [intros E; discriminate E |].
    split; [intros E; discriminate E | intros _ _; reflexivity].
Qed.

Lemma battery_tick_transitions_witness :
  let a := mkAGV "AGV-D" "Delta" depot 89 CHARGING None 20 2000 0%nat in
  let repo := mkCSVDataAdapter [agv_a; a] [task_1] in
  (NoDup (map agv_id (_agvs repo))
   /\ get_agv_by_id repo "AGV-D" = Some a
   /\ unit_draws steady_random /\ battery_in_range a)
  /\ exists a',
       get_agv_by_id
         (fst (simulate_battery_changes 5%nat (repo, steady_random))) "AGV-D"
       = Some a'
       /\ status a' = IDLE /\ battery_level a' >= 90.
Proof.
  intros a repo.
  assert (Hnodup : NoDup (map agv_id (_agvs repo))).
  { cbn. constructor.
    - intros [E | []]. discriminate E.
    - constructor; [intros [] | constructor]. }
  assert (Hget : get_agv_by_id repo "AGV-D" = Some a) by reflexivity.
  assert (Hrange : battery_in_range a)
    by (unfold battery_in_range; cbn; lra).
  split; [repeat split; try assumption; try apply steady_random_unit;
          apply Hrange |].
  destruct (battery_tick_transitions 5%nat repo steady_random "AGV-D" a
              Hnodup Hget steady_random_unit Hrange)
    as (a' & Ha' & _ & _ & _ & Hcharging & _).
  destruct (Hcharging eq_refl) as (_ & Hgain & Hstate).
  assert (H91 : Rmin 100 (battery_level a + 2) = 91).
  { cbn [a battery_level]. unfold Rmin.
    destruct (Rle_dec 100 (89 + 2)); lra. }
  rewrite H91 in Hgain.
  exists a'. split; [exact Ha' |].
  destruct Hstate as [[Hge Hst] | [Hlt _]]; [split; assumption | lra].
Defined.

(** ** MAINTENANCE *)

Section LoopForall.

Variable P : AGV -> Prop.
Variable step : AGV -> CSVDataAdapter * Random -> CSVDataAdapter * Random.

Hypothesis step_entries :
  forall agv st w,
    P agv -> In w (_agvs (fst (step agv st))) ->
    In w (_agvs (fst st)) \/ P w.

Lemma loop_forall (l : list AGV) :
  forall st,
    Forall P l -> Forall P (_agvs (fst st)) ->
    Forall P (_agvs (fst (fold_left (fun s a => step a s) l st))).
Proof.
  induction l as [| a l IH]; intros st Hl Hst; [exact Hst |].
  cbn [fold_left]. inversion Hl as [| ? ? Ha Hl']; subst.
  apply IH; [exact Hl' |].
  apply Forall_forall. intros w Hw.
  destruct (step_entries a st w Ha Hw) as [Hold | Hnew]; [| exact Hnew].
  apply (proj1 (Forall_forall P _) Hst w Hold).
Qed.

End LoopForall.

Lemma update_agv_no_maintenance (repo : CSVDataAdapter) (agv w : AGV)
    (now : datetime) :
  not_in_maintenance (set_last_update agv now) ->
  In w (_agvs (update_agv repo agv now)) ->
  In w (_agvs repo) \/ not_in_maintenance w.
Proof.
  intros Hagv Hin. unfold update_agv in Hin. cbn [_agvs] in Hin.
  destruct (store_agv_in _ _ _ Hin) as [Hold | ->];
    [left; exact Hold | right; exact Hagv].
Qed.

Lemma movement_step_no_maintenance (now : datetime) (agv w : AGV)
    (st : CSVDataAdapter * Random) :
  not_in_maintenance agv ->
  In w (_agvs (fst (movement_step now agv st))) ->
  In w (_agvs (fst st)) \/ not_in_maintenance w.
Proof.
  destruct st as [repo g]. cbn [fst]. intros Hagv.
  unfold movement_step.
  destruct (AGVStatus_eqb (status agv) MOVING
            || AGVStatus_eqb (status agv) TRANSPORTING);
    [| intros Hin; left; exact Hin].
  destruct (current_task_id agv) as [tid |];
    [| apply update_agv_no_maintenance; exact Hagv].
  destruct (negb (tid =? "")%string);
    [| apply update_agv_no_maintenance; exact Hagv].
  destruct (get_task_by_id repo tid) as [task |];
    [| apply update_agv_no_maintenance; exact Hagv].
  cbv zeta. destruct (Rgtb _ 5).
  - destruct (uniform 0.1 0.3 g) as [u g1]. cbn [fst].
    apply update_agv_no_maintenance. exact Hagv.
  - cbn [fst]. intros Hin.
    apply update_agv_no_maintenance in Hin; [exact Hin |].
    unfold not_in_maintenance. cbn. discriminate.
Qed.

Lemma battery_step_no_maintenance (now : datetime) (agv w : AGV)
    (st : CSVDataAdapter * Random) :
  not_in_maintenance agv ->
  In w (_agvs (fst (battery_step now agv st))) ->
  In w (_agvs (fst st)) \/ not_in_maintenance w.
Proof.
  destruct st as [repo g]. cbn [fst]. intros Hagv.
  unfold battery_step.
  destruct (AGVStatus_eqb (status agv) CHARGING).
  - destruct (uniform 2 5 g) as [u g1]. cbn [fst].
    apply update_agv_no_maintenance.
    destruct (Rgeb _ 90); [unfold not_in_maintenance; cbn; discriminate
                          | exact Hagv].
  - destruct (AGVStatus_eqb (status agv) IDLE);
      [| intros Hin; left; exact Hin].
    destruct (uniform 0.01 0.05 g) as [u g1].
    destruct (Rltb _ 20).
    + destruct (random g1) as [r g2]. cbn [fst].
      apply update_agv_no_maintenance.
      destruct (Rltb r 0.3); [unfold not_in_maintenance; cbn; discriminate
                             | exact Hagv].
    + cbn [fst]. apply update_agv_no_maintenance. exact Hagv.
Qed.

Lemma round_no_maintenance (now : datetime) (st : CSVDataAdapter * Random) :
  Forall not_in_maintenance (_agvs (fst st)) ->
  Forall not_in_maintenance
         (_agvs (fst (simulation_round now st))).
Proof.
  intros Hst. unfold simulation_round, simulate_battery_changes,
    get_all_agvs.
  assert (Hmove : Forall not_in_maintenance
                         (_agvs (fst (simulate_agv_movement now st)))).
  { unfold simulate_agv_movement, get_all_agvs.
    apply (loop_forall _ (movement_step now)
             (fun agv s w => movement_step_no_maintenance now agv w s));
      exact Hst. }
  apply (loop_forall _ (battery_step now)
           (fun agv s w => battery_step_no_maintenance now agv w s));
    exact Hmove.
Qed.

Lemma assign_loop_no_maintenance (self : FleetOrchestrationService)
    (now : datetime) (items : list (string * string)) :
  forall (acc : list Assignment) (repo : CSVDataAdapter),
    Forall not_in_maintenance (_agvs repo) ->
    Forall not_in_maintenance
           (_agvs (snd (assign_loop self now items acc repo))).
Proof.
  induction items as [| [aid tid] rest IH]; intros acc repo Hrepo;
    [exact Hrepo |].
  cbn [assign_loop].
  destruct (get_agv_by_id repo aid) as [agv |]; [| apply IH; exact Hrepo].
  destruct (get_task_by_id repo tid) as [task |]; [| apply IH; exact Hrepo].
  destruct (can_reach agv (destination task)); [| apply IH; exact Hrepo].
  cbv zeta.
  set (agv1 := set_status (set_current_task_id agv (Some tid)) MOVING).
  set (task1 := set_started_at (set_assigned_agv_id task (Some aid))
                               (Some now)).
  assert (H1 : Forall not_in_maintenance
                      (_agvs (mutate_task (mutate_agv repo agv1) task1))).
  { cbn [mutate_task mutate_agv _agvs].
    apply store_agv_Forall; [exact Hrepo | discriminate]. }
  destruct (route_optimizer self) as [optimizer |]; [| exact H1].
  destruct (optimize_route optimizer agv1 task1 now) as [route | e];
    [| exact H1].
  apply IH. cbn [update_agv update_task _agvs].
  apply store_agv_Forall; [exact H1 | discriminate].
Qed.

(** X13: MAINTENANCE is inert and cannot be entered.  An AGV in
    MAINTENANCE is handed through any number of simulator rounds exactly as
    it is, and in a fleet without such an AGV neither the simulator nor
    task assignment, manual dispatch or emergency stop ever produces the
    status. *)
Theorem maintenance_is_inert_and_unreachable (repo : CSVDataAdapter) :
  (forall id a nows g,
      NoDup (map agv_id (_agvs repo)) ->
      get_agv_by_id repo id = Some a -> status a = MAINTENANCE ->
      get_agv_by_id (fst (run_simulation nows (repo, g))) id = Some a)
  /\ (Forall not_in_maintenance (_agvs repo) ->
      (forall nows g,
          Forall not_in_maintenance
                 (_agvs (fst (run_simulation nows (repo, g)))))
      /\ (forall self now,
            Forall not_in_maintenance
                   (_agvs (snd (assign_optimal_tasks self repo now))))
      /\ (forall id target now persisted,
            Forall not_in_maintenance
                   (_agvs (snd (send_agv_to_position repo id target now
                                  persisted))))
      /\ (forall id now persisted,
            Forall not_in_maintenance
                   (_agvs (snd (emergency_stop_agv repo id now persisted))))).
Proof.
  split.
  - intros id a nows g Hnodup Hget Hm.
    change repo with (fst (repo, g)) in Hnodup, Hget.
    generalize dependent (repo, g). clear repo g.
    unfold run_simulation.
    induction nows as [| now nows IH]; intros st Hnodup Hget;
      [exact Hget |].
    cbn [fold_left].
    destruct (round_keeps_keys_distinct now st Hnodup) as [Hn1 Hn2].
    apply IH; [exact Hn2 |]. unfold simulation_round.
    destruct st as [r g]. cbn [fst] in *.
    destruct (tick_maintains (movement_step now)
                (movement_step_writes_back now) id (fun e => e = a))
      with (repo := r) (g := g) as (_ & a1 & Ha1 & ->).
    { intros agv st _ -> Hst. destruct st as [r0 g0].
      unfold movement_step. rewrite Hm. exact Hst. }
    { exact Hnodup. }
    { exists a. split; [exact Hget | reflexivity]. }
    fold (get_all_agvs r) in Ha1.
    change (fold_left (fun s e => movement_step now e s) (get_all_agvs r)
              (r, g))
      with (simulate_agv_movement now (r, g)) in Ha1.
    destruct (simulate_agv_movement now (r, g)) as [r1 g1].
    cbn [fst] in *.
    destruct (tick_maintains (battery_step now)
                (battery_step_writes_back now) id (fun e => e = a))
      with (repo := r1) (g := g1) as (_ & a2 & Ha2 & ->).
    { intros agv st _ -> Hst. destruct st as [r0 g0].
      unfold battery_step. rewrite Hm. exact Hst. }
    { exact Hn1. }
    { exists a. split; [exact Ha1 | reflexivity]. }
    exact Ha2.
  - intros Hrepo. split.
    { intros nows g. change repo with (fst (repo, g)) in Hrepo.
      generalize dependent (repo, g). clear repo.
      unfold run_simulation.
      induction nows as [| now nows IH]; intros st Hst; [exact Hst |].
      cbn [fold_left]. apply IH. apply round_no_maintenance. exact Hst. }
    split.
    { intros self now. unfold assign_optimal_tasks.
      destruct (get_available_agvs repo); [exact Hrepo |].
      destruct (get_pending_tasks repo); [exact Hrepo |].
      destruct (ai_analytics self) as [analytics |]; [| exact Hrepo].
      destruct (recommend_task_assignment analytics _ _) as [[items |] | e];
        try exact Hrepo.
      pose proof (assign_loop_no_maintenance self now items [] repo Hrepo)
        as H.
      destruct (assign_loop self now items [] repo) as [[asg | e] repo'];
        exact H. }
    split.
    { intros id target now persisted. unfold send_agv_to_position.
      destruct (get_agv_by_id repo id) as [agv |]; [| exact Hrepo].
      destruct (negb (is_available agv)); [exact Hrepo |].
      destruct (negb (can_reach agv target)); [exact Hrepo |].
      destruct persisted; cbn [snd update_agv _agvs];
        (apply store_agv_Forall; [exact Hrepo | discriminate]). }
    intros id now persisted. unfold emergency_stop_agv.
    destruct (get_agv_by_id repo id) as [agv |]; [| exact Hrepo].
    destruct persisted; cbn [snd update_agv _agvs];
      (apply store_agv_Forall; [exact Hrepo | discriminate]).
Qed.

Lemma maintenance_is_inert_and_unreachable_witness :
  let m := mkAGV "AGV-X" "Xray" depot 40 MAINTENANCE None 20 2000 0%nat in
  let repo := mkCSVDataAdapter [agv_a; m] [task_1] in
  (NoDup (map agv_id (_agvs repo))
   /\ get_agv_by_id repo "AGV-X" = Some m
   /\ status m = MAINTENANCE
   /\ Forall not_in_maintenance (_agvs yard))
  /\ get_agv_by_id
       (fst (run_simulation [1%nat; 2%nat; 3%nat] (repo, steady_random)))
       "AGV-X" = Some m
  /\ Forall not_in_maintenance
       (_agvs (fst (run_simulation [1%nat; 2%nat] (yard, steady_random)))).
Proof.
  intros m repo.
  assert (Hnodup : NoDup (map agv_id (_agvs repo))).
  { cbn. constructor.
    - intros [E | []]. discriminate E.
    - constructor; [intros [] | constructor]. }
  assert (Hyard : Forall not_in_maintenance (_agvs yard)).
  { cbn. repeat constructor; unfold not_in_maintenance; cbn; discriminate. }
  split; [repeat split; try assumption; reflexivity |].
  split.
  - apply (proj1 (maintenance_is_inert_and_unreachable repo));
      [exact Hnodup | reflexivity | reflexivity].
  - apply (proj2 (maintenance_is_inert_and_unreachable yard) Hyard).
Defined.

(** ** The fleet overview *)

Lemma status_partition (l : list AGV) :
  (count_if (fun agv => AGVStatus_eqb (status agv) MOVING
                        || AGVStatus_eqb (status agv) TRANSPORTING) l
   + count_if (fun agv => AGVStatus_eqb (status agv) IDLE) l
   + count_if (fun agv => AGVStatus_eqb (status agv) CHARGING) l
   + count_if (fun agv => AGVStatus_eqb (status agv) MAINTENANCE) l
   = Z.of_nat (List.length l))%Z.
Proof.
  unfold count_if. induction l as [| a l IH]; [reflexivity |].
  cbn [filter List.length]. destruct (status a); cbn [AGVStatus_eqb orb];
    cbn [List.length]; lia.
Qed.

Lemma count_if_nonneg {A : Type} (f : A -> bool) (l : list A) :
  (0 <= count_if f l)%Z.
Proof. unfold count_if. lia. Qed.

Lemma pending_completed_disjoint (l : list Task) :
  (Z.of_nat (List.length
               (filter (fun task => negb (is_completed task)
                          && negb (str_truthy (assigned_agv_id task))) l))
   + count_if is_completed l <= Z.of_nat (List.length l))%Z.
Proof.
  unfold count_if. induction l as [| t l IH]; [cbn; lia |].
  cbn [filter List.length].
  destruct (is_completed t); cbn [negb andb];
    [| destruct (negb (str_truthy (assigned_agv_id t)))];
    cbn [List.length]; lia.
Qed.

Lemma battery_sum_shift (l : list AGV) :
  forall acc,
    fold_left (fun total agv => total + battery_level agv) l acc
    = acc + battery_sum l.
Proof.
  unfold battery_sum. induction l as [| a l IH]; intros acc;
    cbn [fold_left]; [lra |].
  rewrite (IH (acc + battery_level a)), (IH (0 + battery_level a)). lra.
Qed.

Lemma battery_sum_bounds (l : list AGV) :
  Forall battery_in_range l ->
  0 <= battery_sum l <= 100 * INR (List.length l).
Proof.
  induction l as [| a l IH]; intros Hl.
  - unfold battery_sum. cbn. lra.
  - inversion Hl as [| ? ? Ha Hl']; subst. specialize (IH Hl').
    unfold battery_sum. cbn [fold_left]. rewrite battery_sum_shift.
    change (List.length (a :: l)) with (S (List.length l)).
    rewrite S_INR. unfold battery_in_range in Ha. lra.
Qed.

Lemma efficiency_in_percent_range (m : FleetMetrics) :
  (0 <= active_agvs m <= total_agvs m)%Z ->
  0 <= average_battery m <= 100 ->
  0 <= calculate_efficiency m <= 100.
Proof.
  intros [Hact Htot] Hbat. unfold calculate_efficiency.
  destruct (Z.eqb_spec (total_agvs m) 0) as [E | NE]; [lra |].
  assert (Hpos : 0 < IZR (total_agvs m)) by (apply IZR_lt; lia).
  assert (Ha0 : 0 <= IZR (active_agvs m)) by (apply IZR_le; lia).
  assert (Ha1 : IZR (active_agvs m) <= IZR (total_agvs m))
    by (apply IZR_le; lia).
  assert (Hr0 : 0 <= IZR (active_agvs m) / IZR (total_agvs m)).
  { apply Rmult_le_pos; [lra |].
    apply Rlt_le, Rinv_0_lt_compat, Hpos. }
  assert (Hr1 : IZR (active_agvs m) / IZR (total_agvs m) <= 1).
  { apply (Rmult_le_reg_r (IZR (total_agvs m))); [exact Hpos |].
    unfold Rdiv. rewrite Rmult_assoc, Rinv_l by lra. lra. }
  lra.
Qed.

Lemma average_battery_bounds (l : list AGV) :
  Forall battery_in_range l ->
  0 <= match l with
       | [] => 0
       | _ :: _ => battery_sum l / IZR (Z.of_nat (List.length l))
       end <= 100.
Proof.
  intros Hl. destruct l as [| a l]; [lra |].
  pose proof (battery_sum_bounds (a :: l) Hl) as [H0 H1].
  rewrite <- INR_IZR_INZ.
  assert (Hn : 0 < INR (List.length (a :: l)))
    by (apply lt_0_INR; cbn; lia).
  split.
  - apply Rmult_le_pos; [exact H0 |].
    apply Rlt_le, Rinv_0_lt_compat, Hn.
  - apply (Rmult_le_reg_r (INR (List.length (a :: l)))); [exact Hn |].
    unfold Rdiv. rewrite Rmult_assoc, Rinv_l by lra. lra.
Qed.

(** X14: the figures of the fleet overview fit together.  The AGVs that are
    active, idle and charging, together with those in MAINTENANCE (which
    the overview does not report), make up the total; pending and
    completed tasks are disjoint parts of the tasks; and with battery
    levels in [0, 100] the average battery and the fleet efficiency that
    the overview stores both lie in [0, 100], also for an empty fleet. *)
Theorem fleet_overview_consistent (repo : CSVDataAdapter) (now : datetime) :
  Forall battery_in_range (_agvs repo) ->
  let overview := get_fleet_overview repo now in
  let m := fleet_metrics overview in
  (total_agvs m
   = active_agvs m + idle_agvs m + charging_agvs m
     + count_if (fun agv => AGVStatus_eqb (status agv) MAINTENANCE)
                (_agvs repo))%Z
  /\ (0 <= active_agvs m /\ 0 <= idle_agvs m /\ 0 <= charging_agvs m)%Z
  /\ (active_agvs m + idle_agvs m + charging_agvs m <= total_agvs m)%Z
  /\ (0 <= pending_tasks m /\ 0 <= completed_tasks m)%Z
  /\ (pending_tasks m + completed_tasks m <= total_tasks overview)%Z
  /\ 0 <= average_battery m <= 100
  /\ 0 <= fleet_efficiency m <= 100
  /\ (total_agvs m <> 0%Z ->
      fleet_efficiency m
      = (IZR (active_agvs m) / IZR (total_agvs m) * 0.7
         + average_battery m / 100 * 0.3) * 100).
Proof.
  intros Hrange overview m.
  pose proof (status_partition (_agvs repo)) as Hpart.
  pose proof (count_if_nonneg
                (fun agv => AGVStatus_eqb (status agv) MOVING
                            || AGVStatus_eqb (status agv) TRANSPORTING)
                (_agvs repo)) as Hact.
  pose proof (count_if_nonneg
                (fun agv => AGVStatus_eqb (status agv) IDLE) (_agvs repo))
    as Hidle.
  pose proof (count_if_nonneg
                (fun agv => AGVStatus_eqb (status agv) CHARGING)
                (_agvs repo)) as Hch.
  pose proof (count_if_nonneg
                (fun agv => AGVStatus_eqb (status agv) MAINTENANCE)
                (_agvs repo)) as Hmt.
  pose proof (average_battery_bounds (_agvs repo) Hrange) as Havg.
  pose proof (pending_completed_disjoint (_tasks repo)) as Htasks.
  subst m overview. unfold get_fleet_overview, get_all_agvs, get_all_tasks,
    get_pending_tasks.
  cbn [fleet_metrics total_agvs active_agvs idle_agvs charging_agvs
       pending_tasks completed_tasks average_battery fleet_efficiency
       total_tasks].
  split; [lia |]. split; [lia |]. split; [lia |].
  split; [split; [lia | apply count_if_nonneg] |].
  split; [exact Htasks |]. split; [exact Havg |].
  split.
  - apply efficiency_in_percent_range;
      cbn [total_agvs active_agvs average_battery]; [lia | exact Havg].
  - intros Hne. unfold calculate_efficiency.
    cbn [total_agvs active_agvs average_battery].
    destruct (Z.eqb_spec (Z.of_nat (List.length (_agvs repo))) 0)
      as [E | _]; [contradiction | reflexivity].
Qed.

Lemma fleet_overview_consistent_witness :
  Forall battery_in_range (_agvs yard_under_way)
  /\ let m := fleet_metrics (get_fleet_overview yard_under_way 7%nat) in
     0 <= fleet_efficiency m <= 100
     /\ (active_agvs m + idle_agvs m + charging_agvs m <= total_agvs m)%Z.
Proof.
  assert (H : Forall battery_in_range (_agvs yard_under_way)).
  { cbn. repeat constructor; unfold battery_in_range; cbn; lra. }
  split; [exact H |].
  destruct (fleet_overview_consistent yard_under_way 7%nat H)
    as (_ & _ & Hsum & _ & _ & _ & Heff & _).
  split; [exact Heff | exact Hsum].
Defined.

(** ** Emergency stop *)

Lemma store_agv_replaces (d : list AGV) (agv w : AGV) :
  NoDup (map agv_id d) ->
  In w (store_agv d agv) ->
  w = agv \/ (In w d /\ agv_id w <> agv_id agv).
Proof.
  induction d as [| a d IH]; cbn [store_agv map In].
  - intros _ [E | []]. left. symmetry. exact E.
  - intros Hnodup. inversion Hnodup as [| ? ? Hnot Hrest]; subst.
    destruct (String.eqb_spec (agv_id a) (agv_id agv)) as [E | NE];
      cbn [In].
    + intros [Hw | Hw]; [left; symmetry; exact Hw |].
      right. split; [right; exact Hw |].
      intros Heq. apply Hnot. rewrite E, <- Heq. apply in_map. exact Hw.
    + intros [Hw | Hw].
      * subst w. right. split; [left; reflexivity | exact NE].
      * destruct (IH Hrest Hw) as [Hx | [Hin Hne]];
          [left; exact Hx | right; split; [right; exact Hin | exact Hne]].
Qed.

Lemma update_agv_written (P : AGV -> Prop) (repo : CSVDataAdapter)
    (agv w : AGV) (now : datetime) :
  P (set_last_update agv now) ->
  In w (_agvs (update_agv repo agv now)) ->
  In w (_agvs repo) \/ P w.
Proof.
  intros Hagv Hin. unfold update_agv in Hin. cbn [_agvs] in Hin.
  destruct (store_agv_in _ _ _ Hin) as [Hold | ->];
    [left; exact Hold | right; exact Hagv].
Qed.

Lemma movement_step_not_carrying (tid : string) (now : datetime)
    (agv w : AGV) (st : CSVDataAdapter * Random) :
  not_carrying tid agv ->
  In w (_agvs (fst (movement_step now agv st))) ->
  In w (_agvs (fst st)) \/ not_carrying tid w.
Proof.
  destruct st as [repo g]. cbn [fst]. intros Hagv.
  unfold movement_step.
  destruct (AGVStatus_eqb (status agv) MOVING
            || AGVStatus_eqb (status agv) TRANSPORTING);
    [| intros Hin; left; exact Hin].
  destruct (current_task_id agv) as [tid1 |] eqn:Hcur;
    [| apply (update_agv_written (not_carrying tid));
       unfold not_carrying; cbn; congruence].
  assert (Hkeep : not_carrying tid (set_last_update agv now))
    by (unfold not_carrying in *; cbn; congruence).
  destruct (negb (tid1 =? "")%string);
    [| apply (update_agv_written (not_carrying tid)); exact Hkeep].
  destruct (get_task_by_id repo tid1) as [task |];
    [| apply (update_agv_written (not_carrying tid)); exact Hkeep].
  cbv zeta. destruct (Rgtb _ 5).
  - destruct (uniform 0.1 0.3 g) as [u g1]. cbn [fst].
    apply (update_agv_written (not_carrying tid)).
    unfold not_carrying in *. cbn. congruence.
  - cbn [fst]. intros Hin.
    apply (update_agv_written (not_carrying tid)) in Hin; [exact Hin |].
    unfold not_carrying. cbn. discriminate.
Qed.

Lemma battery_step_not_carrying (tid : string) (now : datetime)
    (agv w : AGV) (st : CSVDataAdapter * Random) :
  not_carrying tid agv ->
  In w (_agvs (fst (battery_step now agv st))) ->
  In w (_agvs (fst st)) \/ not_carrying tid w.
Proof.
  destruct st as [repo g]. cbn [fst]. intros Hagv.
  unfold battery_step.
  destruct (AGVStatus_eqb (status agv) CHARGING).
  - destruct (uniform 2 5 g) as [u g1]. cbn [fst].
    apply (update_agv_written (not_carrying tid)).
    destruct (Rgeb _ 90); exact Hagv.
  - destruct (AGVStatus_eqb (status agv) IDLE);
      [| intros Hin; left; exact Hin].
    destruct (uniform 0.01 0.05 g) as [u g1].
    destruct (Rltb _ 20).
    + destruct (random g1) as [r g2]. cbn [fst].
      apply (update_agv_written (not_carrying tid)).
      destruct (Rltb r 0.3); exact Hagv.
    + cbn [fst]. apply (update_agv_written (not_carrying tid)).
      exact Hagv.
Qed.

Lemma movement_step_other_task (tid : string) (now : datetime) (agv : AGV)
    (st : CSVDataAdapter * Random) :
  not_carrying tid agv ->
  get_task_by_id (fst (movement_step now agv st)) tid
  = get_task_by_id (fst st) tid.
Proof.
  intros Hagv.
  destruct (movement_step_tasks now agv st)
    as [E | (tid1 & task & Hcur & Htask & E)].
  - unfold get_task_by_id. rewrite E. reflexivity.
  - rewrite E. cbn [fst].
    change (get_task_by_id (update_agv ?r ?a ?n) tid)
      with (get_task_by_id r tid).
    apply get_update_task_other.
    pose proof (get_task_by_id_key _ _ _ Htask) as Hkey.
    cbn [set_completed_at task_id]. unfold not_carrying in Hagv.
    congruence.
Qed.

Lemma movement_loop_other_task (tid : string) (now : datetime)
    (l : list AGV) :
  forall st,
    Forall (not_carrying tid) l ->
    get_task_by_id
      (fst (fold_left (fun s a => movement_step now a s) l st)) tid
    = get_task_by_id (fst st) tid.
Proof.
  induction l as [| e l IH]; intros st Hl; [reflexivity |].
  inversion Hl as [| ? ? He Hl']; subst.
  cbn [fold_left]. rewrite IH by exact Hl'.
  apply movement_step_other_task. exact He.
Qed.

Lemma round_keeps_orphan (tid : string) (now : datetime)
    (st : CSVDataAdapter * Random) :
  Forall (not_carrying tid) (_agvs (fst st)) ->
  Forall (not_carrying tid) (_agvs (fst (simulation_round now st)))
  /\ get_task_by_id (fst (simulation_round now st)) tid
     = get_task_by_id (fst st) tid.
Proof.
  intros Hst.
  assert (Hmove : Forall (not_carrying tid)
                         (_agvs (fst (simulate_agv_movement now st)))).
  { unfold simulate_agv_movement, get_all_agvs.
    apply (loop_forall _ (movement_step now)
             (fun agv s w => movement_step_not_carrying tid now agv w s));
      exact Hst. }
  unfold simulation_round. split.
  - unfold simulate_battery_changes, get_all_agvs.
    apply (loop_forall _ (battery_step now)
             (fun agv s w => battery_step_not_carrying tid now agv w s));
      exact Hmove.
  - unfold get_task_by_id at 1. rewrite battery_tick_tasks.
    fold (get_task_by_id (fst (simulate_agv_movement now st)) tid).
    unfold simulate_agv_movement, get_all_agvs.
    apply movement_loop_other_task. exact Hst.
Qed.

(** X15: an emergency stop orphans the task.  The stopped AGV is IDLE
    without current task where it stood, but the task record is not
    touched: it stays assigned to the AGV and is not completed, so it is
    not among the pending tasks, and when no other AGV carries it no run
    of the simulator ever completes or changes it.  This holds whether or
    not the AGV file could be written. *)
Theorem emergency_stop_orphans_task (repo : CSVDataAdapter)
    (id tid : string) (a : AGV) (t : Task) (now : datetime)
    (persisted : bool) :
  NoDup (map agv_id (_agvs repo)) ->
  get_agv_by_id repo id = Some a ->
  current_task_id a = Some tid ->
  get_task_by_id repo tid = Some t ->
  assigned_agv_id t = Some id -> id <> "" ->
  completed_at t = None ->
  (forall b, In b (_agvs repo) -> agv_id b <> id -> not_carrying tid b) ->
  let repo' := snd (emergency_stop_agv repo id now persisted) in
  (exists a',
      get_agv_by_id repo' id = Some a'
      /\ status a' = IDLE /\ current_task_id a' = None
      /\ position a' = position a
      /\ battery_level a' = battery_level a)
  /\ get_task_by_id repo' tid = Some t
  /\ ~ In t (get_pending_tasks repo')
  /\ get_tasks_by_agv repo' id = get_tasks_by_agv repo id
  /\ In t (get_tasks_by_agv repo' id)
  /\ forall nows g,
       get_task_by_id (fst (run_simulation nows (repo', g))) tid = Some t.
Proof.
  intros Hnodup Hget Hcur Htask Hassigned Hid Hopen Hothers repo'.
  pose proof (get_agv_by_id_key _ _ _ Hget) as Hkey.
  set (a1 := set_last_update
               (set_current_task_id (set_status a IDLE) None) now).
  assert (Hrepo' : repo' = update_agv repo a1 now).
  { subst repo'. unfold emergency_stop_agv. rewrite Hget.
    destruct persisted; reflexivity. }
  assert (Htasks : _tasks repo' = _tasks repo)
    by (rewrite Hrepo'; reflexivity).
  assert (Htask' : get_task_by_id repo' tid = Some t)
    by (unfold get_task_by_id; rewrite Htasks; exact Htask).
  assert (Hfree : Forall (not_carrying tid) (_agvs repo')).
  { apply Forall_forall. intros w Hw. rewrite Hrepo' in Hw.
    unfold update_agv in Hw. cbn [_agvs] in Hw.
    destruct (store_agv_replaces _ _ _ Hnodup Hw) as [-> | [Hin Hne]].
    - unfold not_carrying. cbn. discriminate.
    - apply Hothers; [exact Hin |].
      cbn in Hne. congruence. }
  split.
  { exists (set_last_update a1 now). split.
    - rewrite Hrepo'. rewrite <- Hkey.
      apply (get_update_agv_same repo a1 now).
    - repeat split. }
  split; [exact Htask' |].
  split.
  { unfold get_pending_tasks. rewrite filter_In. intros [_ Hp].
    unfold is_completed in Hp. rewrite Hopen, Hassigned in Hp.
    cbn in Hp. destruct (String.eqb_spec id ""); [contradiction |].
    cbn in Hp. discriminate Hp. }
  split; [unfold get_tasks_by_agv; rewrite Htasks; reflexivity |].
  split.
  { unfold get_tasks_by_agv. rewrite Htasks. apply filter_In. split.
    - unfold get_task_by_id in Htask. apply find_some in Htask.
      apply Htask.
    - rewrite Hassigned. apply String.eqb_refl. }
  intros nows g. rewrite <- Htask'.
  change repo' with (fst (repo', g)) in Hfree.
  change repo' with (fst (repo', g)) at 2.
  generalize dependent (repo', g). clear.
  unfold run_simulation.
  induction nows as [| tick nows IH]; intros st Hfree; [reflexivity |].
  cbn [fold_left].
  destruct (round_keeps_orphan tid tick st Hfree) as [Hfree' Hsame].
  rewrite (IH _ Hfree'). exact Hsame.
Qed.

Lemma emergency_stop_orphans_task_witness :
  (NoDup (map agv_id (_agvs yard_under_way))
   /\ get_agv_by_id yard_under_way "AGV-M" = Some agv_m
   /\ current_task_id agv_m = Some "TSK-2"
   /\ get_task_by_id yard_under_way "TSK-2" = Some task_2
   /\ assigned_agv_id task_2 = Some "AGV-M" /\ "AGV-M" <> ""
   /\ completed_at task_2 = None
   /\ (forall b, In b (_agvs yard_under_way) -> agv_id b <> "AGV-M" ->
                 not_carrying "TSK-2" b))
  /\ forall nows g,
       get_task_by_id
         (fst (run_simulation nows
                 (snd (emergency_stop_agv yard_under_way "AGV-M" 9%nat true),
                  g)))
         "TSK-2"
       = Some task_2.
Proof.
  assert (Hnodup : NoDup (map agv_id (_agvs yard_under_way))).
  { cbn. constructor.
    - intros [E | []]. discriminate E.
    - constructor; [intros [] | constructor]. }
  assert (Hothers : forall b, In b (_agvs yard_under_way) ->
                              agv_id b <> "AGV-M" ->
                              not_carrying "TSK-2" b).
  { intros b [<- | [<- | []]] Hne.
    - unfold not_carrying. cbn. discriminate.
    - exfalso. apply Hne. reflexivity. }
  assert (Hid : "AGV-M" <> "") by discriminate.
  split.
  { repeat split; try reflexivity; assumption. }
  apply (emergency_stop_orphans_task yard_under_way "AGV-M" "TSK-2" agv_m
           task_2 9%nat true Hnodup eq_refl eq_refl eq_refl eq_refl Hid
           eq_refl Hothers).
Defined.

(** ** Assignment with the route optimizer of the repository *)

Lemma assign_loop_skips (self : FleetOrchestrationService) (now : datetime)
    (before rest : list (string * string)) :
  forall (acc : list Assignment) (repo : CSVDataAdapter),
    Forall (fun pair => feasible repo pair = false) before ->
    assign_loop self now (before ++ rest) acc repo
    = assign_loop self now rest acc repo.
Proof.
  induction before as [| [aid tid] before IH]; intros acc repo Hb;
    [reflexivity |].
  inversion Hb as [| ? ? Hpair Hb']; subst.
  cbn [app assign_loop]. unfold feasible in Hpair. cbn [fst snd] in Hpair.
  destruct (get_agv_by_id repo aid) as [agv |]; [| apply IH; exact Hb'].
  destruct (get_task_by_id repo tid) as [task |]; [| apply IH; exact Hb'].
  rewrite Hpair. apply IH. exact Hb'.
Qed.

Lemma assign_loop_without_routes (router : OpenAIRouteOptimizer)
    (analytics : option AIAnalyticsPort) (now : datetime)
    (items : list (string * string)) (repo : CSVDataAdapter) :
  let self :=
    mkFleetOrchestrationService (Some (OpenAIRouteOptimizer_port router))
                                analytics in
  (Forall (fun pair => feasible repo pair = false) items
   /\ assign_loop self now items [] repo = (Ok [], repo))
  \/ (exists repo',
        assign_loop self now items [] repo = (Raise TypeError, repo')).
Proof.
  intros self. induction items as [| [aid tid] rest IH].
  - left. split; [constructor | reflexivity].
  - cbn [assign_loop].
    destruct (get_agv_by_id repo aid) as [agv |] eqn:Hagv.
    + destruct (get_task_by_id repo tid) as [task |] eqn:Htask.
      * destruct (can_reach agv (destination task)) eqn:Hreach.
        -- right. cbv zeta.
           cbn [self route_optimizer OpenAIRouteOptimizer_port
                optimize_route].
           rewrite optimize_route_raises. eexists. reflexivity.
        -- destruct IH as [[Hall E] | Hraise]; [left | right; exact Hraise].
           split; [| exact E]. constructor; [| exact Hall].
           unfold feasible. cbn [fst snd]. rewrite Hagv, Htask.
           exact Hreach.
      * destruct IH as [[Hall E] | Hraise]; [left | right; exact Hraise].
        split; [| exact E]. constructor; [| exact Hall].
        unfold feasible. cbn [fst snd]. rewrite Hagv, Htask. reflexivity.
    + destruct IH as [[Hall E] | Hraise]; [left | right; exact Hraise].
      split; [| exact E]. constructor; [| exact Hall].
      unfold feasible. cbn [fst snd]. rewrite Hagv. reflexivity.
Qed.

(** X16: with the route optimizer of the repository no task is ever
    assigned successfully.  Whatever the remote models answer,
    [assign_optimal_tasks] either reports no assignment at all and leaves
    the repository as it is, or raises.  And when the advisor recommends a
    pair that passes the test of the loop, after pairs that do not, the
    call raises TypeError with the pair half assigned: the stored AGV is
    MOVING with the task as current task and the stored task is assigned
    and started, although neither was written back and nothing is
    reported. *)
Theorem assignment_with_repository_router (router : OpenAIRouteOptimizer)
    (analytics : option AIAnalyticsPort) (repo : CSVDataAdapter)
    (now : datetime) :
  let self :=
    mkFleetOrchestrationService (Some (OpenAIRouteOptimizer_port router))
                                analytics in
  let out := assign_optimal_tasks self repo now in
  (forall report,
      fst out = Ok report -> assignments report = [] /\ snd out = repo)
  /\ (forall port before aid tid rest agv task,
        analytics = Some port ->
        get_available_agvs repo <> [] -> get_pending_tasks repo <> [] ->
        recommend_task_assignment port (get_available_agvs repo)
                                  (get_pending_tasks repo)
        = Ok (ReplyDict (before ++ (aid, tid) :: rest)) ->
        Forall (fun pair => feasible repo pair = false) before ->
        get_agv_by_id repo aid = Some agv ->
        get_task_by_id repo tid = Some task ->
        can_reach agv (destination task) = true ->
        fst out = Raise TypeError
        /\ get_agv_by_id (snd out) aid
           = Some (set_status (set_current_task_id agv (Some tid)) MOVING)
        /\ get_task_by_id (snd out) tid
           = Some (set_started_at (set_assigned_agv_id task (Some aid))
                                  (Some now))
        /\ same_keys repo (snd out)).
Proof.
  intros self out. split.
  - intros report. subst out. unfold assign_optimal_tasks.
    destruct (get_available_agvs repo) as [| a0 avail];
      [intros E; injection E as <-; split; reflexivity |].
    destruct (get_pending_tasks repo) as [| t0 pend];
      [intros E; injection E as <-; split; reflexivity |].
    destruct (ai_analytics self) as [port |]; [| discriminate].
    destruct (recommend_task_assignment port _ _) as [[items |] | e];
      try discriminate.
    destruct (assign_loop_without_routes router analytics now items repo)
      as [[_ E] | [repo' E]]; fold self in E; rewrite E; cbn [fst snd].
    + intros H. injection H as <-. split; reflexivity.
    + discriminate.
  - intros port before aid tid rest agv task Hport Havail Hpend Hreply
           Hbefore Hagv Htask Hreach.
    subst out. unfold assign_optimal_tasks.
    destruct (get_available_agvs repo) as [| a0 avail] eqn:Ha;
      [contradiction |].
    destruct (get_pending_tasks repo) as [| t0 pend] eqn:Hp;
      [contradiction |].
    cbn [self ai_analytics]. rewrite Hport, Hreply.
    fold self. rewrite (assign_loop_skips self now before _ [] repo Hbefore).
    cbn [assign_loop]. rewrite Hagv, Htask, Hreach. cbv zeta.
    cbn [self route_optimizer OpenAIRouteOptimizer_port optimize_route].
    rewrite optimize_route_raises. cbn [fst snd].
    pose proof (get_agv_by_id_key _ _ _ Hagv) as Hka.
    pose proof (get_task_by_id_key _ _ _ Htask) as Hkt.
    split; [reflexivity |]. split.
    { unfold get_agv_by_id, mutate_task, mutate_agv. cbn [_agvs].
      subst aid.
      apply (find_store_agv_same (_agvs repo)
               (set_status (set_current_task_id agv (Some tid)) MOVING)). }
    split.
    { unfold get_task_by_id, mutate_task, mutate_agv. cbn [_tasks].
      subst tid.
      apply (find_store_task_same (_tasks repo)
               (set_started_at (set_assigned_agv_id task (Some aid))
                               (Some now))). }
    unfold same_keys, mutate_task, mutate_agv. cbn [_agvs _tasks]. split.
    + apply store_agv_ids. cbn. apply (get_agv_key_in repo aid agv Hagv).
    + apply store_task_ids. cbn. apply (get_task_key_in repo tid task Htask).
Qed.

Lemma assignment_with_repository_router_witness :
  let port := OpenAIAnalytics_port offline_analytics in
  let out :=
    assign_optimal_tasks
      (mkFleetOrchestrationService
         (Some (OpenAIRouteOptimizer_port offline_router)) (Some port))
      yard 3%nat in
  (get_available_agvs yard <> [] /\ get_pending_tasks yard <> []
   /\ recommend_task_assignment port (get_available_agvs yard)
                                (get_pending_tasks yard)
      = Ok (ReplyDict ([] ++ [("AGV-A", "TSK-1")]))
   /\ Forall (fun pair => feasible yard pair = false) []
   /\ get_agv_by_id yard "AGV-A" = Some agv_a
   /\ get_task_by_id yard "TSK-1" = Some task_1
   /\ can_reach agv_a (destination task_1) = true)
  /\ fst out = Raise TypeError
  /\ option_map status (get_agv_by_id (snd out) "AGV-A") = Some MOVING
  /\ option_map assigned_agv_id (get_task_by_id (snd out) "TSK-1")
     = Some (Some "AGV-A").
Proof.
  intros port out.
  assert (Ha : get_available_agvs yard <> [])
    by (rewrite yard_available; discriminate).
  assert (Hp : get_pending_tasks yard <> [])
    by (rewrite yard_pending; discriminate).
  assert (Hreply :
            recommend_task_assignment port (get_available_agvs yard)
                                      (get_pending_tasks yard)
            = Ok (ReplyDict ([] ++ [("AGV-A", "TSK-1")]))).
  { rewrite yard_available, yard_pending.
    cbn [port OpenAIAnalytics_port recommend_task_assignment
         OpenAIAnalytics_recommend_task_assignment offline_analytics
         assignment_completion].
    rewrite yard_fallback_assignment. reflexivity. }
  assert (Hreach : can_reach agv_a (destination task_1) = true).
  { apply can_reach_true. change (position agv_a) with depot.
    change (destination task_1) with quay.
    rewrite depot_to_quay. cbn. lra. }
  split.
  { repeat split; try assumption; try reflexivity. constructor. }
  destruct (assignment_with_repository_router offline_router (Some port)
              yard 3%nat) as [_ Hraise].
  destruct (Hraise port [] "AGV-A" "TSK-1" [] agv_a task_1 eq_refl Ha Hp
              Hreply (Forall_nil _) eq_refl eq_refl Hreach)
    as (Hout & Hagv & Htask & _).
  fold out in Hout, Hagv, Htask.
  split; [exact Hout |]. rewrite Hagv, Htask. split; reflexivity.
Defined.

(** ** Emergency tasks *)

Lemma task_key_found (d : list Task) (id : string) :
  In id (map task_id d) ->
  exists t, find (fun t => String.eqb (task_id t) id) d = Some t.
Proof.
  induction d as [| t d IH]; cbn [find map In]; [intros [] |].
  destruct (String.eqb_spec (task_id t) id) as [E | NE].
  - intros _. exists t. reflexivity.
  - intros [E | Hin]; [contradiction | exact (IH Hin)].
Qed.

Lemma pending_snoc (d : list Task) (task : Task) :
  completed_at task = None -> assigned_agv_id task = None ->
  In task
     (get_pending_tasks (mkCSVDataAdapter [] (d ++ [task]))).
Proof.
  intros Hc Ha. unfold get_pending_tasks. cbn [_tasks].
  apply filter_In. split; [apply in_or_app; right; left; reflexivity |].
  unfold is_completed. rewrite Hc, Ha. reflexivity.
Qed.

(** X17: an emergency task is stored before anything else happens.  Under
    an id not yet in use the new task is in the repository in every
    outcome: when the save fails and the caller is told that the task
    could not be created, when no AGV is available and nothing is
    assigned, and when the service has no advisor and the assignment
    raises.  The id carries the clock reading to the second, so a second
    emergency task of the same second, whatever its content, is refused
    and changes nothing. *)
Theorem create_emergency_task_stored_first
    (self : FleetOrchestrationService) (repo : CSVDataAdapter)
    (a_description : string) (a_origin a_destination : Position)
    (a_container_id : option string) (now : datetime)
    (stamp : datetime -> string) (saved : bool) :
  let id := ("URGENT_" ++ stamp now)%string in
  let out :=
    create_emergency_task self repo a_description a_origin a_destination
                          a_container_id now stamp saved in
  get_task_by_id repo id = None ->
  exists new,
    task_id new = id /\ priority new = URGENT
    /\ origin new = a_origin /\ destination new = a_destination
    /\ container_id new = a_container_id /\ created_at new = now
    /\ assigned_agv_id new = None /\ completed_at new = None
    /\ In id (map task_id (_tasks (snd out)))
    /\ map agv_id (_agvs (snd out)) = map agv_id (_agvs repo)
    /\ (saved = false ->
        out = (Ok EmergencyNotCreated,
               mkCSVDataAdapter (_agvs repo) (_tasks repo ++ [new])))
    /\ (saved = true -> get_available_agvs repo = [] ->
        out = (Ok (EmergencyCreated
                     new (mkAssignmentReport [] None NothingToAssign)),
               mkCSVDataAdapter (_agvs repo) (_tasks repo ++ [new])))
    /\ (saved = true -> get_available_agvs repo <> [] ->
        ai_analytics self = None ->
        out = (Raise AttributeError,
               mkCSVDataAdapter (_agvs repo) (_tasks repo ++ [new])))
    /\ (forall self2 description2 origin2 destination2 container2 saved2,
          create_emergency_task self2 (snd out) description2 origin2
                                destination2 container2 now stamp saved2
          = (Ok EmergencyNotCreated, snd out)).
Proof.
  intros id out Hfree.
  set (new := Task_init id ("🚨 URGENTE: " ++ a_description)%string
                        a_origin a_destination URGENT a_container_id None
                        None None None 0 now).
  set (repo1 := mkCSVDataAdapter (_agvs repo) (_tasks repo ++ [new])).
  assert (Hcreate : create_task repo new saved = (saved, repo1)).
  { unfold create_task. change (task_id new) with id. rewrite Hfree.
    unfold repo1. rewrite find_task_none_store; [reflexivity |].
    exact Hfree. }
  assert (Hout : out
                 = if saved then
                     match assign_optimal_tasks self repo1 now with
                     | (Ok assignment_result, repo2) =>
                         (Ok (EmergencyCreated
                                (match get_task_by_id repo2 id with
                                 | Some stored => stored
                                 | None => new
                                 end)
                                assignment_result), repo2)
                     | (Raise e, repo2) => (Raise e, repo2)
                     end
                   else (Ok EmergencyNotCreated, repo1)).
  { subst out. unfold create_emergency_task. fold id. fold new.
    rewrite Hcreate. destruct saved; reflexivity. }
  assert (Hpending : In new (get_pending_tasks repo1)).
  { apply (pending_snoc (_tasks repo) new); reflexivity. }
  assert (Hkeys : same_keys repo1 (snd out)).
  { rewrite Hout. destruct saved; [| apply same_keys_refl].
    pose proof (assign_optimal_tasks_same_keys self repo1 now) as H.
    destruct (assign_optimal_tasks self repo1 now) as [[r | e] repo2];
      exact H. }
  assert (Hin : In id (map task_id (_tasks (snd out)))).
  { destruct Hkeys as [_ Ht]. rewrite Ht. unfold repo1. cbn [_tasks].
    rewrite map_app. apply in_or_app. right. left. reflexivity. }
  exists new.
  do 8 (split; [reflexivity |]).
  split; [exact Hin |].
  split; [destruct Hkeys as [Ha _]; exact Ha |].
  split; [intros ->; exact Hout |].
  split.
  { intros -> Hnone. rewrite Hout. unfold assign_optimal_tasks.
    change (get_available_agvs repo1) with (get_available_agvs repo).
    rewrite Hnone. cbn [snd fst].
    replace (get_task_by_id repo1 id) with (Some new); [reflexivity |].
    symmetry. unfold get_task_by_id, repo1. cbn [_tasks].
    rewrite <- (find_task_none_store (_tasks repo) new Hfree).
    apply (find_store_task_same (_tasks repo) new). }
  split.
  { intros -> Havail Hnone. rewrite Hout. unfold assign_optimal_tasks.
    change (get_available_agvs repo1) with (get_available_agvs repo).
    destruct (get_available_agvs repo) as [| a0 avail]; [contradiction |].
    destruct (get_pending_tasks repo1) as [| t0 pend];
      [destruct Hpending |].
    rewrite Hnone. reflexivity. }
  intros self2 description2 origin2 destination2 container2 saved2.
  destruct (task_key_found _ _ Hin) as [old Hold].
  unfold create_emergency_task, create_task.
  change (task_id (Task_init ("URGENT_" ++ stamp now) _ _ _ _ _ _ _ _ _ _ _))
    with id.
  unfold get_task_by_id. rewrite Hold. reflexivity.
Qed.

Lemma create_emergency_task_stored_first_witness :
  let stamp := fun _ : datetime => "20240101_120000" in
  let self := mkFleetOrchestrationService None None in
  let out :=
    create_emergency_task self yard "Derrame" depot quay None 0%nat stamp
                          true in
  get_task_by_id yard "URGENT_20240101_120000" = None
  /\ fst out = Raise AttributeError
  /\ In "URGENT_20240101_120000" (map task_id (_tasks (snd out)))
  /\ create_emergency_task self (snd out) "Incendio" quay depot None 0%nat
                           stamp true
     = (Ok EmergencyNotCreated, snd out).
Proof.
  intros stamp self out.
  assert (Hfree : get_task_by_id yard ("URGENT_" ++ stamp 0%nat) = None)
    by reflexivity.
  split; [exact Hfree |].
  destruct (create_emergency_task_stored_first self yard "Derrame" depot
              quay None 0%nat stamp true Hfree)
    as (new & _ & _ & _ & _ & _ & _ & _ & _ & Hin & _ & _ & _ & Hraise
        & Hagain).
  fold out in Hin, Hraise, Hagain.
  split.
  - rewrite Hraise; [reflexivity | reflexivity | | reflexivity].
    rewrite yard_available. discriminate.
  - split; [exact Hin | apply Hagain].
Defined.

(** ** The greedy fallback as a whole *)

Lemma dict_set_keys {V : Type} (d : list (string * V)) (k : string)
    (v : V) :
  forall k', In k' (map fst (dict_set d k v)) -> k' = k \/ In k' (map fst d).
Proof.
  induction d as [| [k0 v0] d IH]; intros k'; cbn [dict_set map In fst].
  - intros [E | []]. left. symmetry. exact E.
  - destruct (String.eqb_spec k0 k) as [E | NE]; cbn [map In fst].
    + intros H. right. exact H.
    + intros [E | Hin]; [right; left; exact E |].
      destruct (IH k' Hin) as [Hk | Hd]; [left | right; right]; assumption.
Qed.

Lemma dict_set_keys_distinct {V : Type} (d : list (string * V))
    (k : string) (v : V) :
  NoDup (map fst d) -> NoDup (map fst (dict_set d k v)).
Proof.
  induction d as [| [k0 v0] d IH]; cbn [dict_set map fst]; intros Hd.
  - constructor; [intros [] | constructor].
  - inversion Hd as [| ? ? Hnot Hrest]; subst.
    destruct (String.eqb_spec k0 k) as [E | NE]; cbn [map fst].
    + exact Hd.
    + constructor; [| apply IH; exact Hrest].
      intros Hin. destruct (dict_set_keys d k v k0 Hin) as [E | Hold];
        [congruence | contradiction].
Qed.

Lemma dict_set_values {V : Type} (d : list (string * V)) (k : string)
    (v : V) :
  forall w, In w (map snd (dict_set d k v)) -> w = v \/ In w (map snd d).
Proof.
  induction d as [| [k0 v0] d IH]; intros w; cbn [dict_set map In snd].
  - intros [E | []]. left. symmetry. exact E.
  - destruct (String.eqb_spec k0 k) as [E | NE]; cbn [map In snd].
    + intros [E' | Hin]; [left; symmetry; exact E' | right; right; exact Hin].
    + intros [E | Hin]; [right; left; exact E |].
      destruct (IH w Hin) as [Hv | Hd]; [left | right; right]; assumption.
Qed.

Lemma dict_set_values_distinct {V : Type} (d : list (string * V))
    (k : string) (v : V) :
  NoDup (map snd d) -> ~ In v (map snd d) ->
  NoDup (map snd (dict_set d k v)).
Proof.
  induction d as [| [k0 v0] d IH]; cbn [dict_set map snd In];
    intros Hd Hnew.
  - constructor; [intros [] | constructor].
  - inversion Hd as [| ? ? Hnot Hrest]; subst.
    destruct (String.eqb_spec k0 k) as [E | NE]; cbn [map snd].
    + constructor; [| exact Hrest]. intros Hin. apply Hnew. right.
      exact Hin.
    + constructor.
      * intros Hin. destruct (dict_set_values d k v v0 Hin) as [E | Hold];
          [apply Hnew; left; exact E | contradiction].
      * apply IH; [exact Hrest |]. intros Hin. apply Hnew. right. exact Hin.
Qed.

Lemma dict_set_entries {V : Type} (d : list (string * V)) (k : string)
    (v : V) :
  forall p, In p (dict_set d k v) -> p = (k, v) \/ In p d.
Proof.
  induction d as [| [k0 v0] d IH]; intros p; cbn [dict_set In].
  - intros [E | []]. left. symmetry. exact E.
  - destruct (String.eqb_spec k0 k) as [E | NE]; cbn [In].
    + intros [E' | Hin]; [left; subst; reflexivity | right; right; exact Hin].
    + intros [E | Hin]; [right; left; exact E |].
      destruct (IH p Hin) as [Hv | Hd]; [left | right; right]; assumption.
Qed.

Lemma list_remove_incl (t : Task) (l : list Task) :
  forall u, In u (list_remove t l) -> In u l.
Proof.
  induction l as [| v l IH]; intros u; cbn [list_remove In]; [intros [] |].
  destruct (Task_eq_dec v t); cbn [In].
  - intros H. right. exact H.
  - intros [E | Hin]; [left; exact E | right; exact (IH u Hin)].
Qed.

Lemma list_remove_ids (t : Task) (l : list Task) :
  NoDup (map task_id l) -> In t l ->
  NoDup (map task_id (list_remove t l))
  /\ ~ In (task_id t) (map task_id (list_remove t l)).
Proof.
  induction l as [| v l IH]; cbn [list_remove map In]; [intros _ [] |].
  intros Hl Hin. inversion Hl as [| ? ? Hnot Hrest]; subst.
  destruct (Task_eq_dec v t) as [E | NE].
  - subst v. split; assumption.
  - destruct Hin as [E | Hin]; [contradiction |].
    destruct (IH Hrest Hin) as [Hnd Hgone]. cbn [map]. split.
    + constructor; [| exact Hnd]. intros Hv. apply Hnot.
      apply in_map_iff in Hv. destruct Hv as (u & Hid & Hu).
      rewrite <- Hid. apply in_map. apply (list_remove_incl t l u Hu).
    + intros [E | Hv]; [| exact (Hgone Hv)].
      apply Hnot. rewrite E. apply in_map. exact Hin.
Qed.

Lemma fallback_loop_keeps_ok (agvs : list AGV) :
  forall st,
    fallback_state_ok st ->
    fallback_state_ok (fallback_assignment_loop agvs st).
Proof.
  induction agvs as [| agv rest IH]; intros [d pool] Hst; [exact Hst |].
  cbn [fallback_assignment_loop].
  destruct pool as [| first others]; [apply IH; exact Hst |].
  destruct (Rgtb (battery_level agv) 30); [| apply IH; exact Hst].
  apply IH. destruct Hst as (Hk & Hv & Hp & Hdis). cbn [fst snd] in *.
  set (closest := min_by (fun t => distance_to (position agv) (origin t))
                         first others).
  assert (Hin : In closest (first :: others)) by apply min_by_in.
  destruct (list_remove_ids closest (first :: others) Hp Hin)
    as [Hnd Hgone].
  assert (Hfresh : ~ In (task_id closest) (map snd d)).
  { intros H. apply (Hdis _ H). apply in_map. exact Hin. }
  unfold fallback_state_ok. cbn [fst snd].
  split; [apply dict_set_keys_distinct; exact Hk |].
  split; [apply dict_set_values_distinct; assumption |].
  split; [exact Hnd |].
  intros v Hv' Hpool.
  destruct (dict_set_values d (agv_id agv) (task_id closest) v Hv')
    as [-> | Hold]; [exact (Hgone Hpool) |].
  apply (Hdis v Hold). apply in_map_iff in Hpool.
  destruct Hpool as (u & Hid & Hu). rewrite <- Hid. apply in_map.
  apply (list_remove_incl closest (first :: others) u Hu).
Qed.

Lemma fallback_loop_entries (agvs : list AGV) :
  forall st p,
    In p (fst (fallback_assignment_loop agvs st)) ->
    In p (fst st)
    \/ ((exists agv,
            In agv agvs /\ agv_id agv = fst p /\ battery_level agv > 30)
        /\ In (snd p) (map task_id (snd st))).
Proof.
  induction agvs as [| agv rest IH]; intros [d pool] p;
    [intros H; left; exact H |].
  cbn [fallback_assignment_loop].
  assert (Hlift :
            forall st',
              (forall q, In q (fst st') ->
                         In q d
                         \/ (q = (agv_id agv, snd q)
                             /\ battery_level agv > 30
                             /\ In (snd q) (map task_id pool))) ->
              (forall u, In u (snd st') -> In u pool) ->
              In p (fst (fallback_assignment_loop rest st')) ->
              In p (fst (d, pool))
              \/ ((exists agv0,
                      In agv0 (agv :: rest) /\ agv_id agv0 = fst p
                      /\ battery_level agv0 > 30)
                  /\ In (snd p) (map task_id (snd (d, pool))))).
  { intros st' Hfst Hsnd Hp. cbn [fst snd].
    destruct (IH st' p Hp) as [Hold | [(agv0 & Hin0 & Hid0 & Hb0) Htask]].
    - destruct (Hfst p Hold) as [Hd | (Hq & Hb & Ht)]; [left; exact Hd |].
      right. split; [| exact Ht].
      exists agv. split; [left; reflexivity |]. split; [| exact Hb].
      rewrite Hq. reflexivity.
    - right. split.
      + exists agv0. split; [right; exact Hin0 | split; assumption].
      + apply in_map_iff in Htask. destruct Htask as (u & Hid & Hu).
        rewrite <- Hid. apply in_map. apply Hsnd. exact Hu. }
  destruct pool as [| first others].
  - apply Hlift; cbn [fst snd]; [intros q Hq; left; exact Hq | tauto].
  - destruct (Rgtb (battery_level agv) 30) eqn:Hb.
    + apply Rgtb_true_iff in Hb. apply Hlift; cbn [fst snd].
      * intros q Hq.
        destruct (dict_set_entries d (agv_id agv) _ q Hq) as [-> | Hd];
          [| left; exact Hd].
        right. cbn [snd]. split; [reflexivity |]. split; [exact Hb |].
        apply in_map. apply min_by_in.
      * apply list_remove_incl.
    + apply Hlift; cbn [fst snd]; [intros q Hq; left; exact Hq | tauto].
Qed.

(** X18: the greedy fallback never recommends a task twice.  For tasks
    with distinct ids the recommendation is a dictionary whose values are
    pairwise distinct ids of the given tasks and whose keys are ids of
    given AGVs with more than 30 % battery; so it holds at most as many
    pairs as there are tasks. *)
Theorem fallback_assignment_no_task_twice (agvs : list AGV)
    (tasks : list Task) :
  NoDup (map task_id tasks) ->
  let recommended := fallback_assignment agvs tasks in
  NoDup (map fst recommended)
  /\ NoDup (map snd recommended)
  /\ (forall aid tid,
        In (aid, tid) recommended ->
        (exists agv,
            In agv agvs /\ agv_id agv = aid /\ battery_level agv > 30)
        /\ In tid (map task_id tasks))
  /\ (List.length recommended <= List.length tasks)%nat.
Proof.
  intros Htasks recommended.
  assert (Hinit : fallback_state_ok ([], tasks)).
  { unfold fallback_state_ok. cbn [fst snd map].
    repeat split; try constructor; [exact Htasks | intros v []]. }
  pose proof (fallback_loop_keeps_ok agvs _ Hinit) as (Hk & Hv & _ & _).
  fold (fallback_assignment agvs tasks) in Hk, Hv. fold recommended in Hk, Hv.
  assert (Hrange :
            forall aid tid,
              In (aid, tid) recommended ->
              (exists agv,
                  In agv agvs /\ agv_id agv = aid
                  /\ battery_level agv > 30)
              /\ In tid (map task_id tasks)).
  { intros aid tid Hin.
    destruct (fallback_loop_entries agvs ([], tasks) (aid, tid) Hin)
      as [[] | H]. exact H. }
  split; [exact Hk |]. split; [exact Hv |]. split; [exact Hrange |].
  rewrite <- (length_map snd recommended), <- (length_map task_id tasks).
  apply NoDup_incl_length; [exact Hv |].
  intros tid Hin. apply in_map_iff in Hin.
  destruct Hin as ([aid tid'] & E & Hin). cbn [snd] in E. subst tid'.
  apply (Hrange aid tid Hin).
Qed.

Lemma fallback_assignment_no_task_twice_witness :
  NoDup (map task_id [task_1; task_2])
  /\ NoDup (map snd (fallback_assignment [agv_a; agv_b; agv_m]
                                         [task_1; task_2])).
Proof.
  assert (H : NoDup (map task_id [task_1; task_2])).
  { cbn. constructor.
    - intros [E | []]. discriminate E.
    - constructor; [intros [] | constructor]. }
  split; [exact H |].
  apply (fallback_assignment_no_task_twice [agv_a; agv_b; agv_m]
           [task_1; task_2] H).
Defined.

(** ** Insights of the fleet service *)

Lemma insights_request_not_serializable (m : FleetMetrics)
    (agvs_count pending : Z) (now : datetime) :
  json_serializable (insights_request m agvs_count pending now) = false.
Proof. reflexivity. Qed.

Lemma insights_fallback_request (m : FleetMetrics) (agvs_count pending : Z)
    (now : datetime) :
  insights_fallback (insights_request m agvs_count pending now)
  = Ok ((if Rltb (fleet_efficiency m) 0.7
         then [efficiency_insight (PyNum (fleet_efficiency m))] else [])
        ++ (if Rltb (average_battery m) 50
            then [battery_insight (PyNum (average_battery m))] else [])).
Proof. reflexivity. Qed.

Lemma overview_efficiency_floor (repo : CSVDataAdapter) (now : datetime) :
  _agvs repo <> [] ->
  let m := fleet_metrics (get_fleet_overview repo now) in
  0.3 * average_battery m <= fleet_efficiency m.
Proof.
  intros Hne m. subst m. unfold get_fleet_overview, get_all_agvs.
  cbn [fleet_metrics fleet_efficiency average_battery].
  unfold calculate_efficiency.
  cbn [total_agvs active_agvs average_battery].
  destruct (_agvs repo) as [| a l] eqn:E; [contradiction |].
  destruct (Z.eqb_spec (Z.of_nat (List.length (a :: l))) 0) as [Hz | Hnz];
    [cbn [List.length] in Hz; lia |].
  set (total := Z.of_nat (List.length (a :: l))) in *.
  set (active := count_if _ (a :: l)).
  assert (Hpos : 0 < IZR total)
    by (apply IZR_lt; subst total; cbn [List.length]; lia).
  assert (Hact : 0 <= IZR active)
    by (apply IZR_le; apply count_if_nonneg).
  assert (Hratio : 0 <= IZR active / IZR total).
  { apply Rmult_le_pos; [exact Hact |].
    apply Rlt_le, Rinv_0_lt_compat, Hpos. }
  lra.
Qed.

(** X19: the insights of the fleet service always come from the fallback
    rules.  The request that [generate_ai_insights] builds carries the time
    stamp of the metrics as a [datetime], which [json.dumps] cannot render,
    so the prompt is never built and the answer is decided by the two
    thresholds alone: the battery alert appears exactly when the average
    battery is below 50, and the efficiency insight exactly when the
    stored efficiency, a percentage, is below 0.7.  An empty fleet gets
    both; a fleet with AGVs and an average battery of 7/3 or more never
    gets the efficiency insight, however few of its AGVs are active. *)
Theorem ai_insights_come_from_fallback (analytics : OpenAIAnalytics)
    (router : option RouteOptimizerPort) (repo : CSVDataAdapter)
    (now : datetime) :
  builds_prompt_first analytics ->
  let self :=
    mkFleetOrchestrationService router
                                (Some (OpenAIAnalytics_port analytics)) in
  let m := fleet_metrics (get_fleet_overview repo now) in
  let low := efficiency_insight (PyNum (fleet_efficiency m)) in
  let alert := battery_insight (PyNum (average_battery m)) in
  exists insights,
    generate_ai_insights self repo now = Ok insights
    /\ insights
       = (if Rltb (fleet_efficiency m) 0.7 then [low] else [])
         ++ (if Rltb (average_battery m) 50 then [alert] else [])
    /\ (In alert insights <-> average_battery m < 50)
    /\ (In low insights <-> fleet_efficiency m < 0.7)
    /\ (_agvs repo = [] -> insights = [low; alert])
    /\ (_agvs repo <> [] -> average_battery m >= 7 / 3 ->
        ~ In low insights).
Proof.
  intros Hprompt self m low alert.
  set (request :=
         insights_request m
           (Z.of_nat (List.length
                        (overview_agvs (get_fleet_overview repo now))))
           (Z.of_nat (List.length
                        (overview_pending_tasks
                           (get_fleet_overview repo now))))
           now).
  destruct (Hprompt request
              (insights_request_not_serializable m _ _ now)) as [e He].
  assert (Hrun : generate_ai_insights self repo now
                 = insights_fallback request).
  { unfold generate_ai_insights.
    cbn [self ai_analytics OpenAIAnalytics_port generate_fleet_insights].
    unfold OpenAIAnalytics_generate_fleet_insights. fold m. fold request.
    rewrite He. reflexivity. }
  unfold request in Hrun. rewrite insights_fallback_request in Hrun.
  fold low alert in Hrun.
  assert (Hdiff : low <> alert) by discriminate.
  assert (Hlow : In low
                    ((if Rltb (fleet_efficiency m) 0.7 then [low] else [])
                     ++ (if Rltb (average_battery m) 50 then [alert]
                         else []))
                 <-> fleet_efficiency m < 0.7).
  { rewrite in_app_iff. split.
    - intros [H | H].
      + destruct (Rltb (fleet_efficiency m) 0.7) eqn:E;
          [apply Rltb_true_iff; exact E | destruct H].
      + destruct (Rltb (average_battery m) 50); [| destruct H].
        destruct H as [H | []]. congruence.
    - intros H. left. rewrite (proj2 (Rltb_true_iff _ _) H).
      left. reflexivity. }
  assert (Halert : In alert
                      ((if Rltb (fleet_efficiency m) 0.7 then [low] else [])
                       ++ (if Rltb (average_battery m) 50 then [alert]
                           else []))
                   <-> average_battery m < 50).
  { rewrite in_app_iff. split.
    - intros [H | H].
      + destruct (Rltb (fleet_efficiency m) 0.7); [| destruct H].
        destruct H as [H | []]. congruence.
      + destruct (Rltb (average_battery m) 50) eqn:E;
          [apply Rltb_true_iff; exact E | destruct H].
    - intros H. right. rewrite (proj2 (Rltb_true_iff _ _) H).
      left. reflexivity. }
  eexists. split; [exact Hrun |]. split; [reflexivity |].
  split; [exact Halert |]. split; [exact Hlow |]. split.
  - intros Hempty.
    assert (He0 : fleet_efficiency m = 0).
    { subst m. unfold get_fleet_overview, get_all_agvs. rewrite Hempty.
      reflexivity. }
    assert (Hb0 : average_battery m = 0).
    { subst m. unfold get_fleet_overview, get_all_agvs. rewrite Hempty.
      reflexivity. }
    rewrite (proj2 (Rltb_true_iff (fleet_efficiency m) 0.7))
      by (rewrite He0; lra).
    rewrite (proj2 (Rltb_true_iff (average_battery m) 50))
      by (rewrite Hb0; lra).
    reflexivity.
  - intros Hne Havg Hin. apply Hlow in Hin.
    pose proof (overview_efficiency_floor repo now Hne) as Hfloor.
    cbv zeta in Hfloor. fold m in Hfloor. lra.
Qed.

Lemma ai_insights_come_from_fallback_witness :
  builds_prompt_first talkative_analytics
  /\ generate_ai_insights
       (mkFleetOrchestrationService
          None (Some (OpenAIAnalytics_port talkative_analytics)))
       yard 0%nat
     = Ok [].
Proof.
  assert (H : builds_prompt_first talkative_analytics).
  { intros d Hd. cbn [talkative_analytics insights_completion].
    rewrite Hd. exists TypeError. reflexivity. }
  split; [exact H |].
  destruct (ai_insights_come_from_fallback talkative_analytics None yard
              0%nat H) as (insights & Hrun & Heq & Halert & _ & _ & Hlow).
  rewrite Hrun. f_equal.
  assert (Hb : average_battery
                 (fleet_metrics (get_fleet_overview yard 0%nat)) = 90).
  { unfold get_fleet_overview, get_all_agvs, yard, battery_sum.
    cbn [fleet_metrics average_battery _agvs fold_left List.length
         battery_level agv_a agv_b Z.of_nat Pos.of_succ_nat Pos.succ].
    lra. }
  assert (Hno_low : Rltb (fleet_efficiency
                            (fleet_metrics (get_fleet_overview yard 0%nat)))
                         0.7 = false).
  { destruct (Rltb _ 0.7) eqn:E; [| reflexivity]. exfalso.
    apply Hlow; [discriminate | rewrite Hb; lra |].
    rewrite Heq. left. reflexivity. }
  assert (Hno_alert : Rltb (average_battery
                              (fleet_metrics (get_fleet_overview yard 0%nat)))
                           50 = false)
    by (apply Rltb_false_iff; rewrite Hb; lra).
  rewrite Heq, Hno_low, Hno_alert. reflexivity.
Defined.

(** ** Routes for the whole fleet *)

Lemma fleet_routes_attempt_result
    (routes_data : list (string * (list Position * R * R)))
    (agvs : list AGV) (tasks : list Task) (now : datetime) :
  (fleet_routes_attempt routes_data agvs tasks now [] = Ok []
   /\ forall id info agv,
        In (id, info) routes_data -> agv_named agvs id = Some agv ->
        task_assigned_to tasks id = None)
  \/ (fleet_routes_attempt routes_data agvs tasks now [] = Raise TypeError
      /\ exists id info agv task,
           In (id, info) routes_data
           /\ agv_named agvs id = Some agv
           /\ task_assigned_to tasks id = Some task).
Proof.
  induction routes_data as [| [id [[wps time] dist]] rest IH].
  - left. split; [reflexivity | intros ? ? ? []].
  - assert (Hlater :
              fleet_routes_attempt rest agvs tasks now [] = Raise TypeError
              /\ (exists id' info agv task,
                     In (id', info) rest
                     /\ agv_named agvs id' = Some agv
                     /\ task_assigned_to tasks id' = Some task) ->
              fleet_routes_attempt rest agvs tasks now [] = Raise TypeError
              /\ (exists id' info agv task,
                     In (id', info) ((id, (wps, time, dist)) :: rest)
                     /\ agv_named agvs id' = Some agv
                     /\ task_assigned_to tasks id' = Some task)).
    { intros (E & id' & info & agv & task & Hin & Ha & Ht).
      split; [exact E |]. exists id', info, agv, task.
      split; [right; exact Hin | split; assumption]. }
    cbn [fleet_routes_attempt].
    destruct (agv_named agvs id) as [agv |] eqn:Hagv.
    + destruct (task_assigned_to tasks id) as [task |] eqn:Htask.
      * right. split; [reflexivity |].
        exists id, (wps, time, dist), agv, task.
        split; [left; reflexivity | split; assumption].
      * destruct IH as [[E Hnone] | Hraise];
          [left | right; exact (Hlater Hraise)].
        split; [exact E |]. intros id' info agv' [Heq | Hin] Hnamed.
        -- injection Heq as <- _. exact Htask.
        -- exact (Hnone id' info agv' Hin Hnamed).
    + destruct IH as [[E Hnone] | Hraise];
        [left | right; exact (Hlater Hraise)].
      split; [exact E |]. intros id' info agv' [Heq | Hin] Hnamed.
      * injection Heq as <- _. congruence.
      * exact (Hnone id' info agv' Hin Hnamed).
Qed.

Lemma fleet_routes_fallback_result (agvs : list AGV) (tasks : list Task)
    (now : datetime) :
  (fleet_routes_fallback agvs tasks now [] = Ok []
   /\ forall agv, In agv agvs -> task_assigned_to tasks (agv_id agv) = None)
  \/ (fleet_routes_fallback agvs tasks now [] = Raise TypeError
      /\ exists agv task,
           In agv agvs /\ task_assigned_to tasks (agv_id agv) = Some task).
Proof.
  induction agvs as [| agv rest IH].
  - left. split; [reflexivity | intros ? []].
  - cbn [fleet_routes_fallback].
    destruct (task_assigned_to tasks (agv_id agv)) as [task |] eqn:Htask.
    + right. split; [reflexivity |]. exists agv, task.
      split; [left; reflexivity | exact Htask].
    + destruct IH as [[E Hnone] | (E & agv' & task & Hin & Ht)].
      * left. split; [exact E |]. intros agv' [<- | Hin];
          [exact Htask | exact (Hnone agv' Hin)].
      * right. split; [exact E |]. exists agv', task.
        split; [right; exact Hin | exact Ht].
Qed.

(** X20: [optimize_fleet_routes] never returns a route.  Whatever the
    remote model answers, the result is the empty dictionary or a
    TypeError.  It is the empty dictionary when none of the given AGVs has
    a task assigned among the given tasks, and also when the answer names
    no such AGV; it is a TypeError when the remote model cannot be reached
    and one of the AGVs has a task assigned. *)
Theorem optimize_fleet_routes_returns_no_route
    (fleet_completion : result (list (string * (list Position * R * R))))
    (agvs : list AGV) (tasks : list Task) (now : datetime) :
  let out :=
    OpenAIRouteOptimizer_optimize_fleet_routes fleet_completion agvs tasks
                                               now in
  (out = Ok [] \/ out = Raise TypeError)
  /\ ((forall agv, In agv agvs ->
                   task_assigned_to tasks (agv_id agv) = None) ->
      out = Ok [])
  /\ (forall routes_data,
        fleet_completion = Ok routes_data ->
        (forall id info agv,
            In (id, info) routes_data -> agv_named agvs id = Some agv ->
            task_assigned_to tasks id = None) ->
        out = Ok [])
  /\ (forall e agv task,
        fleet_completion = Raise e ->
        In agv agvs -> task_assigned_to tasks (agv_id agv) = Some task ->
        out = Raise TypeError).
Proof.
  intros out. subst out. unfold OpenAIRouteOptimizer_optimize_fleet_routes.
  pose proof (fleet_routes_fallback_result agvs tasks now) as Hfb.
  split; [| split; [| split]].
  - destruct fleet_completion as [routes_data | e].
    + destruct (fleet_routes_attempt_result routes_data agvs tasks now)
        as [[E _] | [E _]]; rewrite E; [left; reflexivity |].
      destruct Hfb as [[F _] | [F _]]; rewrite F; [left | right];
        reflexivity.
    + destruct Hfb as [[F _] | [F _]]; rewrite F; [left | right];
        reflexivity.
  - intros Hnone.
    assert (Hfallback : fleet_routes_fallback agvs tasks now [] = Ok []).
    { destruct Hfb as [[F _] | (_ & agv & task & Hin & Ht)]; [exact F |].
      rewrite (Hnone agv Hin) in Ht. discriminate Ht. }
    destruct fleet_completion as [routes_data | e]; [| exact Hfallback].
    destruct (fleet_routes_attempt_result routes_data agvs tasks now)
      as [[E _] | [E _]]; rewrite E; [reflexivity | exact Hfallback].
  - intros routes_data -> Hnone.
    destruct (fleet_routes_attempt_result routes_data agvs tasks now)
      as [[E _] | (_ & id & info & agv & task & Hin & Hagv & Ht)];
      [rewrite E; reflexivity |].
    rewrite (Hnone id info agv Hin Hagv) in Ht. discriminate Ht.
  - intros e agv task -> Hin Ht.
    destruct Hfb as [[_ Hnone] | [F _]]; [| exact F].
    rewrite (Hnone agv Hin) in Ht. discriminate Ht.
Qed.

Lemma optimize_fleet_routes_returns_no_route_witness :
  (In agv_m [agv_a; agv_m]
   /\ task_assigned_to [task_1; task_2] (agv_id agv_m) = Some task_2)
  /\ OpenAIRouteOptimizer_optimize_fleet_routes
       (Raise AdvisorError) [agv_a; agv_m] [task_1; task_2] 4%nat
     = Raise TypeError.
Proof.
  assert (Hin : In agv_m [agv_a; agv_m]) by (right; left; reflexivity).
  assert (Ht : task_assigned_to [task_1; task_2] (agv_id agv_m)
               = Some task_2) by reflexivity.
  split; [split; assumption |].
  destruct (optimize_fleet_routes_returns_no_route
              (Raise AdvisorError) [agv_a; agv_m] [task_1; task_2] 4%nat)
    as (_ & _ & _ & Hraise).
  apply (Hraise AdvisorError agv_m task_2 eq_refl Hin Ht).
Defined.

(** ** The maintenance fallback *)

Lemma dict_set_fresh_key {V : Type} (d : list (string * V)) (k : string)
    (v : V) :
  ~ In k (map fst d) -> map fst (dict_set d k v) = map fst d ++ [k].
Proof.
  induction d as [| [k0 v0] d IH]; cbn [dict_set map fst In app];
    [reflexivity |].
  intros Hnot. destruct (String.eqb_spec k0 k) as [E | NE].
  - exfalso. apply Hnot. left. exact E.
  - cbn [map fst]. f_equal. apply IH. intros Hin. apply Hnot. right.
    exact Hin.
Qed.

Lemma maintenance_step_shape (st : list (string * MaintenancePrediction)
                                   * Random) (agv : AGV) :
  unit_draws (snd st) ->
  exists p,
    fst (maintenance_fallback_step st agv)
    = dict_set (fst st) (agv_id agv) p
    /\ unit_draws (snd (maintenance_fallback_step st agv))
    /\ needs_maintenance p
       = Rltb (battery_level agv) 50
         || AGVStatus_eqb (status agv) CHARGING
    /\ urgency p = (if Rltb (battery_level agv) 20 then "HIGH" else "LOW")
    /\ predicted_issue p
       = (if Rltb (battery_level agv) 50 then "Batería baja"
          else "Funcionamiento normal")
    /\ recommended_action p
       = (if needs_maintenance p then "Revisar sistema de carga"
          else "Continuar operación")
    /\ (needs_maintenance p = true ->
        100 <= estimated_cost p <= 500 /\ 1 <= downtime_hours p <= 4)
    /\ (needs_maintenance p = false ->
        estimated_cost p = 0 /\ downtime_hours p = 0).
Proof.
  destruct st as [d g]. cbn [fst snd]. intros Hg.
  unfold maintenance_fallback_step.
  destruct (Rltb (battery_level agv) 50
            || AGVStatus_eqb (status agv) CHARGING) eqn:Hneeds.
  - assert (H1 : 100 <= 500) by lra.
    destruct (uniform_range 100 500 g H1 Hg) as [Hcost Hg1].
    destruct (uniform 100 500 g) as [cost g1]. cbn [fst snd] in Hcost, Hg1.
    assert (H2 : 1 <= 4) by lra.
    destruct (uniform_range 1 4 g1 H2 Hg1) as [Hdown Hg2].
    destruct (uniform 1 4 g1) as [downtime g2].
    cbn [fst snd] in Hdown, Hg2.
    eexists. split; [reflexivity |]. split; [exact Hg2 |].
    cbn [needs_maintenance urgency predicted_issue recommended_action
         estimated_cost downtime_hours].
    repeat split; try reflexivity; try (intros; discriminate);
      first [apply Hcost | apply Hdown].
  - eexists. split; [reflexivity |]. split; [exact Hg |].
    cbn [needs_maintenance urgency predicted_issue recommended_action
         estimated_cost downtime_hours].
    repeat split; try reflexivity; intros; discriminate.
Qed.

Lemma maintenance_loop_other (id : string) (agvs : list AGV) :
  ~ In id (map agv_id agvs) ->
  forall st,
    dict_get (fst (fold_left maintenance_fallback_step agvs st)) id
    = dict_get (fst st) id.
Proof.
  induction agvs as [| a agvs IH]; intros Hnot st; [reflexivity |].
  cbn [map In] in Hnot. cbn [fold_left].
  rewrite IH by (intros H; apply Hnot; right; exact H).
  destruct st as [d g]. unfold maintenance_fallback_step.
  destruct (Rltb (battery_level a) 50
            || AGVStatus_eqb (status a) CHARGING);
    [destruct (uniform 100 500 g) as [cost g1];
     destruct (uniform 1 4 g1) as [downtime g2] |];
    cbn [fst]; apply dict_get_set_other;
    intros E; apply Hnot; left; symmetry; exact E.
Qed.

Lemma maintenance_loop_draws (agvs : list AGV) :
  forall st,
    unit_draws (snd st) ->
    unit_draws (snd (fold_left maintenance_fallback_step agvs st)).
Proof.
  induction agvs as [| a agvs IH]; intros st Hst; [exact Hst |].
  cbn [fold_left]. apply IH.
  destruct (maintenance_step_shape st a Hst) as (p & _ & Hg & _).
  exact Hg.
Qed.

Lemma maintenance_loop_keys (agvs : list AGV) :
  forall st,
    NoDup (map agv_id agvs) ->
    (forall id, In id (map agv_id agvs) -> ~ In id (map fst (fst st))) ->
    map fst (fst (fold_left maintenance_fallback_step agvs st))
    = map fst (fst st) ++ map agv_id agvs.
Proof.
  induction agvs as [| a agvs IH]; intros st Hnodup Hfresh.
  - cbn [fold_left map]. rewrite app_nil_r. reflexivity.
  - inversion Hnodup as [| ? ? Hnot Hrest]; subst. cbn [fold_left map].
    assert (Hstep : map fst (fst (maintenance_fallback_step st a))
                    = map fst (fst st) ++ [agv_id a]).
    { destruct st as [d g]. unfold maintenance_fallback_step.
      destruct (Rltb (battery_level a) 50
                || AGVStatus_eqb (status a) CHARGING);
        [destruct (uniform 100 500 g) as [cost g1];
         destruct (uniform 1 4 g1) as [downtime g2] |];
        cbn [fst]; apply dict_set_fresh_key; apply Hfresh; left;
        reflexivity. }
    rewrite IH; [| exact Hrest |].
    + rewrite Hstep, <- app_assoc. reflexivity.
    + intros id Hin. rewrite Hstep. intros Hold.
      apply in_app_or in Hold. destruct Hold as [Hold | [E | []]].
      * apply (Hfresh id); [right; exact Hin | exact Hold].
      * apply Hnot. rewrite E. exact Hin.
Qed.

(** X21: the maintenance fallback.  For AGVs with distinct ids and draws
    of the random source in [0, 1) the fallback of
    [predict_maintenance_needs] holds exactly one prediction per AGV, in
    the order of the AGVs.  An AGV needs maintenance exactly when its
    battery is below 50 or it is charging; the urgency is HIGH exactly
    below 20, so HIGH implies that maintenance is needed; cost and
    downtime are 0 when none is needed and lie in [100, 500] and [1, 4]
    otherwise.  A charging AGV with 50 % or more is told to have its
    charging system checked although the predicted issue is normal
    operation. *)
Theorem maintenance_fallback_predictions (agvs : list AGV) (g : Random)
    (agv : AGV) :
  NoDup (map agv_id agvs) -> In agv agvs -> unit_draws g ->
  map fst (fst (maintenance_fallback agvs g)) = map agv_id agvs
  /\ exists p,
       dict_get (fst (maintenance_fallback agvs g)) (agv_id agv) = Some p
       /\ (needs_maintenance p = true <->
           battery_level agv < 50 \/ status agv = CHARGING)
       /\ (urgency p = "HIGH" <-> battery_level agv < 20)
       /\ (urgency p = "HIGH" -> needs_maintenance p = true)
       /\ (needs_maintenance p = true ->
           100 <= estimated_cost p <= 500 /\ 1 <= downtime_hours p <= 4)
       /\ (needs_maintenance p = false ->
           estimated_cost p = 0 /\ downtime_hours p = 0)
       /\ (status agv = CHARGING -> battery_level agv >= 50 ->
           needs_maintenance p = true
           /\ predicted_issue p = "Funcionamiento normal"
           /\ recommended_action p = "Revisar sistema de carga").
Proof.
  intros Hnodup Hin Hg. split.
  - unfold maintenance_fallback.
    rewrite maintenance_loop_keys; [reflexivity | exact Hnodup |].
    intros id _ [].
  - destruct (in_split agv agvs Hin) as (pre & post & ->).
    unfold maintenance_fallback. rewrite fold_left_app. cbn [fold_left].
    set (st := fold_left maintenance_fallback_step pre ([], g)).
    assert (Hst : unit_draws (snd st))
      by (apply maintenance_loop_draws; exact Hg).
    assert (Hpost : ~ In (agv_id agv) (map agv_id post)).
    { rewrite map_app in Hnodup. cbn [map] in Hnodup.
      apply NoDup_remove_2 in Hnodup. intros H. apply Hnodup.
      apply in_or_app. right. exact H. }
    rewrite (maintenance_loop_other (agv_id agv) post Hpost).
    destruct (maintenance_step_shape st agv Hst)
      as (p & Hset & _ & Hneeds & Hurg & Hissue & Haction & Hcost & Hzero).
    rewrite Hset, dict_get_set_same.
    assert (Hiff : needs_maintenance p = true <->
                   battery_level agv < 50 \/ status agv = CHARGING).
    { rewrite Hneeds, orb_true_iff, Rltb_true_iff.
      split; (intros [H | H]; [left; exact H | right]).
      - destruct (status agv); try discriminate H. reflexivity.
      - rewrite H. reflexivity. }
    assert (Hhigh : urgency p = "HIGH" <-> battery_level agv < 20).
    { rewrite Hurg. destruct (Rltb (battery_level agv) 20) eqn:E.
      - apply Rltb_true_iff in E. split; [intros _; exact E | reflexivity].
      - apply Rltb_false_iff in E. split; [discriminate | intros H; lra]. }
    exists p. split; [reflexivity |]. split; [exact Hiff |].
    split; [exact Hhigh |]. split.
    { intros H. apply Hiff. left. apply Hhigh in H. lra. }
    split; [exact Hcost |]. split; [exact Hzero |].
    intros Hs Hb.
    assert (Hn : needs_maintenance p = true)
      by (apply Hiff; right; exact Hs).
    split; [exact Hn |]. split.
    + rewrite Hissue.
      rewrite (proj2 (Rltb_false_iff (battery_level agv) 50)); [reflexivity |].
      lra.
    + rewrite Haction, Hn. reflexivity.
Qed.

Lemma maintenance_fallback_predictions_witness :
  (NoDup (map agv_id [agv_a; agv_m]) /\ In agv_m [agv_a; agv_m]
   /\ unit_draws steady_random)
  /\ map fst (fst (maintenance_fallback [agv_a; agv_m] steady_random))
     = ["AGV-A"; "AGV-M"].
Proof.
  assert (Hnodup : NoDup (map agv_id [agv_a; agv_m])).
  { cbn. constructor.
    - intros [E | []]. discriminate E.
    - constructor; [intros [] | constructor]. }
  assert (Hin : In agv_m [agv_a; agv_m]) by (right; left; reflexivity).
  split; [repeat split; try assumption; apply steady_random_unit |].
  apply (maintenance_fallback_predictions [agv_a; agv_m] steady_random
           agv_m Hnodup Hin steady_random_unit).
Defined.

(** ** Manual dispatch: rejections and a failed save *)

(** X22: a rejected dispatch changes nothing, a failed save does.  For an
    AGV that is not available, or cannot reach the target,
    [send_agv_to_position] reports the reason and leaves the repository as
    it is.  When the AGV passes both tests but the AGV file cannot be
    written, the caller is told that the AGV could not be updated, yet the
    stored AGV is MOVING from then on: every further dispatch of it, to
    any target, is rejected as not available.  An emergency stop makes it
    available again when its battery is above 20. *)
Theorem dispatch_rejections_and_failed_save (repo : CSVDataAdapter)
    (id : string) (target : Position) (now : datetime) (a : AGV) :
  get_agv_by_id repo id = Some a ->
  (is_available a = false ->
   forall persisted,
     send_agv_to_position repo id target now persisted
     = (AGVNotAvailable, repo))
  /\ (is_available a = true -> can_reach a target = false ->
      forall persisted,
        send_agv_to_position repo id target now persisted
        = (AGVCannotReach, repo))
  /\ (is_available a = true -> can_reach a target = true ->
      let out := send_agv_to_position repo id target now false in
      fst out = AGVNotUpdated
      /\ get_agv_by_id (snd out) id
         = Some (set_last_update (set_status a MOVING) now)
      /\ (forall target2 now2 persisted2,
            send_agv_to_position (snd out) id target2 now2 persisted2
            = (AGVNotAvailable, snd out))
      /\ (forall now2 persisted2,
            exists a',
              get_agv_by_id
                (snd (emergency_stop_agv (snd out) id now2 persisted2)) id
              = Some a'
              /\ position a' = position a
              /\ (is_available a' = true <-> battery_level a > 20))).
Proof.
  intros Hget. pose proof (get_agv_by_id_key _ _ _ Hget) as Hkey.
  split; [| split].
  - intros Hna persisted. unfold send_agv_to_position.
    rewrite Hget, Hna. reflexivity.
  - intros Hav Hreach persisted. unfold send_agv_to_position.
    rewrite Hget, Hav, Hreach. reflexivity.
  - intros Hav Hreach out.
    assert (Hout : out
                   = (AGVNotUpdated,
                      update_agv repo (set_last_update (set_status a MOVING)
                                                       now) now)).
    { subst out. unfold send_agv_to_position.
      rewrite Hget, Hav, Hreach. reflexivity. }
    assert (Hstored : get_agv_by_id (snd out) id
                      = Some (set_last_update (set_status a MOVING) now)).
    { rewrite Hout. cbn [snd]. rewrite <- Hkey.
      apply (get_update_agv_same repo
               (set_last_update (set_status a MOVING) now) now). }
    split; [rewrite Hout; reflexivity |]. split; [exact Hstored |].
    split.
    + intros target2 now2 persisted2. unfold send_agv_to_position.
      rewrite Hstored. reflexivity.
    + intros now2 persisted2.
      set (a1 := set_last_update
                   (set_current_task_id
                      (set_status (set_last_update (set_status a MOVING) now)
                                  IDLE) None) now2).
      exists (set_last_update a1 now2).
      assert (Hstop : snd (emergency_stop_agv (snd out) id now2 persisted2)
                      = update_agv (snd out) a1 now2).
      { unfold emergency_stop_agv. rewrite Hstored.
        destruct persisted2; reflexivity. }
      rewrite Hstop. split; [| split; [reflexivity |]].
      * rewrite <- Hkey. apply (get_update_agv_same (snd out) a1 now2).
      * unfold is_available. cbn. rewrite andb_true_r.
        apply Rgtb_true_iff.
Qed.

Lemma dispatch_rejections_and_failed_save_witness :
  (get_agv_by_id yard "AGV-A" = Some agv_a
   /\ is_available agv_a = true /\ can_reach agv_a quay = true)
  /\ fst (send_agv_to_position yard "AGV-A" quay 2%nat false)
     = AGVNotUpdated
  /\ send_agv_to_position
       (snd (send_agv_to_position yard "AGV-A" quay 2%nat false))
       "AGV-A" depot 3%nat true
     = (AGVNotAvailable,
        snd (send_agv_to_position yard "AGV-A" quay 2%nat false)).
Proof.
  assert (Hreach : can_reach agv_a quay = true).
  { apply can_reach_true. change (position agv_a) with depot.
    rewrite depot_to_quay. cbn. lra. }
  split; [repeat split; [apply agv_a_available | exact Hreach] |].
  destruct (dispatch_rejections_and_failed_save yard "AGV-A" quay 2%nat
              agv_a eq_refl) as (_ & _ & Hfail).
  destruct (Hfail agv_a_available Hreach) as (Hout & _ & Hagain & _).
  split; [exact Hout | apply Hagain].
Defined.
